(** * daily-market-bot: the sheet formatter and the heatmap capture pipeline

    A shallow embedding of [daily-market-bot.py].

    - Part 1 models Python [str] values as lists of Unicode code points and
      embeds [fmt_pct] and [format_slack_message].
    - Part 2 models the effectful code ([read_google_sheet],
      [goto_with_retries], [capture_heatmap], [main]) in a small monad that
      threads the trace of external calls and propagates Python exceptions.
      The outside world (Playwright, the file system, the sheet) is an oracle
      that answers every call from the history of the run so far. *)

From Stdlib Require Import List NArith String Ascii Bool Arith Lia.
Import ListNotations.

(* ===================================================================== *)
(** * Part 1: Python strings                                              *)
(* ===================================================================== *)

(** A Python [str] is a sequence of Unicode code points. *)
Definition pystr := list N.

(** An ASCII string literal of the program, as a [pystr]. *)
Definition lit (s : string) : pystr :=
  List.map N_of_ascii (list_ascii_of_string s).

Definition LF : N := 10%N.
Definition PERCENT : N := 37%N.

(** [str.isspace] on one code point: the whitespace that [str.strip()]
    removes (CPython's [_PyUnicode_IsWhitespace]). *)
Definition is_space (c : N) : bool :=
  ((9 <=? c) && (c <=? 13) ||
   (28 <=? c) && (c <=? 32) ||
   (c =? 133) || (c =? 160) || (c =? 5760) ||
   (8192 <=? c) && (c <=? 8202) ||
   (c =? 8232) || (c =? 8233) || (c =? 8239) || (c =? 8287) ||
   (c =? 12288))%N.

Fixpoint lstrip (v : pystr) : pystr :=
  match v with
  | [] => []
  | c :: v' => if is_space c then lstrip v' else v
  end.

Definition rstrip (v : pystr) : pystr := rev (lstrip (rev v)).

(** [v.strip()] *)
Definition strip (v : pystr) : pystr := rstrip (lstrip v).

(** ["%" in v] *)
Definition pct_in (v : pystr) : bool := existsb (N.eqb PERCENT) v.

(** [v.startswith(p)] *)
Fixpoint startswith (v p : pystr) : bool :=
  match p, v with
  | [], _ => true
  | _ :: _, [] => false
  | a :: p', b :: v' => (a =? b)%N && startswith v' p'
  end.

(** [v.endswith("%")] *)
Definition endswith_pct (v : pystr) : bool :=
  match rev v with
  | c :: _ => (c =? PERCENT)%N
  | [] => false
  end.

(** [sep.join(ls)] *)
Fixpoint join (sep : pystr) (ls : list pystr) : pystr :=
  match ls with
  | [] => []
  | [l] => l
  | l :: ls' => l ++ sep ++ join sep ls'
  end.

(** [v.split("\n")]: the lines of a text, a line ending at each line feed. *)
Fixpoint split_lf (v : pystr) : list pystr :=
  match v with
  | [] => [[]]
  | c :: v' =>
      if (c =? LF)%N then [] :: split_lf v'
      else match split_lf v' with
           | l :: ls => (c :: l) :: ls
           | [] => [[c]]
           end
  end.

Definition no_lf (v : pystr) : Prop := ~ In LF v.

(* --------------------------------------------------------------------- *)
(** ** The sheet row and the message formatter                            *)
(* --------------------------------------------------------------------- *)

(** The dict that [read_google_sheet] returns: the nine cells A2..I2. *)
Record sheet_row := {
  date   : pystr;
  sp500  : pystr;
  nasdaq : pystr;
  tsx    : pystr;
  mags   : pystr;
  btc    : pystr;
  eth    : pystr;
  usdcad : pystr;
  gold   : pystr
}.

(** [fmt_pct], the helper nested in [format_slack_message]; the cells are
    already strings, so [str(val)] is [val]. *)
Definition fmt_pct (val : pystr) : pystr :=
  let v := strip val in
  if pct_in v then v else v ++ [PERCENT].

(** The rule of 27 box-drawing characters (U+2500). *)
Definition SEPARATOR : pystr := repeat 9472%N 27.

Section Formatter.

(** The USD/CAD line of the source reads
    [{d['usdcad'] if d['usdcad'].startswith('<A>') else '<B>' + d['usdcad']}]
    and the text of the two literals [<A>] and [<B>] is lost in the file
    (the line is cut after [startswith('] and resumes at [) else '] and
    [ + d['usdcad']}]).  They are taken as parameters. *)
Variable usd_mark : pystr.    (* <A>: the literal tested by startswith *)
Variable usd_prefix : pystr.  (* <B>: the literal prepended otherwise *)

Definition usdcad_text (d : sheet_row) : pystr :=
  if startswith (usdcad d) usd_mark then usdcad d else usd_prefix ++ usdcad d.

Definition format_slack_message (d : sheet_row) : pystr :=
  let lines :=
    [ lit "*Date: " ++ date d ++ lit " Market*";
      SEPARATOR;
      lit ":us: S&P 500: " ++ fmt_pct (sp500 d);
      lit ":us: Nasdaq: " ++ fmt_pct (nasdaq d);
      lit ":flag-ca: TSX Comp: " ++ fmt_pct (tsx d);
      lit ":seven: Magnificent7: " ++ fmt_pct (mags d);
      lit ":bitcoin: Bitcoin: " ++ fmt_pct (btc d);
      lit ":ethereum: Ethereum: " ++ fmt_pct (eth d);
      lit ":chart_with_upwards_trend: USD/CAD: " ++ usdcad_text d;
      lit ":gold_ingot: Gold: " ++ fmt_pct (gold d) ] in
  join [LF] lines.

End Formatter.

(** The row of the end-to-end scenario. *)
Definition scenario_row : sheet_row :=
  {| date := lit "2024-06-01"; sp500 := lit "+0.5"; nasdaq := lit "+1.2";
     tsx := lit "-0.3"; mags := lit "+2.0"; btc := lit "+3.1";
     eth := lit "-1.0"; usdcad := lit "1.36"; gold := lit "+0.8" |}.

(* ===================================================================== *)
(** * Part 2: the effectful code                                          *)
(* ===================================================================== *)

(** ** Exceptions *)

(** The exceptions the program raises itself ([ValueError] of
    [read_google_sheet], [StopIteration] of [next], the [RuntimeError] a
    coroutine turns a [StopIteration] into) and the ones its libraries raise.
    [CancelledError] and [KeyboardInterrupt] derive from [BaseException]
    only: [except Exception] lets them through, a bare [except:] does not. *)
Inductive exn :=
| ValueError (got : nat) (row : list pystr)
| StopIteration
| RuntimeError
| TimeoutError
| PlaywrightError
| OSError
| RequestException
| CancelledError
| KeyboardInterrupt.

(** [isinstance(e, Exception)] *)
Definition is_Exception (e : exn) : bool :=
  match e with
  | CancelledError | KeyboardInterrupt => false
  | _ => true
  end.

(** ** External calls, answers and the trace *)

Inductive op :=
| PlaywrightStart                 (* async_playwright().__aenter__ *)
| PlaywrightStop                  (* async_playwright().__aexit__ *)
| Launch (headless : bool) (args : list string)
| NewContext (width height : N) (user_agent : string)
             (java_script_enabled accept_downloads : bool)
| NewPage
| AddInitScript (script : string)
| Goto (url wait_until : string) (timeout : N)
| WaitForLoadState (state : string) (timeout : N)
| Sleep (ms : N)                  (* asyncio.sleep, in milliseconds *)
| Click (sel : string) (timeout : N)
| QuerySelector (sel : string)
| ElementScreenshot (sel path : string)  (* el.screenshot, el found by sel *)
| PageScreenshot (path : string) (full_page : bool)
| CopyFile (src dst : string)
| BrowserClose
| RequestsGet (url : string) (timeout : N)
| RaiseForStatus
| OpenAppend (path : string)
| FileWrite (path : string) (data : pystr)
| FileClose (path : string).

(** A call returns (only the truth value of what it returns is ever used:
    [query_selector] gives an element or [None]) or raises. *)
Inductive answer :=
| Returned (truthy : bool)
| Raised (e : exn).

(** What [print] writes. *)
Inductive log :=
| LogRule                               (* "=" * 50 *)
| LogTitle (date : string)              (* Daily Market Bot, DATE_NY *)
| LogSheetData (message_text : pystr)
| LogGotoAttempt (i attempts : nat)
| LogGotoFailed (e : exn)
| LogLatestCopyFailed (e : exn)
| LogSaved (path : string)
| LogOutputWritten
| LogNoOutput
| LogDone.

Inductive event :=
| Call (o : op) (a : answer)
| Print (m : log).

Definition trace := list event.

(** The world of one run: the date computed when the module is loaded, the
    environment variable, the rows [csv.reader] yields from the fetched
    sheet, and the answer to every external call, which may depend on
    everything that happened before it. *)
Record env := {
  DATE_NY : string;
  GITHUB_OUTPUT : option string;
  sheet_csv : list (list pystr);
  respond : trace -> op -> answer
}.

(** ** The monad: world and trace in, result and trace out *)

Inductive result (A : Type) :=
| Normal (a : A)
| Raise (e : exn).

Arguments Normal {A} a.
Arguments Raise {A} e.

Definition M (A : Type) := env -> trace -> result A * trace.

Definition ret {A} (a : A) : M A := fun _ h => (Normal a, h).

Definition bind {A B} (m : M A) (k : A -> M B) : M B :=
  fun w h =>
    match m w h with
    | (Normal a, h') => k a w h'
    | (Raise e, h') => (Raise e, h')
    end.

Definition raise {A} (e : exn) : M A := fun _ h => (Raise e, h).

Definition ask {A} (f : env -> A) : M A := fun w h => (Normal (f w), h).

Definition call (o : op) : M bool :=
  fun w h =>
    let a := respond w h o in
    (match a with Returned b => Normal b | Raised e => Raise e end,
     h ++ [Call o a]).

Definition print (m : log) : M unit := fun _ h => (Normal tt, h ++ [Print m]).

Declare Scope py_scope.
Delimit Scope py_scope with py.
Notation "x <- m ;; k" := (bind m (fun x => k))
  (at level 61, m at next level, right associativity) : py_scope.
Notation "m ;; k" := (bind m (fun _ => k))
  (at level 61, right associativity) : py_scope.
Local Open Scope py_scope.
Local Open Scope string_scope.

(** [try: m  except <class> as e: handler e]; an exception the handler
    raises propagates. *)
Definition try_except {A} (m : M A) (catches : exn -> bool)
           (handler : exn -> M A) : M A :=
  fun w h =>
    match m w h with
    | (Raise e, h') => if catches e then handler e w h' else (Raise e, h')
    | r => r
    end.

Definition Exception_ : exn -> bool := is_Exception.   (* except Exception *)
Definition anything : exn -> bool := fun _ => true.    (* bare except: *)

(** [with]/[async with] on a context manager whose exit returns [None]
    (Playwright's and the file object's do), so that an exception of the
    body is not suppressed; an exception of the exit itself replaces it. *)
Definition with_ {A} (enter exit : op) (body : M A) : M A :=
  fun w h =>
    match call enter w h with
    | (Raise e, h1) => (Raise e, h1)
    | (Normal _, h1) =>
        let '(r, h2) := body w h1 in
        match call exit w h2 with
        | (Raise e', h3) => (Raise e', h3)
        | (Normal _, h3) => (r, h3)
        end
    end.

(** A [StopIteration] that leaves the body of a coroutine becomes a
    [RuntimeError] (PEP 479). *)
Definition pep479 (e : exn) : exn :=
  match e with StopIteration => RuntimeError | _ => e end.

Definition async_def {A} (m : M A) : M A :=
  fun w h =>
    match m w h with
    | (Raise e, h') => (Raise (pep479 e), h')
    | r => r
    end.

(** ** Configuration *)

Definition dq : string := String (ascii_of_nat 34) EmptyString.

Definition SHEET_ID := "1oukBzlyEkFRzTKgmO_6-Zrw6JcEr8k1ZP4Mp-QisDY4".
Definition GID := "404426642".
Definition OUTPUT_DIR := "site".
Definition HEATMAP_PATH (w : env) : string :=
  OUTPUT_DIR ++ "/" ++ "sp500_heatmap_" ++ DATE_NY w ++ ".png".
Definition HEATMAP_LATEST : string :=
  OUTPUT_DIR ++ "/" ++ "sp500_heatmap_latest.png".
Definition FINVIZ_URL := "https://finviz.com/map.ashx".
Definition REAL_UA :=
  "Mozilla/5.0 (Windows NT 10.0; Win64; x64) " ++
  "AppleWebKit/537.36 (KHTML, like Gecko) " ++
  "Chrome/124.0.0.0 Safari/537.36".

Definition INIT_SCRIPT :=
"
            Object.defineProperty(navigator, 'webdriver', { get: () => undefined });
            window.chrome = { runtime: {} };
            Object.defineProperty(navigator, 'plugins', { get: () => [1,2,3,4,5] });
            Object.defineProperty(navigator, 'languages', { get: () => ['en-US','en'] });
        ".

Definition BANNER_SELECTORS : list string :=
  [ "button:has-text(" ++ dq ++ "Accept" ++ dq ++ ")";
    "button:has-text(" ++ dq ++ "I Accept" ++ dq ++ ")";
    "button:has-text(" ++ dq ++ "Agree" ++ dq ++ ")";
    "[aria-label*=" ++ dq ++ "accept" ++ dq ++ "]" ].

Definition MAP_SELECTORS : list string :=
  [ "#map";
    "div[id*=" ++ dq ++ "map" ++ dq ++ "]";
    "img[src*=" ++ dq ++ "map.ashx" ++ dq ++ "]";
    "canvas" ].

(** ** 1. Google Sheet reader *)

Definition export_url : string :=
  "https://docs.google.com/spreadsheets/d/" ++ SHEET_ID ++
  "/export?format=csv&gid=" ++ GID.

(** [next(reader)] *)
Definition next_row (rows : list (list pystr))
  : M (list pystr * list (list pystr)) :=
  match rows with
  | [] => raise StopIteration
  | r :: rest => ret (r, rest)
  end.

Definition read_google_sheet : M sheet_row :=
  call (RequestsGet export_url 30);;
  call RaiseForStatus;;
  reader <- ask sheet_csv;;
  hr <- next_row reader;;          (* row 1 (headers) *)
  rr <- next_row (snd hr);;        (* row 2 (data) *)
  let row := fst rr in
  if (List.length row <? 9)%nat then raise (ValueError (List.length row) row)
  else ret {| date   := nth 0 row [];
              sp500  := nth 1 row [];
              nasdaq := nth 2 row [];
              tsx    := nth 3 row [];
              mags   := nth 4 row [];
              btc    := nth 5 row [];
              eth    := nth 6 row [];
              usdcad := nth 7 row [];
              gold   := nth 8 row [] |}.

(** ** 2. Heatmap screenshot *)

(** The iterations [i, i+1, ..., i+n-1] of
    [for i in range(1, attempts + 1)]; the body of the [try] either returns
    [True] from the function ([Some true]) or the handler falls through to
    the next iteration ([None]). *)
Fixpoint goto_attempts (url : string) (attempts i n : nat) : M bool :=
  match n with
  | 0 => ret false
  | S n' =>
      r <- try_except
             (print (LogGotoAttempt i attempts);;
              call (Goto url "domcontentloaded" 90000);;
              call (WaitForLoadState "networkidle" 60000);;
              ret (Some true))
             Exception_
             (fun e =>
                (if (i =? attempts)%nat then print (LogGotoFailed e) else ret tt);;
                call (Sleep ((2 + N.of_nat i) * 1000));;
                ret None);;
      match r with
      | Some b => ret b
      | None => goto_attempts url attempts (S i) n'
      end
  end.

Definition goto_with_retries (url : string) (attempts : nat) : M bool :=
  async_def (goto_attempts url attempts 1 attempts).

(** Dismiss cookie banners (best effort): [break] at the first click that
    goes through. *)
Fixpoint dismiss_banners (sels : list string) : M unit :=
  match sels with
  | [] => ret tt
  | sel :: rest =>
      broke <- try_except
                 (call (Click sel 1500);;
                  call (Sleep 400);;
                  ret true)
                 anything
                 (fun _ => ret false);;
      if broke then ret tt else dismiss_banners rest
  end.

(** The loop over the map selectors; the result is [saved]. *)
Fixpoint screenshot_element (path : string) (sels : list string) : M bool :=
  match sels with
  | [] => ret false
  | sel :: rest =>
      saved <- try_except
                 (el <- call (QuerySelector sel);;
                  if el then call (ElementScreenshot sel path);; ret true
                  else ret false)
                 anything
                 (fun _ => ret false);;
      if saved then ret true else screenshot_element path rest
  end.

(** Screenshot the map element, fall back to the full page. *)
Definition take_screenshot : M unit :=
  path <- ask HEATMAP_PATH;;
  saved <- screenshot_element path MAP_SELECTORS;;
  if negb saved then call (PageScreenshot path true);; ret tt else ret tt.

(** Keep a "latest" copy. *)
Definition keep_latest : M unit :=
  path <- ask HEATMAP_PATH;;
  try_except
    (call (CopyFile path HEATMAP_LATEST);; ret tt)
    Exception_
    (fun e => print (LogLatestCopyFailed e)).

(** The body of the [async with] block of [capture_heatmap]; the banner
    loop, the screenshot part and the copy part are the three commented
    parts of the source, in their order. *)
Definition capture_body : M unit :=
  call (Launch true [ "--disable-blink-features=AutomationControlled";
                      "--disable-dev-shm-usage";
                      "--no-sandbox" ]);;
  call (NewContext 1600 1200 REAL_UA true false);;
  call NewPage;;
  call (AddInitScript INIT_SCRIPT);;
  ok <- goto_with_retries FINVIZ_URL 3;;
  (if negb ok then call (Goto FINVIZ_URL "load" 120000);; ret tt else ret tt);;
  dismiss_banners BANNER_SELECTORS;;
  take_screenshot;;
  keep_latest;;
  path <- ask HEATMAP_PATH;;
  print (LogSaved path);;
  call BrowserClose;;
  ret tt.

Definition capture_heatmap : M unit :=
  async_def (with_ PlaywrightStart PlaywrightStop capture_body).

(** ** Main *)

Section Main.

Variable usd_mark : pystr.
Variable usd_prefix : pystr.

(** The [with open(gh_output, "a") as f:] block of [main]. *)
Definition write_output (gh_output : string) (message_text : pystr) : M unit :=
  with_ (OpenAppend gh_output) (FileClose gh_output)
        (call (FileWrite gh_output (lit "market_text<<EOF" ++ [LF])%list);;
         call (FileWrite gh_output (message_text ++ [LF])%list);;
         call (FileWrite gh_output (lit "EOF" ++ [LF])%list);;
         ret tt).

(** [if gh_output:] holds for a set, non-empty variable. *)
Definition truthy_path (gh : option string) : option string :=
  match gh with
  | Some EmptyString => None
  | other => other
  end.

Definition main : M unit :=
  async_def
    (print LogRule;;
     today <- ask DATE_NY;;
     print (LogTitle today);;
     print LogRule;;
     sheet_data <- read_google_sheet;;
     let message_text := format_slack_message usd_mark usd_prefix sheet_data in
     print (LogSheetData message_text);;
     capture_heatmap;;
     gh <- ask GITHUB_OUTPUT;;
     match truthy_path gh with
     | Some gh_output =>
         write_output gh_output message_text;;
         print LogOutputWritten
     | None => print LogNoOutput
     end;;
     print LogDone).

End Main.

Local Close Scope string_scope.

(* ===================================================================== *)
(** * Statements of the specification, as definitions                     *)
(* ===================================================================== *)

(** The labels of the eight metric lines, in the order of the message. *)
Definition METRIC_LABELS : list pystr :=
  [ lit ":us: S&P 500: "; lit ":us: Nasdaq: "; lit ":flag-ca: TSX Comp: ";
    lit ":seven: Magnificent7: "; lit ":bitcoin: Bitcoin: ";
    lit ":ethereum: Ethereum: "; lit ":chart_with_upwards_trend: USD/CAD: ";
    lit ":gold_ingot: Gold: " ].

(** Position of the USD/CAD line among the metric lines. *)
Definition USDCAD_INDEX : nat := 6.

Fixpoint lines_match (i : nat) (labels lines : list pystr) : bool :=
  match labels, lines with
  | [], [] => true
  | lb :: labels', l :: lines' =>
      startswith l lb
      && ((i =? USDCAD_INDEX) || endswith_pct l)
      && lines_match (S i) labels' lines'
  | _, _ => false
  end.

(** The layout the specification states for every message: two heading
    lines, then exactly one line per metric, each starting with its label,
    the percent-style ones ending in a percent sign. *)
Definition spec_metric_layout (msg : pystr) : bool :=
  match split_lf msg with
  | _ :: _ :: metric_lines => lines_match 0 METRIC_LABELS metric_lines
  | _ => false
  end.

(** The message the specification states for the end-to-end scenario, the
    USD/CAD cell passed through as it is. *)
Definition spec_scenario_message : pystr :=
  join [LF]
    [ lit "*Date: 2024-06-01 Market*";
      SEPARATOR;
      lit ":us: S&P 500: +0.5%";
      lit ":us: Nasdaq: +1.2%";
      lit ":flag-ca: TSX Comp: -0.3%";
      lit ":seven: Magnificent7: +2.0%";
      lit ":bitcoin: Bitcoin: +3.1%";
      lit ":ethereum: Ethereum: -1.0%";
      lit ":chart_with_upwards_trend: USD/CAD: 1.36";
      lit ":gold_ingot: Gold: +0.8%" ].

(** A row whose S&P cell carries text after its percent sign. *)
Definition annotated_row : sheet_row :=
  {| date := lit "2024-06-01"; sp500 := lit "5% up"; nasdaq := lit "+1.2";
     tsx := lit "-0.3"; mags := lit "+2.0"; btc := lit "+3.1";
     eth := lit "-1.0"; usdcad := lit "1.36"; gold := lit "+0.8" |}.

(** The seven percent-style cells of a row. *)
Definition pct_cells (d : sheet_row) : list pystr :=
  [sp500 d; nasdaq d; tsx d; mags d; btc d; eth d; gold d].

Definition all_cells (d : sheet_row) : list pystr :=
  [date d; sp500 d; nasdaq d; tsx d; mags d; btc d; eth d; usdcad d; gold d].

(* --------------------------------------------------------------------- *)
(** ** Observing a run                                                    *)
(* --------------------------------------------------------------------- *)

(** How a computation started after the history [h] ends, and the events it
    adds to the history. *)
Definition outcome {A} (m : M A) (w : env) (h : trace) : result A :=
  fst (m w h).

Definition emitted {A} (m : M A) (w : env) (h : trace) : trace :=
  skipn (List.length h) (snd (m w h)).

(** An answer that is an exception of class [Exception]. *)
Definition fails (a : answer) : Prop :=
  exists e, a = Raised e /\ is_Exception e = true.

Definition returns (a : answer) : Prop := exists b, a = Returned b.

(** A lookup that finds nothing: it returns [None] or raises. *)
Definition misses (a : answer) : Prop := a <> Returned true.

(** Classes of calls. *)
Definition is_goto (o : op) : bool :=
  match o with Goto _ _ _ => true | _ => false end.

Definition is_retry_goto (o : op) : bool :=
  match o with
  | Goto _ wait_until timeout =>
      String.eqb wait_until "domcontentloaded" && (timeout =? 90000)%N
  | _ => false
  end.

(** The last-resort navigation of [capture_heatmap]: the full [load] event
    and a timeout longer than the one of the retried attempts. *)
Definition is_fallback_goto (o : op) : bool :=
  match o with
  | Goto url wait_until timeout =>
      String.eqb url FINVIZ_URL && String.eqb wait_until "load"
      && (timeout =? 120000)%N && (90000 <? timeout)%N
  | _ => false
  end.

Definition is_idle_wait (o : op) : bool :=
  match o with WaitForLoadState _ _ => true | _ => false end.

Definition is_sleep (o : op) : bool :=
  match o with Sleep _ => true | _ => false end.

Definition is_click (o : op) : bool :=
  match o with Click _ _ => true | _ => false end.

Definition is_query (o : op) : bool :=
  match o with QuerySelector _ => true | _ => false end.

Definition is_element_shot (o : op) : bool :=
  match o with ElementScreenshot _ _ => true | _ => false end.

Definition is_page_shot (o : op) : bool :=
  match o with PageScreenshot _ _ => true | _ => false end.

Definition is_copy (o : op) : bool :=
  match o with CopyFile _ _ => true | _ => false end.

Definition is_close (o : op) : bool :=
  match o with BrowserClose => true | _ => false end.

Definition is_stop (o : op) : bool :=
  match o with PlaywrightStop => true | _ => false end.

(** The calls that write the formatted message to the output file. *)
Definition is_output_op (o : op) : bool :=
  match o with
  | OpenAppend _ | FileWrite _ _ | FileClose _ => true
  | _ => false
  end.

(** The calls of the capture pipeline, all of them. *)
Definition is_capture_op (o : op) : bool :=
  match o with
  | RequestsGet _ _ | RaiseForStatus
  | OpenAppend _ | FileWrite _ _ | FileClose _ => false
  | _ => true
  end.

Definition is_call (p : op -> bool) (ev : event) : bool :=
  match ev with Call o _ => p o | Print _ => false end.

Definition is_raised_call (p : op -> bool) (ev : event) : bool :=
  match ev with Call o (Raised _) => p o | _ => false end.

(** Some call of the class is in the trace. *)
Definition calls (p : op -> bool) (t : trace) : bool := existsb (is_call p) t.

(** Some call of the class raised. *)
Definition raised_in (p : op -> bool) (t : trace) : bool :=
  existsb (is_raised_call p) t.

(** Number of calls of the class. *)
Definition count (p : op -> bool) (t : trace) : nat :=
  List.length (filter (is_call p) t).

(** Every call of the trace is of the class. *)
Definition only (p : op -> bool) (t : trace) : bool :=
  forallb (fun ev => match ev with Call o _ => p o | Print _ => true end) t.

Definition nav_calls : trace -> nat := count is_goto.

(** A screenshot call that wrote [path] returned. *)
Definition wrote (path : string) (t : trace) : bool :=
  existsb (fun ev =>
             match ev with
             | Call (ElementScreenshot _ p) (Returned _)
             | Call (PageScreenshot p _) (Returned _) => String.eqb p path
             | _ => false
             end) t.

(** Some [print] of the formatted message is in the trace. *)
Definition printed_message (t : trace) : bool :=
  existsb (fun ev => match ev with Print (LogSheetData _) => true | _ => false end) t.

Definition op_of (ev : event) : option op :=
  match ev with Call o _ => Some o | Print _ => None end.

Definition dom_goto (url : string) : op := Goto url "domcontentloaded" 90000.
Definition idle_wait : op := WaitForLoadState "networkidle" 60000.
Definition fallback_goto : op := Goto FINVIZ_URL "load" 120000.

(** The calls that open the browser session, up to the first navigation. *)
Definition is_setup (o : op) : bool :=
  match o with
  | PlaywrightStart | Launch _ _ | NewContext _ _ _ _ _ | NewPage
  | AddInitScript _ => true
  | _ => false
  end.

(** The last event of a trace. *)
Definition last_event (t : trace) : option event :=
  match rev t with
  | ev :: _ => Some ev
  | [] => None
  end.

(** The calls whose exception [capture_heatmap] does not handle before it
    gets to [browser.close]: the last-resort navigation and the full-page
    screenshot. *)
Definition is_fatal (o : op) : bool := is_fallback_goto o || is_page_shot o.

(** Calls made by each stage of the capture. *)
Definition nav_stage (o : op) : bool :=
  is_retry_goto o || is_idle_wait o || is_sleep o.

Definition dismiss_stage (o : op) : bool := is_click o || is_sleep o.

Definition lookup_stage (o : op) : bool := is_query o || is_element_shot o.

Definition shot_stage (o : op) : bool := lookup_stage o || is_page_shot o.

(** A program logic for runs: [m], started after [h] in the world [w], ends
    with a result [r] after adding the events [t] to the history, and
    [Q r t] holds. *)
Definition ends {A} (m : M A) (w : env) (h : trace)
           (Q : result A -> trace -> Prop) : Prop :=
  exists r t, m w h = (r, (h ++ t)%list) /\ Q r t.

(** Worlds in which no call raises, the copy to the fixed name apart. *)
Definition only_copy_raises (w : env) : Prop :=
  forall h o, is_copy o = false -> returns (respond w h o).

(** The sheet is fetched: the request returns with a good status. *)
Definition fetch_succeeds (w : env) : Prop :=
  forall h,
    returns (respond w h (RequestsGet export_url 30))
    /\ returns (respond w h RaiseForStatus).

(** The sheet has a header row and a data row of at least nine cells. *)
Definition sheet_well_formed (w : env) : Prop :=
  exists header row rest,
    sheet_csv w = header :: row :: rest /\ 9 <= List.length row.

Definition sleeps_return (w : env) : Prop :=
  forall h ms, returns (respond w h (Sleep ms)).

Definition session_opens (w : env) : Prop :=
  forall h o, is_setup o = true -> returns (respond w h o).

(** The selectors looked up, in the order of the lookups. *)
Definition queried (t : trace) : list string :=
  flat_map (fun ev =>
              match ev with Call (QuerySelector s) _ => [s] | _ => [] end) t.

(** The selector that comes after [sel] in a list of selectors. *)
Fixpoint next_selector (sel : string) (sels : list string) : option string :=
  match sels with
  | [] => None
  | s :: rest =>
      if String.eqb s sel then hd_error rest else next_selector sel rest
  end.

(** The call with which the selector loop goes on after the screenshot of
    the element of [sel] has raised: the lookup of the next selector, or,
    after the last selector, the full-page screenshot to [path]. *)
Definition goes_on (path sel : string) (o : op) : bool :=
  match next_selector sel MAP_SELECTORS, o with
  | Some s', QuerySelector s => String.eqb s s'
  | None, PageScreenshot p full_page => String.eqb p path && full_page
  | _, _ => false
  end.

(** Every element screenshot of the trace that raised is followed at once
    by the call that goes on from it. *)
Fixpoint resumes (path : string) (t : trace) : bool :=
  match t with
  | [] => true
  | Call (ElementScreenshot sel _) (Raised _) :: rest =>
      match rest with
      | Call o _ :: _ => goes_on path sel o
      | _ => false
      end && resumes path rest
  | _ :: rest => resumes path rest
  end.

(* --------------------------------------------------------------------- *)
(** ** Worlds used in examples                                            *)
(* --------------------------------------------------------------------- *)

Definition scenario_cells : list pystr :=
  [ lit "2024-06-01"; lit "+0.5"; lit "+1.2"; lit "-0.3"; lit "+2.0";
    lit "+3.1"; lit "-1.0"; lit "1.36"; lit "+0.8" ].

Definition header_cells : list pystr :=
  [ lit "Date"; lit "SP500"; lit "Nasdaq"; lit "TSX"; lit "Mag7";
    lit "BTC"; lit "ETH"; lit "USDCAD"; lit "Gold" ].

Definition world (rows : list (list pystr)) (f : trace -> op -> answer) : env :=
  {| DATE_NY := "2024-06-01";
     GITHUB_OUTPUT := Some "github_output.txt"%string;
     sheet_csv := rows;
     respond := f |}.

Definition good_sheet : list (list pystr) := [header_cells; scenario_cells].

(** Every call returns. *)
Definition calm_world : env := world good_sheet (fun _ _ => Returned true).

(** The site never loads: every navigation times out; no map element. *)
Definition unreachable_world : env :=
  world good_sheet
    (fun _ o =>
       match o with
       | Goto _ _ _ => Raised TimeoutError
       | QuerySelector _ => Returned false
       | _ => Returned true
       end).

(** The retried navigations time out, the last-resort one goes through. *)
Definition slow_world : env :=
  world good_sheet
    (fun _ o =>
       if is_retry_goto o then Raised TimeoutError else Returned true).

(** The page loads but the network never goes quiet. *)
Definition busy_world : env :=
  world good_sheet
    (fun _ o =>
       match o with
       | WaitForLoadState _ _ => Raised TimeoutError
       | _ => Returned true
       end).

(** The network goes quiet at the second attempt only. *)
Definition settling_world : env :=
  world good_sheet
    (fun h o =>
       match o with
       | WaitForLoadState _ _ =>
           if (count is_idle_wait h <? 1)%nat then Raised TimeoutError
           else Returned true
       | _ => Returned true
       end).

(** The first navigation fails, the second goes through. *)
Definition flaky_world : env :=
  world good_sheet
    (fun h o =>
       match o with
       | Goto _ _ _ =>
           if (nav_calls h <? 1)%nat then Raised TimeoutError else Returned true
       | _ => Returned true
       end).

(** The first navigation fails; the second goes through but the network
    is not quiet after it; the third goes through and the network is
    quiet. *)
Definition stalling_world : env :=
  world good_sheet
    (fun h o =>
       match o with
       | Goto _ _ _ =>
           if (nav_calls h <? 1)%nat then Raised TimeoutError else Returned true
       | WaitForLoadState _ _ =>
           if (count is_idle_wait h <? 1)%nat then Raised TimeoutError
           else Returned true
       | _ => Returned true
       end).

(** The map container is found but its screenshot fails; nothing else
    matches. *)
Definition broken_element_world : env :=
  world good_sheet
    (fun _ o =>
       match o with
       | QuerySelector sel => Returned (String.eqb sel "#map")
       | ElementScreenshot _ _ => Raised PlaywrightError
       | _ => Returned true
       end).

(** Only the third selector, the map image, matches. *)
Definition image_world : env :=
  world good_sheet
    (fun _ o =>
       match o with
       | QuerySelector sel => Returned (String.eqb sel (nth 2 MAP_SELECTORS ""%string))
       | _ => Returned true
       end).

(** No selector matches: the first lookup raises, the others find nothing. *)
Definition bare_world : env :=
  world good_sheet
    (fun _ o =>
       match o with
       | QuerySelector sel =>
           if String.eqb sel "#map" then Raised PlaywrightError
           else Returned false
       | _ => Returned true
       end).

(** The full-page screenshot fails on a page without map element. *)
Definition crashed_world : env :=
  world good_sheet
    (fun _ o =>
       match o with
       | QuerySelector _ => Returned false
       | PageScreenshot _ _ => Raised PlaywrightError
       | _ => Returned true
       end).

(** The copy to the fixed name fails, everything else goes through. *)
Definition readonly_latest_world : env :=
  world good_sheet
    (fun _ o =>
       match o with
       | CopyFile _ _ => Raised OSError
       | _ => Returned true
       end).

(** A sheet whose data row has four cells. *)
Definition short_row : list pystr :=
  [ lit "2024-06-01"; lit "+0.5"; lit "+1.2"; lit "-0.3" ].

Definition short_sheet_world : env :=
  world [header_cells; short_row] (fun _ _ => Returned true).

(* --------------------------------------------------------------------- *)
(** ** More observations on runs                                          *)
(* --------------------------------------------------------------------- *)

(** The pauses of a trace, in milliseconds, in the order they are made. *)
Definition sleeps_of (t : trace) : list N :=
  flat_map (fun ev => match ev with Call (Sleep ms) _ => [ms] | _ => [] end) t.

(** The pause [goto_with_retries] makes after the failed attempt [i]:
    [2 + i] seconds. *)
Definition backoff_ms (i : nat) : N := ((2 + N.of_nat i) * 1000)%N.

(** The selectors clicked, in order. *)
Definition clicked (t : trace) : list string :=
  flat_map (fun ev => match ev with Call (Click sel _) _ => [sel] | _ => [] end)
           t.

(** A screenshot call that returned. *)
Definition is_returned_shot (ev : event) : bool :=
  match ev with
  | Call (ElementScreenshot _ _) (Returned _)
  | Call (PageScreenshot _ _) (Returned _) => true
  | _ => false
  end.

(** Number of screenshot calls that returned. *)
Definition shots_written (t : trace) : nat :=
  List.length (filter is_returned_shot t).

(** A call of the capture, with the files it may touch in the world [w]:
    a screenshot writes the dated file, the copy goes from the dated file
    to the fixed name. *)
Definition capture_call (w : env) (o : op) : bool :=
  match o with
  | ElementScreenshot _ p => String.eqb p (HEATMAP_PATH w)
  | PageScreenshot p full_page => String.eqb p (HEATMAP_PATH w) && full_page
  | CopyFile src dst =>
      String.eqb src (HEATMAP_PATH w) && String.eqb dst HEATMAP_LATEST
  | other => is_capture_op other
  end.

Definition is_sheet_op (o : op) : bool :=
  match o with RequestsGet _ _ | RaiseForStatus => true | _ => false end.

(** The place of a call in the course of [main]; a pause has none. *)
Definition step_of (o : op) : option nat :=
  match o with
  | RequestsGet _ _ => Some 0
  | RaiseForStatus => Some 1
  | PlaywrightStart => Some 2
  | Launch _ _ => Some 3
  | NewContext _ _ _ _ _ => Some 4
  | NewPage => Some 5
  | AddInitScript _ => Some 6
  | Goto _ _ _ | WaitForLoadState _ _ => Some 7
  | Click _ _ => Some 8
  | QuerySelector _ | ElementScreenshot _ _ | PageScreenshot _ _ => Some 9
  | CopyFile _ _ => Some 10
  | BrowserClose => Some 11
  | PlaywrightStop => Some 12
  | OpenAppend _ => Some 13
  | FileWrite _ _ => Some 14
  | FileClose _ => Some 15
  | Sleep _ => None
  end.

(** Reads a trace from the step [m] on: the step reached at its end, or
    [None] when some call comes after a call of a later step. *)
Fixpoint in_order (m : nat) (t : trace) : option nat :=
  match t with
  | [] => Some m
  | Call o _ :: t' =>
      match step_of o with
      | Some k => if (m <=? k)%nat then in_order k t' else None
      | None => in_order m t'
      end
  | Print _ :: t' => in_order m t'
  end.

Definition ordered (t : trace) : bool :=
  match in_order 0 t with Some _ => true | None => false end.

(** What the writes that returned have put into the file [path]. *)
Definition written_to (path : string) (t : trace) : pystr :=
  flat_map (fun ev =>
              match ev with
              | Call (FileWrite p data) (Returned _) =>
                  if String.eqb p path then data else []
              | _ => []
              end) t.

(** The block [main] appends to the output file for a message. *)
Definition output_block (message_text : pystr) : pystr :=
  (lit "market_text<<EOF" ++ [LF] ++ message_text ++ [LF] ++ lit "EOF" ++ [LF])%list.

(** The calls on the output file, one class each. *)
Definition is_open (o : op) : bool :=
  match o with OpenAppend _ => true | _ => false end.

Definition is_file_write (o : op) : bool :=
  match o with FileWrite _ _ => true | _ => false end.

Definition is_file_close (o : op) : bool :=
  match o with FileClose _ => true | _ => false end.

(** Some [open] returned a file. *)
Definition opened (t : trace) : bool :=
  existsb (fun ev =>
             match ev with
             | Call (OpenAppend _) (Returned _) => true
             | _ => false
             end) t.

(** The part of the run of [main] before the sheet is read, and the record
    [read_google_sheet] builds from a row. *)
Definition banner_lines (w : env) : trace :=
  [Print LogRule; Print (LogTitle (DATE_NY w)); Print LogRule].

Definition data_row (w : env) : list pystr := nth 1 (sheet_csv w) [].

(** What a run of the attempts [i, ..., i+n-1] of [goto_with_retries] has
    done when it ends with [r]:
    - at most [n] navigations, each followed by at most one wait;
    - [True]: the last navigation and its wait returned, and a pause was
      made after each attempt before it;
    - [False]: [n] navigations, and a pause after each of them;
    - an exception: it is not an [Exception], or it is the one of a
      pause. *)
Definition retry_summary (w : env) (url : string) (n i : nat)
           (r : result bool) (t : trace) : Prop :=
  count is_retry_goto t <= n /\
  count is_idle_wait t <= count is_retry_goto t /\
  match r with
  | Normal true =>
      1 <= count is_retry_goto t /\
      sleeps_of t = map backoff_ms (seq i (count is_retry_goto t - 1)) /\
      exists t0 b1 b2,
        t = (t0 ++ [Call (dom_goto url) (Returned b1);
                    Call idle_wait (Returned b2)])%list
  | Normal false =>
      count is_retry_goto t = n /\
      sleeps_of t = map backoff_ms (seq i n)
  | Raise e =>
      is_Exception e = false \/
      exists h ms e', respond w h (Sleep ms) = Raised e'
  end.

(* --------------------------------------------------------------------- *)
(** ** More worlds                                                        *)
(* --------------------------------------------------------------------- *)

(** The sheet comes back empty, or with its header row only. *)
Definition empty_sheet_world : env :=
  world [] (fun _ _ => Returned true).

Definition header_only_world : env :=
  world [header_cells] (fun _ _ => Returned true).

(** A data row of ten cells, and a third row. *)
Definition wide_cells : list pystr := (scenario_cells ++ [lit "extra"])%list.

Definition wide_sheet_world : env :=
  world [header_cells; wide_cells; short_row] (fun _ _ => Returned true).

(** The sheet cannot be reached; the sheet answers with an error status. *)
Definition offline_world : env :=
  world good_sheet
    (fun _ o =>
       match o with
       | RequestsGet _ _ => Raised RequestException
       | _ => Returned true
       end).

Definition forbidden_world : env :=
  world good_sheet
    (fun _ o =>
       match o with
       | RaiseForStatus => Raised RequestException
       | _ => Returned true
       end).

(** No output file is configured. *)
Definition local_world : env :=
  {| DATE_NY := "2024-06-01";
     GITHUB_OUTPUT := None;
     sheet_csv := good_sheet;
     respond := fun _ _ => Returned true |}.

(** The variable of the output file is set, and empty. *)
Definition blank_output_world : env :=
  {| DATE_NY := "2024-06-01";
     GITHUB_OUTPUT := Some EmptyString;
     sheet_csv := good_sheet;
     respond := fun _ _ => Returned true |}.

(** The task is cancelled during the first navigation. *)
Definition cancelled_world : env :=
  world good_sheet
    (fun _ o =>
       match o with
       | Goto _ _ _ => Raised CancelledError
       | _ => Returned true
       end).

(* ===================================================================== *)
(** * Part 1 proofs: strings and the formatter                            *)
(* ===================================================================== *)

Section StripFacts.

Lemma lstrip_head (v : pystr) :
  lstrip v = [] \/ exists c t, lstrip v = c :: t /\ is_space c = false.
Proof.
  induction v as [|c v IH]; simpl; [now left|].
  destruct (is_space c) eqn:E; [exact IH|].
  right. exists c, v. now split.
Qed.

Lemma lstrip_clean (c : N) (t : pystr) :
  is_space c = false -> lstrip (c :: t) = c :: t.
Proof. intros E. simpl. now rewrite E. Qed.

Lemma lstrip_idem (v : pystr) : lstrip (lstrip v) = lstrip v.
Proof.
  destruct (lstrip_head v) as [E | (c & t & E & Hc)]; rewrite E; [reflexivity|].
  now apply lstrip_clean.
Qed.

Lemma lstrip_snoc (a : pystr) (c : N) :
  is_space c = false -> lstrip (a ++ [c]) = lstrip a ++ [c].
Proof.
  intros Hc. induction a as [|x a IH]; simpl.
  - now rewrite Hc.
  - destruct (is_space x); [exact IH | reflexivity].
Qed.

Lemma rstrip_cons (c : N) (t : pystr) :
  is_space c = false -> rstrip (c :: t) = c :: rstrip t.
Proof.
  intros Hc. unfold rstrip. simpl rev at 2.
  rewrite lstrip_snoc by exact Hc.
  now rewrite rev_app_distr.
Qed.

Lemma rstrip_idem (v : pystr) : rstrip (rstrip v) = rstrip v.
Proof. unfold rstrip. now rewrite rev_involutive, lstrip_idem. Qed.

Lemma rstrip_snoc (a : pystr) (c : N) :
  is_space c = false -> rstrip (a ++ [c]) = a ++ [c].
Proof.
  intros Hc. unfold rstrip. rewrite rev_app_distr. simpl rev at 2.
  simpl app. rewrite lstrip_clean by exact Hc.
  simpl. now rewrite rev_involutive.
Qed.

(** A stripped string is empty or starts with a character that is not
    white space. *)
Lemma strip_head (v : pystr) :
  strip v = [] \/ exists c t, strip v = c :: t /\ is_space c = false.
Proof.
  unfold strip.
  destruct (lstrip_head v) as [E | (c & t & E & Hc)]; rewrite E.
  - now left.
  - right. exists c, (rstrip t). split; [now apply rstrip_cons | exact Hc].
Qed.

Lemma lstrip_strip (v : pystr) : lstrip (strip v) = strip v.
Proof.
  destruct (strip_head v) as [E | (c & t & E & Hc)]; rewrite E; [reflexivity|].
  now apply lstrip_clean.
Qed.

Lemma strip_idem (v : pystr) : strip (strip v) = strip v.
Proof.
  unfold strip at 1. rewrite lstrip_strip.
  unfold strip. apply rstrip_idem.
Qed.

Lemma percent_not_space : is_space PERCENT = false.
Proof. reflexivity. Qed.

Lemma strip_snoc_percent (v : pystr) :
  strip (strip v ++ [PERCENT]) = strip v ++ [PERCENT].
Proof.
  unfold strip at 1.
  assert (H : lstrip (strip v ++ [PERCENT]) = strip v ++ [PERCENT]).
  { destruct (strip_head v) as [E | (c & t & E & Hc)]; rewrite E.
    - reflexivity.
    - now apply lstrip_clean. }
  rewrite H. apply rstrip_snoc, percent_not_space.
Qed.

Lemma pct_in_snoc (v : pystr) : pct_in (v ++ [PERCENT]) = true.
Proof.
  unfold pct_in. rewrite existsb_app. simpl.
  now rewrite orb_true_r.
Qed.

Lemma In_lstrip (x : N) (v : pystr) : In x (lstrip v) -> In x v.
Proof.
  induction v as [|c v IH]; simpl; [tauto|].
  destruct (is_space c); simpl; tauto.
Qed.

Lemma In_strip (x : N) (v : pystr) : In x (strip v) -> In x v.
Proof.
  unfold strip, rstrip. intros H.
  apply In_lstrip. apply In_rev in H. apply In_lstrip in H.
  now apply In_rev in H.
Qed.

End StripFacts.

Lemma fmt_pct_has_percent (v : pystr) : pct_in (fmt_pct v) = true.
Proof.
  unfold fmt_pct. destruct (pct_in (strip v)) eqn:E; [exact E|].
  apply pct_in_snoc.
Qed.

Lemma fmt_pct_idempotent (v : pystr) : fmt_pct (fmt_pct v) = fmt_pct v.
Proof.
  unfold fmt_pct; cbv zeta. destruct (pct_in (strip v)) eqn:E.
  - now rewrite strip_idem, E.
  - now rewrite strip_snoc_percent, pct_in_snoc.
Qed.

(** C10. [fmt_pct] introduces a percent sign and is idempotent: for every
    string [v], [fmt_pct v] contains a percent sign and
    [fmt_pct (fmt_pct v) = fmt_pct v], so formatting an already formatted
    value appends no second percent sign. *)
Theorem C10_fmt_pct_idempotent_percent :
  forall v : pystr,
    pct_in (fmt_pct v) = true /\
    fmt_pct (fmt_pct v) = fmt_pct v /\
    count_occ N.eq_dec (fmt_pct (fmt_pct v)) PERCENT
      = count_occ N.eq_dec (fmt_pct v) PERCENT.
Proof.
  intros v. split; [apply fmt_pct_has_percent|].
  split; [apply fmt_pct_idempotent|].
  now rewrite fmt_pct_idempotent.
Qed.

(* --------------------------------------------------------------------- *)
(** ** Lines of a joined text                                             *)
(* --------------------------------------------------------------------- *)

Lemma no_lf_check (v : pystr) : existsb (N.eqb LF) v = false -> no_lf v.
Proof.
  intros H Hin. assert (E : existsb (N.eqb LF) v = true).
  { apply existsb_exists. exists LF. split; [exact Hin | apply N.eqb_refl]. }
  congruence.
Qed.

Lemma no_lf_app (a b : pystr) : no_lf a -> no_lf b -> no_lf (a ++ b).
Proof. unfold no_lf. intros Ha Hb Hin. apply in_app_or in Hin. tauto. Qed.

Lemma no_lf_strip (v : pystr) : no_lf v -> no_lf (strip v).
Proof. unfold no_lf. intros H Hin. apply H. now apply In_strip. Qed.

Lemma no_lf_fmt_pct (v : pystr) : no_lf v -> no_lf (fmt_pct v).
Proof.
  intros H. unfold fmt_pct; cbv zeta. destruct (pct_in (strip v)).
  - now apply no_lf_strip.
  - apply no_lf_app; [now apply no_lf_strip | now apply no_lf_check].
Qed.

Lemma split_lf_line (l : pystr) : no_lf l -> split_lf l = [l].
Proof.
  induction l as [|c l IH]; intros H; [reflexivity|].
  simpl. destruct (N.eqb_spec c LF) as [->|Hne].
  - exfalso. apply H. now left.
  - rewrite IH; [reflexivity|]. intros Hin. apply H. now right.
Qed.

Lemma split_lf_first (l rest : pystr) :
  no_lf l -> split_lf (l ++ LF :: rest) = l :: split_lf rest.
Proof.
  induction l as [|c l IH]; intros H; simpl.
  - reflexivity.
  - destruct (N.eqb_spec c LF) as [->|Hne].
    + exfalso. apply H. now left.
    + rewrite IH; [reflexivity|]. intros Hin. apply H. now right.
Qed.

(** Splitting a text joined from lines without line feeds gives the lines
    back. *)
Lemma split_lf_join (l : pystr) (ls : list pystr) :
  Forall no_lf (l :: ls) -> split_lf (join [LF] (l :: ls)) = l :: ls.
Proof.
  revert l. induction ls as [|l' ls IH]; intros l H.
  - simpl. apply split_lf_line. now inversion H.
  - inversion H as [|? ? Hl Hrest]; subst.
    change (join [LF] (l :: l' :: ls)) with (l ++ LF :: join [LF] (l' :: ls)).
    rewrite split_lf_first by exact Hl. f_equal. now apply IH.
Qed.

Lemma endswith_pct_app (l v : pystr) :
  v <> [] -> endswith_pct (l ++ v) = endswith_pct v.
Proof.
  intros Hv. unfold endswith_pct. rewrite rev_app_distr.
  destruct (rev v) as [|c t] eqn:E; [|reflexivity].
  exfalso. apply Hv. apply (f_equal (@rev N)) in E.
  now rewrite rev_involutive in E.
Qed.

Lemma endswith_pct_snoc (v : pystr) : endswith_pct (v ++ [PERCENT]) = true.
Proof. unfold endswith_pct. rewrite rev_app_distr. reflexivity. Qed.

Lemma pct_in_nonempty (v : pystr) : pct_in v = true -> v <> [].
Proof. now destruct v. Qed.

(** A percent-style line ends in a percent sign when the stripped cell has
    no percent sign or ends in one. *)
Lemma fmt_pct_line_end (label c : pystr) :
  pct_in (strip c) = false \/ endswith_pct (strip c) = true ->
  endswith_pct (label ++ fmt_pct c) = true.
Proof.
  intros H.
  rewrite endswith_pct_app by (apply pct_in_nonempty, fmt_pct_has_percent).
  unfold fmt_pct; cbv zeta. destruct (pct_in (strip c)) eqn:E.
  - destruct H as [H|H]; [discriminate | exact H].
  - apply endswith_pct_snoc.
Qed.

Ltac line_has_no_lf :=
  repeat (apply no_lf_app);
  first [ apply no_lf_check; reflexivity
        | apply no_lf_fmt_pct; assumption
        | assumption ].

(** C7 (as amended). For the scenario row the message is the date line, the
    rule and the eight metric lines in their fixed order, the seven
    percent-style cells with a percent sign appended; the USD/CAD cell is
    passed through only when it starts with the literal the code tests it
    against, and otherwise the code's prefix literal is put in front of
    it.  So the message is the one the scenario states exactly when 1.36
    starts with the tested literal or the prefix literal is empty. *)
Theorem C7_scenario_message :
  forall usd_mark usd_prefix : pystr,
    format_slack_message usd_mark usd_prefix scenario_row =
    join [LF]
      [ lit "*Date: 2024-06-01 Market*";
        SEPARATOR;
        lit ":us: S&P 500: +0.5%";
        lit ":us: Nasdaq: +1.2%";
        lit ":flag-ca: TSX Comp: -0.3%";
        lit ":seven: Magnificent7: +2.0%";
        lit ":bitcoin: Bitcoin: +3.1%";
        lit ":ethereum: Ethereum: -1.0%";
        lit ":chart_with_upwards_trend: USD/CAD: "
          ++ (if startswith (lit "1.36") usd_mark then lit "1.36"
              else usd_prefix ++ lit "1.36");
        lit ":gold_ingot: Gold: +0.8%" ]
    /\ (format_slack_message usd_mark usd_prefix scenario_row
        = spec_scenario_message
        <-> startswith (lit "1.36") usd_mark = true \/ usd_prefix = []).
Proof.
  intros usd_mark usd_prefix. split; [reflexivity|].
  pose (before :=
          join [LF]
            [ lit "*Date: 2024-06-01 Market*"; SEPARATOR;
              lit ":us: S&P 500: +0.5%"; lit ":us: Nasdaq: +1.2%";
              lit ":flag-ca: TSX Comp: -0.3%";
              lit ":seven: Magnificent7: +2.0%";
              lit ":bitcoin: Bitcoin: +3.1%";
              lit ":ethereum: Ethereum: -1.0%";
              lit ":chart_with_upwards_trend: USD/CAD: " ]).
  pose (after := LF :: lit ":gold_ingot: Gold: +0.8%").
  assert (Hcode : format_slack_message usd_mark usd_prefix scenario_row
                  = before ++ usdcad_text usd_mark usd_prefix scenario_row
                           ++ after) by reflexivity.
  assert (Hspec : spec_scenario_message = before ++ lit "1.36" ++ after)
    by reflexivity.
  rewrite Hcode, Hspec. unfold usdcad_text.
  change (usdcad scenario_row) with (lit "1.36").
  split.
  - intros H. apply app_inv_head, app_inv_tail in H.
    destruct (startswith (lit "1.36") usd_mark); [now left|].
    right. change (lit "1.36") with ([] ++ lit "1.36") in H at 2.
    now apply app_inv_tail in H.
  - intros [H | H].
    + now rewrite H.
    + subst usd_prefix. now destruct (startswith (lit "1.36") usd_mark).
Qed.

(** C7, counterexample. With a dollar sign for the two literals of the
    USD/CAD line the cell 1.36 comes out as $1.36: the message is not the
    one of the scenario, whose USD/CAD line is the cell as it is. *)
Lemma C7_usdcad_not_passed_through :
  nth 8 (split_lf (format_slack_message (lit "$") (lit "$") scenario_row)) []
    = lit ":chart_with_upwards_trend: USD/CAD: $1.36"
  /\ format_slack_message (lit "$") (lit "$") scenario_row
       <> spec_scenario_message.
Proof. split; [reflexivity | discriminate]. Qed.

(** C8 (as amended). For a nine-cell row whose cells hold no line feed the
    message has exactly one line per metric, in the fixed order, each made
    of its fixed label and the formatted cell.  Every percent-style line
    contains a percent sign; it ends in one when the stripped cell has no
    percent sign or ends in one itself. *)
Theorem C8_metric_lines :
  forall (usd_mark usd_prefix : pystr) (d : sheet_row),
    Forall no_lf (all_cells d) ->
    no_lf usd_prefix ->
    split_lf (format_slack_message usd_mark usd_prefix d) =
      [ lit "*Date: " ++ date d ++ lit " Market*";
        SEPARATOR;
        lit ":us: S&P 500: " ++ fmt_pct (sp500 d);
        lit ":us: Nasdaq: " ++ fmt_pct (nasdaq d);
        lit ":flag-ca: TSX Comp: " ++ fmt_pct (tsx d);
        lit ":seven: Magnificent7: " ++ fmt_pct (mags d);
        lit ":bitcoin: Bitcoin: " ++ fmt_pct (btc d);
        lit ":ethereum: Ethereum: " ++ fmt_pct (eth d);
        lit ":chart_with_upwards_trend: USD/CAD: "
          ++ usdcad_text usd_mark usd_prefix d;
        lit ":gold_ingot: Gold: " ++ fmt_pct (gold d) ]
    /\ Forall (fun c =>
         pct_in (fmt_pct c) = true /\
         (pct_in (strip c) = false \/ endswith_pct (strip c) = true ->
          forall label, endswith_pct (label ++ fmt_pct c) = true))
         (pct_cells d).
Proof.
  intros usd_mark usd_prefix d Hcells Hprefix. split.
  - unfold all_cells in Hcells.
    repeat match goal with
           | H : Forall _ (_ :: _) |- _ =>
               let Hc := fresh "Hc" in
               let Hr := fresh "Hr" in
               apply Forall_cons_iff in H; destruct H as [Hc Hr]
           end.
    unfold format_slack_message; cbv zeta.
    apply split_lf_join.
    repeat apply Forall_cons; try apply Forall_nil; try line_has_no_lf.
    apply no_lf_app; [line_has_no_lf|].
    unfold usdcad_text. destruct (startswith (usdcad d) usd_mark).
    + assumption.
    + now apply no_lf_app.
  - unfold pct_cells.
    repeat apply Forall_cons; try apply Forall_nil;
      (split; [apply fmt_pct_has_percent
              | intros H label; now apply fmt_pct_line_end]).
Qed.

(** C8, witness: the scenario row. *)
Lemma C8_metric_lines_witness :
  split_lf (format_slack_message (lit "$") (lit "$") scenario_row)
  = [ lit "*Date: 2024-06-01 Market*"; SEPARATOR;
      lit ":us: S&P 500: +0.5%"; lit ":us: Nasdaq: +1.2%";
      lit ":flag-ca: TSX Comp: -0.3%"; lit ":seven: Magnificent7: +2.0%";
      lit ":bitcoin: Bitcoin: +3.1%"; lit ":ethereum: Ethereum: -1.0%";
      lit ":chart_with_upwards_trend: USD/CAD: $1.36";
      lit ":gold_ingot: Gold: +0.8%" ].
Proof.
  refine (proj1 (C8_metric_lines (lit "$") (lit "$") scenario_row _ _)).
  - unfold all_cells. repeat apply Forall_cons; try apply Forall_nil;
      apply no_lf_check; reflexivity.
  - apply no_lf_check; reflexivity.
Defined.

(** C8, counterexample. A cell with text after its percent sign is left as
    it is, so its line does not end in a percent sign. *)
Lemma C8_line_not_ending_in_percent :
  fmt_pct (sp500 annotated_row) = lit "5% up"
  /\ spec_metric_layout
       (format_slack_message (lit "$") (lit "$") annotated_row) = false
  /\ spec_metric_layout
       (format_slack_message (lit "$") (lit "$") scenario_row) = true.
Proof. repeat split; reflexivity. Qed.

(* ===================================================================== *)
(** * Part 2 proofs: the program logic of runs                            *)
(* ===================================================================== *)

Section RunRules.

Context {A : Type}.
Variables (w : env) (h : trace).

Lemma ends_ret (a : A) (Q : result A -> trace -> Prop) :
  Q (Normal a) [] -> ends (ret a) w h Q.
Proof. intros HQ. exists (Normal a), []. now rewrite app_nil_r. Qed.

Lemma ends_raise (e : exn) (Q : result A -> trace -> Prop) :
  Q (Raise e) [] -> ends (raise e) w h Q.
Proof. intros HQ. exists (Raise e), []. now rewrite app_nil_r. Qed.

Lemma ends_ask (f : env -> A) (Q : result A -> trace -> Prop) :
  Q (Normal (f w)) [] -> ends (ask f) w h Q.
Proof. intros HQ. exists (Normal (f w)), []. now rewrite app_nil_r. Qed.

Lemma ends_mono (m : M A) (Q Q' : result A -> trace -> Prop) :
  ends m w h Q -> (forall r t, Q r t -> Q' r t) -> ends m w h Q'.
Proof. intros (r & t & E & HQ) Himp. exists r, t. auto. Qed.

Lemma ends_conj (m : M A) (Q Q' : result A -> trace -> Prop) :
  ends m w h Q -> ends m w h Q' -> ends m w h (fun r t => Q r t /\ Q' r t).
Proof.
  intros (r & t & E & HQ) (r' & t' & E' & HQ').
  rewrite E in E'. injection E' as <- Et. apply app_inv_head in Et. subst t'.
  exists r, t. auto.
Qed.

(** What holds at the end of every run holds of [outcome] and [emitted]. *)
Lemma ends_observed (m : M A) (Q : result A -> trace -> Prop) :
  ends m w h Q -> Q (outcome m w h) (emitted m w h).
Proof.
  intros (r & t & E & HQ). unfold outcome, emitted. rewrite E. simpl.
  rewrite skipn_app, skipn_all, Nat.sub_diag. exact HQ.
Qed.

Lemma ends_async_def (m : M A) (Q : result A -> trace -> Prop) :
  ends m w h (fun r t =>
                Q (match r with
                   | Normal a => Normal a
                   | Raise e => Raise (pep479 e)
                   end) t) ->
  ends (async_def m) w h Q.
Proof.
  intros (r & t & E & HQ). unfold ends, async_def. rewrite E.
  destruct r; eexists _, t; split; try reflexivity; exact HQ.
Qed.

Lemma ends_try_except (m : M A) (catches : exn -> bool)
      (handler : exn -> M A) (Q : result A -> trace -> Prop) :
  ends m w h (fun r t =>
                match r with
                | Normal a => Q (Normal a) t
                | Raise e =>
                    if catches e
                    then ends (handler e) w (h ++ t)
                              (fun r' t' => Q r' (t ++ t'))
                    else Q (Raise e) t
                end) ->
  ends (try_except m catches handler) w h Q.
Proof.
  intros (r & t & E & HQ). unfold ends, try_except. rewrite E.
  destruct r as [a|e].
  - now exists (Normal a), t.
  - destruct (catches e).
    + destruct HQ as (r' & t' & E' & HQ').
      exists r', (t ++ t'). now rewrite E', app_assoc.
    + now exists (Raise e), t.
Qed.

Lemma ends_with_ (enter exit : op) (body : M A)
      (Q : result A -> trace -> Prop) :
  (forall e, respond w h enter = Raised e ->
             Q (Raise e) [Call enter (Raised e)]) ->
  (forall b, respond w h enter = Returned b ->
     ends body w (h ++ [Call enter (Returned b)])
       (fun r t =>
          forall a,
            a = respond w (h ++ Call enter (Returned b) :: t) exit ->
            Q (match a with Raised e' => Raise e' | Returned _ => r end)
              (Call enter (Returned b) :: t ++ [Call exit a]))) ->
  ends (with_ enter exit body) w h Q.
Proof.
  intros Hraise Hok. unfold ends, with_, call.
  destruct (respond w h enter) as [b|e] eqn:Eenter.
  - destruct (Hok b eq_refl) as (r & t & E & HQ). rewrite E.
    replace ((h ++ [Call enter (Returned b)]) ++ t)
      with (h ++ Call enter (Returned b) :: t)
      by (now rewrite <- app_assoc).
    specialize (HQ _ eq_refl).
    destruct (respond w (h ++ Call enter (Returned b) :: t) exit) as [b'|e'];
      eexists _, _; (split; [|exact HQ]); f_equal;
      now rewrite <- app_assoc.
  - eexists _, _. split; [reflexivity|]. now apply Hraise.
Qed.

End RunRules.

Arguments ends_observed {A w h m Q} _.

Section RunRulesUnit.

Variables (w : env) (h : trace).

Lemma ends_print (m : log) (Q : result unit -> trace -> Prop) :
  Q (Normal tt) [Print m] -> ends (print m) w h Q.
Proof. intros HQ. now exists (Normal tt), [Print m]. Qed.

Lemma ends_call (o : op) (Q : result bool -> trace -> Prop) :
  Q (match respond w h o with
     | Returned b => Normal b
     | Raised e => Raise e
     end) [Call o (respond w h o)] ->
  ends (call o) w h Q.
Proof. intros HQ. eexists _, _. split; [reflexivity | exact HQ]. Qed.

Lemma ends_bind {A B} (m : M A) (k : A -> M B)
      (Q : result B -> trace -> Prop) :
  ends m w h (fun r t =>
                match r with
                | Normal a =>
                    ends (k a) w (h ++ t) (fun r' t' => Q r' (t ++ t'))
                | Raise e => Q (Raise e) t
                end) ->
  ends (bind m k) w h Q.
Proof.
  intros (r & t & E & HQ). unfold ends, bind. rewrite E.
  destruct r as [a|e].
  - destruct HQ as (r' & t' & E' & HQ').
    exists r', (t ++ t'). now rewrite E', app_assoc.
  - now exists (Raise e), t.
Qed.

End RunRulesUnit.

(* --------------------------------------------------------------------- *)
(** ** Traces                                                             *)
(* --------------------------------------------------------------------- *)

Section TraceFacts.

Variable p : op -> bool.

Lemma calls_app (t t' : trace) : calls p (t ++ t') = calls p t || calls p t'.
Proof. apply existsb_app. Qed.

Lemma raised_in_app (t t' : trace) :
  raised_in p (t ++ t') = raised_in p t || raised_in p t'.
Proof. apply existsb_app. Qed.

Lemma only_app (t t' : trace) : only p (t ++ t') = only p t && only p t'.
Proof. apply forallb_app. Qed.

Lemma count_app (t t' : trace) : count p (t ++ t') = count p t + count p t'.
Proof. unfold count. now rewrite filter_app, length_app. Qed.

Lemma raised_in_calls (t : trace) : calls p t = false -> raised_in p t = false.
Proof.
  unfold calls, raised_in. induction t as [|ev t IH]; simpl; [reflexivity|].
  intros H. apply orb_false_iff in H as [H1 H2]. rewrite (IH H2).
  destruct ev as [o [b|e]|m]; simpl in *; now rewrite ?H1.
Qed.

(** A trace made of calls of one class holds no call of a disjoint class. *)
Lemma only_excludes (q : op -> bool) (t : trace) :
  (forall o, p o = true -> q o = false) ->
  only p t = true -> calls q t = false.
Proof.
  intros Hpq. unfold only, calls.
  induction t as [|ev t IH]; simpl; [reflexivity|].
  intros H. apply andb_true_iff in H as [H1 H2]. rewrite (IH H2).
  destruct ev as [o a|m]; simpl; [|reflexivity].
  now rewrite (Hpq o H1).
Qed.

Lemma calls_count (t : trace) : calls p t = false -> count p t = 0.
Proof.
  unfold calls, count. induction t as [|ev t IH]; simpl; [reflexivity|].
  intros H. apply orb_false_iff in H as [H1 H2]. rewrite H1. now apply IH.
Qed.

Lemma only_weaken (q : op -> bool) (t : trace) :
  (forall o, p o = true -> q o = true) ->
  only p t = true -> only q t = true.
Proof.
  intros Hpq. unfold only.
  induction t as [|ev t IH]; simpl; [reflexivity|].
  intros H. apply andb_true_iff in H as [H1 H2]. rewrite (IH H2).
  destruct ev as [o a|m]; [|reflexivity]. now rewrite (Hpq o H1).
Qed.

End TraceFacts.

Lemma wrote_app (path : string) (t t' : trace) :
  wrote path (t ++ t') = wrote path t || wrote path t'.
Proof. apply existsb_app. Qed.

Lemma printed_message_app (t t' : trace) :
  printed_message (t ++ t') = printed_message t || printed_message t'.
Proof. apply existsb_app. Qed.

Lemma last_event_snoc (t : trace) (ev : event) :
  last_event (t ++ [ev]) = Some ev.
Proof. unfold last_event. now rewrite rev_app_distr. Qed.

Lemma last_event_cons_snoc (ev0 : event) (t : trace) (ev : event) :
  last_event (ev0 :: t ++ [ev]) = Some ev.
Proof. apply (last_event_snoc (ev0 :: t)). Qed.

Lemma retry_goto_is_goto (o : op) : is_retry_goto o = true -> is_goto o = true.
Proof. now destruct o. Qed.

Lemma retry_goto_not_fallback (o : op) :
  is_retry_goto o = true -> is_fallback_goto o = false.
Proof.
  destruct o; simpl; try reflexivity. intros H.
  apply andb_true_iff in H as [H _]. apply String.eqb_eq in H. subst.
  simpl. now rewrite andb_false_r.
Qed.

(** Decides that two classes of calls are disjoint, or one inside the
    other, by cases on the call. *)
Ltac classes :=
  let o := fresh "o" in
  let H := fresh "H" in
  intros o H;
  unfold nav_stage, dismiss_stage, lookup_stage, shot_stage in *;
  destruct o;
  first [ reflexivity
        | discriminate H
        | simpl in H; rewrite ?orb_false_r in H;
          first [ exact (retry_goto_not_fallback (Goto _ _ _) H)
                | exact (retry_goto_is_goto (Goto _ _ _) H) ]
        | simpl in *; first [ reflexivity | discriminate ] ].

(** One step of a run. *)
Ltac run1 :=
  lazymatch goal with
  | |- ends (bind _ _) _ _ _ => apply ends_bind
  | |- ends (ret _) _ _ _ => apply ends_ret
  | |- ends (raise _) _ _ _ => apply ends_raise
  | |- ends (ask _) _ _ _ => apply ends_ask
  | |- ends (print _) _ _ _ => apply ends_print
  | |- ends (try_except _ _ _) _ _ _ => apply ends_try_except
  | |- ends (async_def _) _ _ _ => apply ends_async_def
  | |- ends (call ?o) ?w ?h _ =>
      apply ends_call;
      let E := fresh "E" in
      destruct (respond w h o) as [?b|?e] eqn:E
  | |- ends (if ?c then _ else _) _ _ _ =>
      let E := fresh "E" in destruct c eqn:E
  | |- if ?c then _ else _ =>
      let E := fresh "E" in destruct c eqn:E
  end;
  cbv beta iota delta [anything Exception_].

(** Normal form of the facts on a trace built by a run. *)
Ltac trace_facts :=
  cbv beta;
  rewrite ?app_nil_r;
  repeat first [ rewrite only_app | rewrite calls_app | rewrite raised_in_app
               | rewrite count_app | rewrite wrote_app
               | rewrite printed_message_app ];
  simpl;
  repeat match goal with
         | H : _ = true |- _ => rewrite H
         | H : _ = false |- _ => rewrite H
         | H : _ = 0 |- _ => rewrite H
         end;
  simpl;
  rewrite ?String.eqb_refl, ?orb_true_r, ?andb_true_r, ?orb_false_r,
          ?andb_false_r;
  simpl.

(* --------------------------------------------------------------------- *)
(** ** The stages of the capture                                          *)
(* --------------------------------------------------------------------- *)

(** [goto_with_retries] only navigates, waits and sleeps. *)
Lemma goto_attempts_stage (url : string) (attempts : nat) :
  forall n i w h,
    ends (goto_attempts url attempts i n) w h
         (fun _ t => only nav_stage t = true).
Proof.
  induction n as [|n IH]; intros i w h; cbn [goto_attempts].
  - run1. reflexivity.
  - assert (Hnext : forall h' t0,
               only nav_stage t0 = true ->
               ends (goto_attempts url attempts (S i) n) w h'
                    (fun _ t' => only nav_stage (t0 ++ t') = true)).
    { intros h' t0 H0. eapply ends_mono; [apply IH|].
      intros r t H. cbv beta in *. now rewrite only_app, H0, H. }
    repeat run1; try apply Hnext; try reflexivity.
Qed.

Lemma goto_with_retries_stage (url : string) (attempts : nat) w h :
  ends (goto_with_retries url attempts) w h
       (fun _ t => only nav_stage t = true).
Proof.
  unfold goto_with_retries. run1.
  eapply ends_mono; [apply goto_attempts_stage|]. auto.
Qed.

(** Dismissing the banners never raises; it only clicks and sleeps. *)
Lemma dismiss_banners_stage :
  forall sels w h,
    ends (dismiss_banners sels) w h
         (fun r t => r = Normal tt /\ only dismiss_stage t = true).
Proof.
  induction sels as [|sel sels IH]; intros w h; cbn [dismiss_banners].
  - run1. now split.
  - assert (Hnext : forall h' t0,
               only dismiss_stage t0 = true ->
               ends (dismiss_banners sels) w h'
                    (fun r t' => r = Normal tt
                                 /\ only dismiss_stage (t0 ++ t') = true)).
    { intros h' t0 H0. eapply ends_mono; [apply IH|].
      intros r t [-> H]. split; [reflexivity|]. now rewrite only_app, H0, H. }
    repeat run1; try apply Hnext; try (split; reflexivity); try reflexivity.
Qed.

(** The loop over the map selectors never raises; when it reports
    [saved], an element screenshot that wrote [path] has returned. *)
Lemma screenshot_element_stage (path : string) :
  forall sels w h,
    ends (screenshot_element path sels) w h
         (fun r t =>
            only lookup_stage t = true /\
            calls is_page_shot t = false /\
            exists saved, r = Normal saved /\ wrote path t = saved).
Proof.
  induction sels as [|sel sels IH]; intros w h; cbn [screenshot_element].
  - run1. repeat split. now exists false.
  - assert (Hnext : forall h' t0,
               only lookup_stage t0 = true ->
               calls is_page_shot t0 = false ->
               wrote path t0 = false ->
               ends (screenshot_element path sels) w h'
                    (fun r t' =>
                       only lookup_stage (t0 ++ t') = true /\
                       calls is_page_shot (t0 ++ t') = false /\
                       exists saved,
                         r = Normal saved /\ wrote path (t0 ++ t') = saved)).
    { intros h' t0 H0 H1 H2. eapply ends_mono; [apply IH|].
      intros r t (Ho & Hp & saved & -> & Hw).
      rewrite only_app, calls_app, wrote_app, H0, H1, H2, Ho, Hp, Hw.
      repeat split. now exists saved. }
    repeat run1; try (apply Hnext; reflexivity);
      (repeat split; exists true; split; [reflexivity|]);
      simpl; now rewrite String.eqb_refl.
Qed.

(** The screenshot stage ends normally once a screenshot call that wrote
    the dated file has returned, and raises exactly what the full-page
    screenshot raises. *)
Lemma take_screenshot_stage w h :
  ends take_screenshot w h
       (fun r t =>
          only shot_stage t = true /\
          match r with
          | Normal _ =>
              wrote (HEATMAP_PATH w) t = true /\
              raised_in is_page_shot t = false
          | Raise e =>
              exists t0,
                t = t0 ++ [Call (PageScreenshot (HEATMAP_PATH w) true) (Raised e)]
                /\ only lookup_stage t0 = true
          end).
Proof.
  unfold take_screenshot. run1. run1. run1.
  eapply ends_mono; [apply screenshot_element_stage|].
  intros r t (Ho & Hp & saved & -> & Hw).
  assert (Hs : only shot_stage t = true)
    by (revert Ho; apply only_weaken; classes; now rewrite H).
  pose proof (raised_in_calls _ _ Hp) as Hr.
  destruct saved; cbn [negb]; repeat run1.
  - split; trace_facts; [reflexivity | now split].
  - split; trace_facts; [reflexivity | now split].
  - split; trace_facts; [reflexivity|]. now exists t.
Qed.

(** Keeping the latest copy swallows every [Exception] of the copy. *)
Lemma keep_latest_stage w h :
  ends keep_latest w h
       (fun r t =>
          only is_copy t = true /\
          match r with
          | Normal _ =>
              forall e,
                In (Call (CopyFile (HEATMAP_PATH w) HEATMAP_LATEST) (Raised e)) t ->
                In (Print (LogLatestCopyFailed e)) t
          | Raise e => is_Exception e = false
          end).
Proof.
  unfold keep_latest. repeat run1; (split; [reflexivity|]); simpl.
  - intros e [H|[]]. discriminate.
  - intros e' [H|[H|[]]]; [|discriminate].
    injection H as <-. now right; left.
  - reflexivity.
Qed.

Lemma raised_in_fatal (t : trace) :
  raised_in is_fatal t
  = raised_in is_fallback_goto t || raised_in is_page_shot t.
Proof.
  unfold raised_in. induction t as [|ev t IH]; simpl; [reflexivity|].
  rewrite IH. destruct ev as [o [b|e]|m]; simpl; try reflexivity.
  unfold is_fatal.
  destruct (is_fallback_goto o), (is_page_shot o); simpl;
    rewrite ?orb_true_r; reflexivity.
Qed.

(** What a stage that stays in its class of calls cannot have done. *)
Ltac quiet H :=
  lazymatch type of H with
  | only ?cls ?t = true =>
      let H1 := fresh "Hclose" in
      let H2 := fresh "Hfall" in
      let H3 := fresh "Hstop" in
      assert (H1 : calls is_close t = false)
        by (revert H; apply only_excludes; classes);
      assert (H2 : raised_in is_fallback_goto t = false)
        by (apply raised_in_calls; revert H; apply only_excludes; classes);
      assert (H3 : calls is_stop t = false)
        by (revert H; apply only_excludes; classes);
      pose proof (raised_in_calls _ _ H1);
      pose proof (raised_in_calls _ _ H3);
      try (let H4 := fresh "Hgoto" in
           assert (H4 : calls is_goto t = false)
             by (revert H; apply only_excludes; classes))
  end.

Ltac quiet_shots H :=
  lazymatch type of H with
  | only ?cls ?t = true =>
      let H1 := fresh "Hshot" in
      assert (H1 : raised_in is_page_shot t = false)
        by (apply raised_in_calls; revert H; apply only_excludes; classes)
  end.

Ltac stage lemma := eapply ends_mono; [apply lemma|]; cbv beta.

(** Closes a goal on the classes of calls in a trace: the known facts are
    rewritten, what is left is decided by cases. *)
Ltac by_cases :=
  repeat match goal with H : _ /\ _ |- _ => destruct H end;
  rewrite ?raised_in_fatal in *;
  repeat match goal with
         | H : ?l = _ |- _ =>
             lazymatch l with
             | calls _ _ => fail
             | raised_in _ _ => fail
             | wrote _ _ => fail
             | only _ _ => fail
             | context [calls _ _] => revert H
             | context [raised_in _ _] => revert H
             end
         end;
  trace_facts;
  repeat match goal with
         | |- context [calls ?p ?t] => destruct (calls p t)
         | |- context [raised_in ?p ?t] => destruct (raised_in p t)
         | |- context [wrote ?p ?t] => destruct (wrote p t)
         end;
  simpl; intros; repeat split; congruence.

(** From the dismissal of the banners to [browser.close]. *)
Lemma after_navigation_ends w h :
  ends (dismiss_banners BANNER_SELECTORS;;
        take_screenshot;;
        keep_latest;;
        path <- ask HEATMAP_PATH;;
        print (LogSaved path);;
        call BrowserClose;;
        ret tt) w h
       (fun r t =>
          calls is_goto t = false /\
          calls is_stop t = false /\
          raised_in is_fallback_goto t = false /\
          raised_in is_page_shot t && calls is_close t = false /\
          match r with
          | Normal _ =>
              calls is_close t = true /\
              wrote (HEATMAP_PATH w) t = true /\
              raised_in is_page_shot t = false
          | Raise e =>
              negb (calls is_close t) || raised_in is_close t = true
          end).
Proof.
  run1. stage dismiss_banners_stage. intros r td [-> Hd].
  quiet Hd. quiet_shots Hd.
  run1. stage take_screenshot_stage. intros r ts [Hs Hr].
  quiet Hs.
  destruct r as [[]|e].
  - destruct Hr as [Hw Hps].
    run1. stage keep_latest_stage. intros r tc [Hc Hr].
    quiet Hc. quiet_shots Hc.
    destruct r as [[]|e]; repeat run1; by_cases.
  - destruct Hr as (tl & -> & Hl).
    quiet Hl. quiet_shots Hl. by_cases.
Qed.

(** The body of the session, from the launch to [browser.close].
    - An exception of the last-resort navigation or of the full-page
      screenshot keeps the run away from [browser.close].
    - A run that ends normally has called [browser.close] after a
      screenshot call that wrote the dated file returned, and no
      last-resort navigation or full-page screenshot has raised.
    - A run that raises has not called [browser.close], unless it is
      [browser.close] that raised. *)
Lemma capture_body_ends w h :
  ends capture_body w h
       (fun r t =>
          calls is_stop t = false /\
          raised_in is_fatal t && calls is_close t = false /\
          match r with
          | Normal _ =>
              calls is_close t = true /\
              wrote (HEATMAP_PATH w) t = true /\
              raised_in is_fatal t = false
          | Raise e =>
              negb (calls is_close t) || raised_in is_close t = true
          end).
Proof.
  unfold capture_body.
  repeat run1; try solve [by_cases].
  stage goto_with_retries_stage. intros r tn Hn.
  quiet Hn. quiet_shots Hn.
  destruct r as [ok|e]; [destruct ok; cbn [negb]|].
  - run1. run1.
    stage after_navigation_ends. intros r t (_ & H1 & H2 & H3 & H4).
    destruct r; by_cases.
  - run1. run1. run1.
    + run1. stage after_navigation_ends. intros r t (_ & H1 & H2 & H3 & H4).
      destruct r; by_cases.
    + by_cases.
  - by_cases.
Qed.

Lemma last_event_raised (p : op -> bool) (t : trace) (o : op) (e : exn) :
  last_event t = Some (Call o (Raised e)) -> p o = true ->
  raised_in p t = true.
Proof.
  unfold last_event, raised_in. intros H Hp.
  rewrite <- (rev_involutive t). destruct (rev t) as [|ev t'] eqn:E;
    [discriminate|].
  injection H as ->. simpl. rewrite existsb_app. simpl.
  now rewrite Hp, orb_true_r.
Qed.

Arguments last_event_raised p {t o e} _ _.

(** The whole capture: the session body inside the Playwright context
    manager. *)
Lemma capture_heatmap_ends w h :
  ends capture_heatmap w h
       (fun r t =>
          (returns (respond w h PlaywrightStart) ->
           exists a, last_event t = Some (Call PlaywrightStop a)) /\
          raised_in is_fatal t && calls is_close t = false /\
          match r with
          | Normal _ =>
              calls is_close t = true /\
              wrote (HEATMAP_PATH w) t = true /\
              raised_in is_fatal t = false
          | Raise e =>
              negb (calls is_close t) || raised_in is_close t
              || raised_in is_stop t = true
          end).
Proof.
  unfold capture_heatmap. run1. apply ends_with_.
  - intros e E. split; [|split; reflexivity].
    intros [b Hb]. congruence.
  - intros b E. stage capture_body_ends.
    intros r t (Hstop & Hfc & Hr) a Ha. split.
    + intros _. exists a. apply last_event_cons_snoc.
    + change (Call PlaywrightStart (Returned b) :: t ++ [Call PlaywrightStop a])
        with ([Call PlaywrightStart (Returned b)] ++ t ++ [Call PlaywrightStop a]).
      clear Ha E. destruct a as [b'|e']; destruct r as [[]|e]; by_cases.
Qed.

(** C1 (as amended). [capture_heatmap] calls [browser.close] on the exit
    paths on which nothing raised before it, not on every exit path:
    - a run that returns has called [browser.close];
    - a run that ends in an exception has not called [browser.close],
      unless the exception is the one of [browser.close] or of the exit of
      the Playwright context manager;
    - when the last-resort navigation or the full-page screenshot raises,
      [browser.close] is not called;
    - what is reached on every exit path, once Playwright has started, is
      the exit of the [async_playwright] context manager, as the last call
      of the run. *)
Theorem C1_browser_close_on_normal_exit :
  forall (w : env) (h : trace),
    let r := outcome capture_heatmap w h in
    let t := emitted capture_heatmap w h in
    (r = Normal tt -> calls is_close t = true) /\
    (forall e, r = Raise e ->
               raised_in is_close t = false -> raised_in is_stop t = false ->
               calls is_close t = false) /\
    (raised_in is_fatal t = true -> calls is_close t = false) /\
    (returns (respond w h PlaywrightStart) ->
     exists a, last_event t = Some (Call PlaywrightStop a)).
Proof.
  intros w h r t.
  pose proof (ends_observed (capture_heatmap_ends w h)) as H.
  cbv beta in H. fold r t in H. destruct H as (Hlast & Hfc & Hr).
  repeat split.
  - intros E. rewrite E in Hr. tauto.
  - intros e E Hc Hs. rewrite E, Hc, Hs in Hr.
    destruct (calls is_close t); [discriminate | reflexivity].
  - intros Hf. rewrite Hf in Hfc. exact Hfc.
  - exact Hlast.
Qed.

(** C1, counterexample. When every navigation times out, the exception of
    the last-resort navigation leaves [capture_heatmap] and
    [browser.close] has not been called. *)
Lemma C1_close_not_reached :
  outcome capture_heatmap unreachable_world [] = Raise TimeoutError
  /\ raised_in is_fallback_goto (emitted capture_heatmap unreachable_world [])
     = true
  /\ calls is_close (emitted capture_heatmap unreachable_world []) = false.
Proof. repeat split; vm_compute; reflexivity. Qed.

(* --------------------------------------------------------------------- *)
(** ** After an element screenshot that raised                            *)
(* --------------------------------------------------------------------- *)

Lemma resumes_quiet (path : string) (t : trace) :
  calls is_element_shot t = false -> resumes path t = true.
Proof.
  unfold calls. induction t as [|ev t IH]; simpl; [reflexivity|].
  intros H. apply orb_false_iff in H as [H1 H2].
  destruct ev as [o a|m]; [|now apply IH].
  destruct o; simpl in H1; try discriminate; now apply IH.
Qed.

Lemma resumes_app_l (path : string) (t t' : trace) :
  calls is_element_shot t = false ->
  resumes path (t ++ t') = resumes path t'.
Proof.
  unfold calls. induction t as [|ev t IH]; simpl; [reflexivity|].
  intros H. apply orb_false_iff in H as [H1 H2].
  destruct ev as [o a|m]; [|now apply IH].
  destruct o; simpl in H1; try discriminate; now apply IH.
Qed.

Lemma resumes_app_r (path : string) (t t' : trace) :
  resumes path t = true ->
  calls is_element_shot t' = false ->
  resumes path (t ++ t') = true.
Proof.
  intros Ht Hq. induction t as [|ev t IH]; [now apply resumes_quiet|].
  destruct ev as [o a|m]; [|exact (IH Ht)].
  destruct o; try exact (IH Ht).
  destruct a as [b|e]; [exact (IH Ht)|].
  cbn [resumes app] in *.
  apply andb_true_iff in Ht as [Hnext Hrest].
  rewrite (IH Hrest), andb_true_r.
  destruct t as [|[o a|m] t]; try discriminate. exact Hnext.
Qed.

(** The call that follows an element screenshot that raised. *)
Lemma resumes_split (path : string) (t1 t2 : trace) (sel p : string)
      (e : exn) :
  resumes path (t1 ++ Call (ElementScreenshot sel p) (Raised e) :: t2) = true ->
  exists o a t3, t2 = Call o a :: t3 /\ goes_on path sel o = true.
Proof.
  induction t1 as [|ev t1 IH]; cbn [app resumes].
  - intros H. apply andb_true_iff in H as [H _].
    destruct t2 as [|[o a|m] t3]; try discriminate. now exists o, a, t3.
  - destruct ev as [o a|m]; [|exact IH].
    destruct o; try exact IH.
    destruct a as [b|e']; [exact IH|].
    intros H. apply andb_true_iff in H as [_ H]. now apply IH.
Qed.

Lemma goes_on_next (path sel : string) (o : op) :
  goes_on path sel o = true ->
  (exists s', next_selector sel MAP_SELECTORS = Some s'
              /\ o = QuerySelector s')
  \/ (next_selector sel MAP_SELECTORS = None
      /\ o = PageScreenshot path true).
Proof.
  unfold goes_on. destruct (next_selector sel MAP_SELECTORS) as [s'|].
  - destruct o; try discriminate. intros H. apply String.eqb_eq in H.
    subst. left. now eexists.
  - destruct o; try discriminate. intros H.
    apply andb_true_iff in H as [H1 H2]. apply String.eqb_eq in H1.
    subst. right. now split.
Qed.

(** The selector loop and the full-page screenshot, on the four selectors of
    the source: whatever the lookups and the screenshots answer. *)
Lemma take_screenshot_resumes w h :
  ends take_screenshot w h (fun _ t => resumes (HEATMAP_PATH w) t = true).
Proof.
  unfold take_screenshot. run1. run1.
  generalize (HEATMAP_PATH w). intros path.
  unfold MAP_SELECTORS. cbn [screenshot_element].
  repeat run1;
    try solve [match goal with
               | H : negb _ = _ |- _ => discriminate H
               end];
    cbn [app resumes]; unfold goes_on;
    cbn [next_selector MAP_SELECTORS hd_error];
    repeat (rewrite ?String.eqb_refl; simpl); reflexivity.
Qed.

(** A stage that takes no element screenshot. *)
Ltac no_element_shot H :=
  lazymatch type of H with
  | only _ ?t = true =>
      let K := fresh "Q" in
      assert (K : calls is_element_shot t = false)
        by (revert H; apply only_excludes; classes)
  end.

Ltac resumed :=
  cbv beta; rewrite ?app_nil_r;
  repeat (rewrite resumes_app_l by (trace_facts; reflexivity));
  first [ assumption
        | apply resumes_app_r; [assumption | trace_facts; reflexivity]
        | apply resumes_quiet; trace_facts; reflexivity ].

Lemma after_navigation_resumes w h :
  ends (dismiss_banners BANNER_SELECTORS;;
        take_screenshot;;
        keep_latest;;
        path <- ask HEATMAP_PATH;;
        print (LogSaved path);;
        call BrowserClose;;
        ret tt) w h
       (fun _ t => resumes (HEATMAP_PATH w) t = true).
Proof.
  run1. stage dismiss_banners_stage. intros r td [-> Hd].
  no_element_shot Hd. clear Hd.
  run1. stage take_screenshot_resumes. intros r ts Hs.
  destruct r as [[]|e]; [|resumed].
  run1. stage keep_latest_stage. intros r tc [Hc _].
  no_element_shot Hc. clear Hc.
  destruct r as [[]|e]; repeat run1; resumed.
Qed.

Lemma capture_body_resumes w h :
  ends capture_body w h (fun _ t => resumes (HEATMAP_PATH w) t = true).
Proof.
  unfold capture_body.
  repeat run1; try solve [reflexivity].
  stage goto_with_retries_stage. intros r tn Hn.
  no_element_shot Hn. clear Hn.
  destruct r as [ok|e]; [destruct ok; cbn [negb]|].
  - run1. run1. stage after_navigation_resumes. intros r t Ht. resumed.
  - run1. run1. run1.
    + run1. stage after_navigation_resumes. intros r t Ht. resumed.
    + resumed.
  - resumed.
Qed.

Lemma capture_heatmap_resumes w h :
  ends capture_heatmap w h (fun _ t => resumes (HEATMAP_PATH w) t = true).
Proof.
  unfold capture_heatmap. run1. apply ends_with_.
  - intros e E. reflexivity.
  - intros b E. stage capture_body_resumes.
    intros r t Ht a _.
    change (Call PlaywrightStart (Returned b) :: t ++ [Call PlaywrightStop a])
      with ([Call PlaywrightStart (Returned b)] ++ t ++ [Call PlaywrightStop a]).
    destruct a; destruct r; resumed.
Qed.

(** C4 (as amended). In the screenshot stage an exception of an element
    screenshot is swallowed by the bare [except] of the selector loop, and
    the loop goes on: in every run, the call that follows an element
    screenshot that raised is the lookup of the next selector of the list,
    or, after the last selector, the full-page screenshot of the dated
    file.  The stage fails exactly when the full-page screenshot raises,
    with the exception of that call, and then [capture_heatmap] ends in an
    exception too. *)
Theorem C4_full_page_screenshot_fatal :
  forall (w : env) (h : trace),
    (forall e,
        outcome take_screenshot w h = Raise e <->
        last_event (emitted take_screenshot w h)
        = Some (Call (PageScreenshot (HEATMAP_PATH w) true) (Raised e))) /\
    (raised_in is_page_shot (emitted take_screenshot w h) = false ->
     outcome take_screenshot w h = Normal tt) /\
    (raised_in is_page_shot (emitted capture_heatmap w h) = true ->
     exists e, outcome capture_heatmap w h = Raise e) /\
    (forall t1 sel p e t2,
        emitted take_screenshot w h
        = t1 ++ Call (ElementScreenshot sel p) (Raised e) :: t2 ->
        exists o a t3,
          t2 = Call o a :: t3 /\
          ((exists s', next_selector sel MAP_SELECTORS = Some s'
                       /\ o = QuerySelector s')
           \/ (next_selector sel MAP_SELECTORS = None
               /\ o = PageScreenshot (HEATMAP_PATH w) true))) /\
    (forall t1 sel p e t2,
        emitted capture_heatmap w h
        = t1 ++ Call (ElementScreenshot sel p) (Raised e) :: t2 ->
        exists o a t3,
          t2 = Call o a :: t3 /\
          ((exists s', next_selector sel MAP_SELECTORS = Some s'
                       /\ o = QuerySelector s')
           \/ (next_selector sel MAP_SELECTORS = None
               /\ o = PageScreenshot (HEATMAP_PATH w) true))).
Proof.
  intros w h.
  pose proof (ends_observed (take_screenshot_stage w h)) as H.
  cbv beta in H. destruct H as [Ho Hr].
  pose proof (ends_observed (capture_heatmap_ends w h)) as Hc.
  cbv beta in Hc. destruct Hc as (_ & _ & Hc).
  split; [|split; [|split; [|split]]].
  - intros e. split.
    + intros E. rewrite E in Hr. destruct Hr as (t0 & -> & _).
      apply last_event_snoc.
    + intros E. destruct (outcome take_screenshot w h) as [[]|e'].
      * destruct Hr as [_ Hps].
        rewrite (last_event_raised is_page_shot E eq_refl) in Hps.
        discriminate.
      * destruct Hr as (t0 & Et & _). rewrite Et, last_event_snoc in E.
        now injection E as ->.
  - intros E. destruct (outcome take_screenshot w h) as [[]|e'];
      [reflexivity|].
    destruct Hr as (t0 & Et & _). rewrite Et, raised_in_app in E.
    simpl in E. rewrite orb_true_r in E. discriminate.
  - intros E. destruct (outcome capture_heatmap w h) as [[]|e].
    + destruct Hc as (_ & _ & Hf). rewrite raised_in_fatal, E in Hf.
      rewrite orb_true_r in Hf. discriminate.
    + now exists e.
  - intros t1 sel p e t2 Et.
    pose proof (ends_observed (take_screenshot_resumes w h)) as Hres.
    cbv beta in Hres. rewrite Et in Hres.
    destruct (resumes_split _ _ _ _ _ _ Hres) as (o & a & t3 & -> & Hgo).
    exists o, a, t3. split; [reflexivity|]. now apply goes_on_next.
  - intros t1 sel p e t2 Et.
    pose proof (ends_observed (capture_heatmap_resumes w h)) as Hres.
    cbv beta in Hres. rewrite Et in Hres.
    destruct (resumes_split _ _ _ _ _ _ Hres) as (o & a & t3 & -> & Hgo).
    exists o, a, t3. split; [reflexivity|]. now apply goes_on_next.
Qed.

(** C4, counterexample. The map container is found and its screenshot
    raises: the exception is swallowed, the full page is taken instead and
    [capture_heatmap] returns. *)
Lemma C4_element_screenshot_swallowed :
  raised_in is_element_shot (emitted capture_heatmap broken_element_world [])
  = true
  /\ outcome capture_heatmap broken_element_world [] = Normal tt.
Proof. split; vm_compute; reflexivity. Qed.

(* --------------------------------------------------------------------- *)
(** ** The selector chain                                                 *)
(* --------------------------------------------------------------------- *)

Lemma queries_only (t : trace) (sels : list string) :
  map op_of t = map (fun s => Some (QuerySelector s)) sels ->
  only is_query t = true.
Proof.
  revert sels. induction t as [|ev t IH]; intros sels H; [reflexivity|].
  destruct sels as [|s sels]; [discriminate|].
  simpl in H. injection H as Hev Ht.
  destruct ev as [o a|m]; [|discriminate].
  simpl in Hev. injection Hev as ->. simpl. now apply (IH sels).
Qed.

(** When no selector of the list matches, the loop looks every selector up
    once, in order, and reports that nothing was saved. *)
Lemma screenshot_element_no_match (path : string) (w : env) :
  forall sels h,
    (forall h' s, In s sels -> misses (respond w h' (QuerySelector s))) ->
    ends (screenshot_element path sels) w h
         (fun r t =>
            r = Normal false /\
            map op_of t = map (fun s => Some (QuerySelector s)) sels).
Proof.
  induction sels as [|s sels IH]; intros h Hmiss; cbn [screenshot_element].
  - run1. now split.
  - assert (Hs := Hmiss h s (or_introl eq_refl)).
    assert (Hrest : forall h' s', In s' sels ->
                                  misses (respond w h' (QuerySelector s')))
      by (intros h' s' Hin; apply Hmiss; now right).
    run1. run1. run1. run1.
    + destruct b; [now elim Hs|]. cbv iota. run1. cbv iota.
      stage (IH (h ++ [Call (QuerySelector s) (Returned false)] ++ []) Hrest).
      intros r t [-> Ht]. split; [reflexivity|]. simpl. now rewrite Ht.
    + run1. cbv iota.
      stage (IH (h ++ [Call (QuerySelector s) (Raised e)] ++ []) Hrest).
      intros r t [-> Ht]. split; [reflexivity|]. simpl. now rewrite Ht.
Qed.

(** When the [n]-th selector is the first that matches and the screenshot
    of its element returns, the loop looks up the selectors before it,
    takes the screenshot of that element, and stops. *)
Lemma screenshot_element_match (path : string) (w : env) (sel : string) :
  forall sels n h,
    nth_error sels n = Some sel ->
    (forall h' s, In s (firstn n sels) ->
                  misses (respond w h' (QuerySelector s))) ->
    (forall h', respond w h' (QuerySelector sel) = Returned true) ->
    (forall h', returns (respond w h' (ElementScreenshot sel path))) ->
    ends (screenshot_element path sels) w h
         (fun r t =>
            r = Normal true /\
            exists t0 b,
              t = t0 ++ [Call (QuerySelector sel) (Returned true);
                         Call (ElementScreenshot sel path) (Returned b)]
              /\ map op_of t0
                 = map (fun s => Some (QuerySelector s)) (firstn n sels)).
Proof.
  induction sels as [|s sels IH]; intros n h Hn Hmiss Hhit Hshot.
  - destruct n; discriminate.
  - destruct n as [|n]; cbn [screenshot_element].
    + injection Hn as ->.
      run1. run1. run1. apply ends_call. rewrite Hhit. cbv iota beta.
      run1. apply ends_call.
      match goal with
      | |- context [respond w ?hh (ElementScreenshot sel path)] =>
          destruct (Hshot hh) as [b ->]
      end.
      cbv iota beta. run1. cbv iota. run1.
      split; [reflexivity|]. exists [], b. now split.
    + simpl in Hn.
      assert (Hs := Hmiss h s (or_introl eq_refl)).
      assert (Hrest : forall h' s', In s' (firstn n sels) ->
                                    misses (respond w h' (QuerySelector s')))
        by (intros h' s' Hin; apply Hmiss; now right).
      run1. run1. run1. run1.
      * destruct b; [now elim Hs|]. cbv iota. run1. cbv iota.
        stage (IH n (h ++ [Call (QuerySelector s) (Returned false)] ++ [])
                  Hn Hrest Hhit Hshot).
        intros r t (-> & t0 & b & -> & Ht0). split; [reflexivity|].
        exists (Call (QuerySelector s) (Returned false) :: t0), b.
        split; [reflexivity|]. simpl. now rewrite Ht0.
      * run1. cbv iota.
        stage (IH n (h ++ [Call (QuerySelector s) (Raised e)] ++ [])
                  Hn Hrest Hhit Hshot).
        intros r t (-> & t0 & b & -> & Ht0). split; [reflexivity|].
        exists (Call (QuerySelector s) (Raised e) :: t0), b.
        split; [reflexivity|]. simpl. now rewrite Ht0.
Qed.

(** When every selector of the list finds nothing, or finds an element
    whose screenshot raises, the loop looks every selector up once, in
    order, and reports that nothing was saved. *)
Lemma screenshot_element_unusable (path : string) (w : env) :
  forall sels h,
    (forall s, In s sels ->
               (forall h', misses (respond w h' (QuerySelector s)))
               \/ (forall h', exists e,
                      respond w h' (ElementScreenshot s path) = Raised e)) ->
    ends (screenshot_element path sels) w h
         (fun r t => r = Normal false /\ queried t = sels).
Proof.
  induction sels as [|s sels IH]; intros h Hun; cbn [screenshot_element].
  - run1. now split.
  - assert (Hs := Hun s (or_introl eq_refl)).
    assert (Hrest : forall s', In s' sels ->
               (forall h', misses (respond w h' (QuerySelector s')))
               \/ (forall h', exists e,
                      respond w h' (ElementScreenshot s' path) = Raised e))
      by (intros s' Hin; apply Hun; now right).
    run1. run1. run1. run1.
    + destruct b; cbv iota.
      * destruct Hs as [Hmiss|Hshot]; [exfalso; eapply Hmiss; eassumption|].
        run1. apply ends_call.
        match goal with
        | |- context [respond w ?hh (ElementScreenshot s path)] =>
            destruct (Hshot hh) as [e ->]
        end.
        cbv iota beta. run1. cbv iota.
        eapply ends_mono; [apply (IH _ Hrest)|].
        intros r t [-> Ht]. split; [reflexivity|].
        unfold queried in *. rewrite !flat_map_app. simpl. now rewrite Ht.
      * run1. cbv iota.
        eapply ends_mono; [apply (IH _ Hrest)|].
        intros r t [-> Ht]. split; [reflexivity|].
        unfold queried in *. rewrite !flat_map_app. simpl. now rewrite Ht.
    + run1. cbv iota.
      eapply ends_mono; [apply (IH _ Hrest)|].
      intros r t [-> Ht]. split; [reflexivity|].
      unfold queried in *. rewrite !flat_map_app. simpl. now rewrite Ht.
Qed.

Lemma map_selectors_distinct : NoDup MAP_SELECTORS.
Proof.
  repeat constructor; simpl; intuition discriminate.
Qed.

Lemma nth_error_not_before {X} (l : list X) :
  NoDup l ->
  forall n x, nth_error l n = Some x -> ~ In x (firstn n l).
Proof.
  induction 1 as [|y l Hy Hl IH]; intros n x Hn.
  - destruct n; discriminate.
  - destruct n as [|n]; simpl; [tauto|].
    simpl in Hn. intros [->|Hin].
    + apply Hy. eapply nth_error_In; eauto.
    + now apply (IH n x).
Qed.

Lemma firstn_In {X} (l : list X) n x : In x (firstn n l) -> In x l.
Proof.
  intros H. rewrite <- (firstn_skipn n l). apply in_or_app. now left.
Qed.

(** C5 (as amended). With the ordered selectors [#map], [div[id*="map"]],
    [img[src*="map.ashx"]], [canvas]:
    - when the lookup matches for the [n]-th selector only and the
      screenshot of its element returns, the capture looks up the
      selectors before it, takes the screenshot of exactly that element
      and stops: there is no full-page screenshot;
    - when no selector matches, the capture looks up every selector and
      then takes a full-page screenshot;
    - the loop that looks up and selects never raises;
    - when the lookup matches for the [n]-th selector only and the
      screenshot of its element raises, the capture looks up every
      selector, in order, no element screenshot returns, and the
      full-page screenshot is taken. *)
Theorem C5_element_fallback_chain :
  forall (w : env) (h : trace),
    (forall n sel,
        nth_error MAP_SELECTORS n = Some sel ->
        (forall h' s, In s MAP_SELECTORS -> s <> sel ->
                      misses (respond w h' (QuerySelector s))) ->
        (forall h', respond w h' (QuerySelector sel) = Returned true) ->
        (forall h', returns (respond w h'
                               (ElementScreenshot sel (HEATMAP_PATH w)))) ->
        outcome take_screenshot w h = Normal tt /\
        calls is_page_shot (emitted take_screenshot w h) = false /\
        count is_element_shot (emitted take_screenshot w h) = 1 /\
        exists t0 b,
          emitted take_screenshot w h
          = t0 ++ [Call (QuerySelector sel) (Returned true);
                   Call (ElementScreenshot sel (HEATMAP_PATH w)) (Returned b)]
          /\ map op_of t0
             = map (fun s => Some (QuerySelector s)) (firstn n MAP_SELECTORS))
    /\
    ((forall h' s, In s MAP_SELECTORS ->
                   misses (respond w h' (QuerySelector s))) ->
     calls is_element_shot (emitted take_screenshot w h) = false /\
     exists t0 a,
       emitted take_screenshot w h
       = t0 ++ [Call (PageScreenshot (HEATMAP_PATH w) true) a]
       /\ map op_of t0 = map (fun s => Some (QuerySelector s)) MAP_SELECTORS)
    /\
    (forall path sels,
        exists saved,
          outcome (screenshot_element path sels) w h = Normal saved)
    /\
    (forall n sel,
        nth_error MAP_SELECTORS n = Some sel ->
        (forall h' s, In s MAP_SELECTORS -> s <> sel ->
                      misses (respond w h' (QuerySelector s))) ->
        (forall h', respond w h' (QuerySelector sel) = Returned true) ->
        (forall h', exists e,
            respond w h' (ElementScreenshot sel (HEATMAP_PATH w))
            = Raised e) ->
        queried (emitted take_screenshot w h) = MAP_SELECTORS /\
        exists t0 a,
          emitted take_screenshot w h
          = t0 ++ [Call (PageScreenshot (HEATMAP_PATH w) true) a]
          /\ only lookup_stage t0 = true
          /\ wrote (HEATMAP_PATH w) t0 = false).
Proof.
  intros w h. split; [|split; [|split]].
  - intros n sel Hn Hmiss Hhit Hshot.
    assert (Hrun : ends take_screenshot w h
              (fun r t =>
                 r = Normal tt /\
                 exists t0 b,
                   t = t0 ++ [Call (QuerySelector sel) (Returned true);
                              Call (ElementScreenshot sel (HEATMAP_PATH w))
                                   (Returned b)]
                   /\ map op_of t0
                      = map (fun s => Some (QuerySelector s))
                            (firstn n MAP_SELECTORS))).
    { unfold take_screenshot. run1. run1. run1.
      eapply ends_mono.
      - apply (screenshot_element_match (HEATMAP_PATH w) w sel
                 MAP_SELECTORS n); auto.
        intros h' s Hin. apply Hmiss; [now apply firstn_In in Hin|].
        intros ->.
        now apply (nth_error_not_before _ map_selectors_distinct n sel Hn).
      - intros r t (-> & t0 & b & -> & Ht0). cbv iota beta. cbn [negb].
        run1. split; [reflexivity|]. exists t0, b.
        now rewrite app_nil_r. }
    apply ends_observed in Hrun. cbv beta in Hrun.
    destruct Hrun as (Hr & t0 & b & Ht & Ht0).
    pose proof (queries_only _ _ Ht0) as Hq.
    split; [exact Hr|]. rewrite Ht, calls_app, count_app.
    rewrite (only_excludes is_query is_page_shot t0) by (classes || exact Hq).
    rewrite (calls_count is_element_shot t0)
      by (revert Hq; apply only_excludes; classes).
    repeat split. now exists t0, b.
  - intros Hmiss.
    assert (Hrun : ends take_screenshot w h
              (fun r t =>
                 exists t0 a,
                   t = t0 ++ [Call (PageScreenshot (HEATMAP_PATH w) true) a]
                   /\ map op_of t0
                      = map (fun s => Some (QuerySelector s)) MAP_SELECTORS)).
    { unfold take_screenshot. run1. run1. run1.
      eapply ends_mono.
      - apply (screenshot_element_no_match (HEATMAP_PATH w) w MAP_SELECTORS).
        exact Hmiss.
      - intros r t (-> & Ht0). cbv iota beta. cbn [negb].
        run1. run1; [run1|]; eexists t, _; (split; [reflexivity | exact Ht0]). }
    apply ends_observed in Hrun. cbv beta in Hrun.
    destruct Hrun as (t0 & a & Ht & Ht0).
    pose proof (queries_only _ _ Ht0) as Hq.
    split; [|now exists t0, a].
    rewrite Ht, calls_app.
    rewrite (only_excludes is_query is_element_shot t0)
      by (classes || exact Hq).
    reflexivity.
  - intros path sels.
    pose proof (ends_observed (screenshot_element_stage path sels w h)) as H.
    cbv beta in H. destruct H as (_ & _ & saved & Hs & _). now exists saved.
  - intros n sel Hn Hmiss Hhit Hshot.
    assert (Hrun : ends take_screenshot w h
              (fun r t =>
                 queried t = MAP_SELECTORS /\
                 exists t0 a,
                   t = t0 ++ [Call (PageScreenshot (HEATMAP_PATH w) true) a]
                   /\ only lookup_stage t0 = true
                   /\ wrote (HEATMAP_PATH w) t0 = false)).
    { unfold take_screenshot. run1. run1. run1.
      eapply ends_mono.
      - apply ends_conj;
          [apply (screenshot_element_unusable (HEATMAP_PATH w) w
                    MAP_SELECTORS)
          | apply screenshot_element_stage].
        intros s Hin. destruct (string_dec s sel) as [->|Hne].
        + right. exact Hshot.
        + left. intros h'. now apply Hmiss.
      - cbv beta. intros r t ((-> & Hq) & Ho & Hp & saved & Hs & Hw).
        injection Hs as <-. cbn [negb].
        run1. run1; [run1|];
          (split;
           [unfold queried in *; rewrite !flat_map_app; simpl;
            now rewrite ?app_nil_r, Hq
           |eexists t, _; rewrite ?app_nil_r; now repeat split]). }
    apply (ends_observed Hrun).
Qed.

(** C5, counterexample. Only the first selector, [#map], matches, and the
    screenshot of its element raises: the capture does not stop at that
    element; it looks up the four selectors and takes a full-page
    screenshot. *)
Lemma C5_matched_element_not_captured :
  map (fun s => respond broken_element_world [] (QuerySelector s))
      MAP_SELECTORS
  = [Returned true; Returned false; Returned false; Returned false]
  /\ queried (emitted take_screenshot broken_element_world [])
     = MAP_SELECTORS
  /\ wrote (HEATMAP_PATH broken_element_world)
           (removelast (emitted take_screenshot broken_element_world []))
     = false
  /\ last_event (emitted take_screenshot broken_element_world [])
     = Some (Call (PageScreenshot (HEATMAP_PATH broken_element_world) true)
                  (Returned true))
  /\ calls is_page_shot (emitted capture_heatmap broken_element_world [])
     = true.
Proof. repeat split; vm_compute; reflexivity. Qed.

(* --------------------------------------------------------------------- *)
(** ** The navigation retries                                             *)
(* --------------------------------------------------------------------- *)

(** A hypothesis on the answers after [h ++ t] is used after a longer
    history, or a count on a longer trace is reduced to the count on its
    end. *)
Ltac shift_history :=
  repeat lazymatch goal with
         | |- forall _, _ => intro
         end;
  rewrite <- ?app_assoc;
  unfold nav_calls in *;
  first [ reflexivity
        | match goal with
          | H : forall t, _ -> fails _ |- fails _ => apply H
          | H : forall t, _ -> returns _ |- returns _ => apply H
          | H : forall t, fails _ |- fails _ => apply H
          | H : forall t, returns _ |- returns _ => apply H
          end
        | idtac ];
  rewrite ?count_app; unfold count in *; simpl; try lia.

(** Answers a call of the run from a hypothesis on the world. *)
Ltac answer_from H :=
  apply ends_call; rewrite <- ?app_assoc;
  match goal with
  | |- context [respond ?w (?h ++ ?t) ?o] =>
      let b := fresh "b" in
      let e := fresh "e" in
      let Hb := fresh "Hb" in
      let He := fresh "He" in
      first [ assert (Hb : returns (respond w (h ++ t) o))
                by (first [ apply H | apply (H t) ]; shift_history);
              destruct Hb as [b Hb]; rewrite Hb
            | assert (Hb : fails (respond w (h ++ t) o))
                by (first [ apply H | apply (H t) ]; shift_history);
              destruct Hb as (e & Hb & He); rewrite Hb;
              cbv beta iota delta [Exception_]; rewrite He ]
  end;
  cbv beta iota.

Section Retries.

Variables (url : string) (attempts : nat) (w : env).
Hypothesis Hsleep : sleeps_return w.

(** The back-off sleep of a failed attempt returns. *)
Ltac back_off :=
  run1;
  [ lazymatch goal with
    | |- ends (if ?c then _ else _) _ _ _ => destruct c
    end; run1; cbv beta iota; run1;
    (apply ends_call;
     match goal with
     | |- context [respond w ?hh (Sleep ?ms)] =>
         let b := fresh "b" in destruct (Hsleep hh ms) as [b ->]
     end; cbv beta iota; run1; cbv beta iota) ].

(** Navigation fails [j] times and then goes through. *)
Lemma goto_attempts_succeeds :
  forall j n i h,
    j < n ->
    (forall t, nav_calls t < j -> fails (respond w (h ++ t) (dom_goto url))) ->
    (forall t, nav_calls t = j -> returns (respond w (h ++ t) (dom_goto url))) ->
    (forall t, nav_calls t = S j -> returns (respond w (h ++ t) idle_wait)) ->
    ends (goto_attempts url attempts i n) w h
         (fun r t => r = Normal true /\ nav_calls t = S j).
Proof.
  unfold dom_goto, idle_wait.
  induction j as [|j IH]; intros n i h Hlt Hfail Hok Hwait;
    (destruct n as [|n]; [lia|]); cbn [goto_attempts].
  - do 5 run1. answer_from Hok. run1. answer_from Hwait. run1. run1.
    now split.
  - do 5 run1. answer_from Hfail. back_off.
    + eapply ends_mono.
      * apply (IH n (S i)); [lia| | |]; shift_history.
      * intros r t [-> Ht]. split; [reflexivity|]. shift_history.
    + eapply ends_mono.
      * apply (IH n (S i)); [lia| | |]; shift_history.
      * intros r t [-> Ht]. split; [reflexivity|]. shift_history.
Qed.

(** Navigation fails at every attempt. *)
Lemma goto_attempts_exhausted :
  forall n i h,
    (forall t, fails (respond w (h ++ t) (dom_goto url))) ->
    ends (goto_attempts url attempts i n) w h
         (fun r t => r = Normal false /\ nav_calls t = n).
Proof.
  unfold dom_goto.
  induction n as [|n IH]; intros i h Hfail; cbn [goto_attempts].
  - run1. now split.
  - do 5 run1. answer_from Hfail. back_off.
    + eapply ends_mono.
      * apply (IH (S i)); shift_history.
      * intros r t [-> Ht]. split; [reflexivity|]. shift_history.
    + eapply ends_mono.
      * apply (IH (S i)); shift_history.
      * intros r t [-> Ht]. split; [reflexivity|]. shift_history.
Qed.

(** The page loads at every attempt and the network-quiet wait times out
    [j] times before it returns. *)
Lemma goto_attempts_idle_then_ok :
  forall j n i h,
    j < n ->
    (forall t, returns (respond w (h ++ t) (dom_goto url))) ->
    (forall t, count is_idle_wait t < j ->
               fails (respond w (h ++ t) idle_wait)) ->
    (forall t, count is_idle_wait t = j ->
               returns (respond w (h ++ t) idle_wait)) ->
    ends (goto_attempts url attempts i n) w h
         (fun r t => r = Normal true /\ nav_calls t = S j).
Proof.
  unfold dom_goto, idle_wait.
  induction j as [|j IH]; intros n i h Hlt Hgoto Hfail Hok;
    (destruct n as [|n]; [lia|]); cbn [goto_attempts].
  - do 5 run1. answer_from Hgoto. run1. answer_from Hok. run1. run1.
    now split.
  - do 5 run1. answer_from Hgoto. run1. answer_from Hfail. back_off.
    + eapply ends_mono.
      * apply (IH n (S i)); [lia| | |]; shift_history.
      * intros r t [-> Ht]. split; [reflexivity|]. shift_history.
    + eapply ends_mono.
      * apply (IH n (S i)); [lia| | |]; shift_history.
      * intros r t [-> Ht]. split; [reflexivity|]. shift_history.
Qed.

(** The page loads at every attempt and the network never goes quiet. *)
Lemma goto_attempts_never_idle :
  forall n i h,
    (forall t, returns (respond w (h ++ t) (dom_goto url))) ->
    (forall t, fails (respond w (h ++ t) idle_wait)) ->
    ends (goto_attempts url attempts i n) w h
         (fun r t => r = Normal false /\ nav_calls t = n
                     /\ count is_idle_wait t = n).
Proof.
  unfold dom_goto, idle_wait.
  induction n as [|n IH]; intros i h Hgoto Hfail; cbn [goto_attempts].
  - run1. now split.
  - do 5 run1. answer_from Hgoto. run1. answer_from Hfail. back_off.
    + eapply ends_mono.
      * apply (IH (S i)); shift_history.
      * intros r t (-> & Ht & Hi). split; [reflexivity|].
        split; shift_history.
    + eapply ends_mono.
      * apply (IH (S i)); shift_history.
      * intros r t (-> & Ht & Hi). split; [reflexivity|].
        split; shift_history.
Qed.

End Retries.

Lemma nav_stage_gotos (t : trace) :
  only nav_stage t = true ->
  count is_retry_goto t = count is_goto t /\ count is_fallback_goto t = 0.
Proof.
  intros H. split.
  - revert H. unfold only, count.
    induction t as [|ev t IH]; simpl; intros H; [reflexivity|].
    apply andb_true_iff in H as [H1 H2]. specialize (IH H2).
    destruct ev as [o a|m]; simpl; [|exact IH].
    destruct o; simpl; try exact IH.
    unfold nav_stage in H1. simpl in H1. rewrite !orb_false_r in H1.
    rewrite H1. simpl. now rewrite IH.
  - apply calls_count. revert H. apply only_excludes. classes.
Qed.

Lemma no_goto_counts (t : trace) :
  calls is_goto t = false ->
  count is_goto t = 0 /\ count is_retry_goto t = 0
  /\ count is_fallback_goto t = 0.
Proof.
  intros H. split; [now apply calls_count|].
  assert (Hsub : forall p : op -> bool,
             (forall o, p o = true -> is_goto o = true) -> count p t = 0).
  { intros p Hp. unfold calls, count in *.
    induction t as [|ev t IH]; [reflexivity|].
    simpl in H. apply orb_false_iff in H as [H1 H2]. simpl.
    destruct ev as [o a|m]; simpl in *; [|now apply IH].
    destruct (p o) eqn:Ep; [|now apply IH].
    rewrite (Hp o Ep) in H1. discriminate. }
  split; apply Hsub; intros o; destruct o; simpl; congruence.
Qed.

(** When every retried navigation fails, the capture makes its three
    attempts and then the last-resort navigation, once. *)
Lemma capture_heatmap_fallback w h :
  sleeps_return w ->
  session_opens w ->
  (forall h', fails (respond w h' (dom_goto FINVIZ_URL))) ->
  ends capture_heatmap w h
       (fun r t =>
          count is_retry_goto t = 3 /\
          count is_fallback_goto t = 1 /\
          nav_calls t = 4).
Proof.
  intros Hsleep Hopen Hfail.
  assert (Hnav : forall h0,
             ends (goto_with_retries FINVIZ_URL 3) w h0
                  (fun r t => r = Normal false /\ nav_calls t = 3
                              /\ only nav_stage t = true)).
  { intros h0. unfold goto_with_retries. run1.
    eapply ends_mono.
    - apply ends_conj.
      + apply (goto_attempts_exhausted FINVIZ_URL 3 w Hsleep 3 1 h0).
        intros t. apply Hfail.
      + apply goto_attempts_stage.
    - cbv beta. intros r t [[-> Hn] Ho]. tauto. }
  unfold capture_heatmap. run1. apply ends_with_.
  - intros e E. destruct (Hopen h PlaywrightStart eq_refl) as [b Hb].
    congruence.
  - intros b _.
    assert (Hbody : ends capture_body w (h ++ [Call PlaywrightStart (Returned b)])
              (fun r t =>
                 count is_retry_goto t = 3 /\
                 count is_fallback_goto t = 1 /\
                 count is_goto t = 4)).
    { unfold capture_body.
      do 4 (run1; apply ends_call;
            match goal with
            | |- context [respond w ?hh ?o] =>
                let b := fresh "b" in
                destruct (Hopen hh o eq_refl) as [b ->]
            end; cbv beta iota).
      run1. stage Hnav. intros r tn (-> & Hn & Ho).
      destruct (nav_stage_gotos _ Ho) as [Hr Hf].
      unfold nav_calls in Hn. rewrite Hn in Hr.
      cbn [negb]. run1. run1. run1.
      - run1. stage after_navigation_ends. intros r t (Hg & _).
        destruct (no_goto_counts _ Hg) as (Hg0 & Hr0 & Hf0).
        rewrite ?count_app, Hr, Hf, Hn, Hg0, Hr0, Hf0. now repeat split.
      - rewrite ?count_app, Hr, Hf, Hn. now repeat split. }
    stage Hbody. intros r t (Hr & Hf & Hg) a _.
    change (Call PlaywrightStart (Returned b) :: t ++ [Call PlaywrightStop a])
      with ([Call PlaywrightStart (Returned b)] ++ t ++ [Call PlaywrightStop a]).
    unfold nav_calls. rewrite ?count_app, Hr, Hf, Hg. now repeat split.
Qed.

(** C3 (as amended). For [goto_with_retries] with [N] attempts, in a world
    whose back-off sleeps return:
    - when [page.goto] fails on its first [K-1] calls, returns on call
      [K], with [K <= N], and the network-quiet wait that follows call [K]
      returns, the function returns [True] after exactly [K] navigation
      calls;
    - when the navigation fails on every call, it returns [False] after
      exactly [N] navigation calls;
    - [capture_heatmap], once its session is open, then makes exactly one
      more navigation, with [wait_until="load"] and the longer timeout. *)
Theorem C3_retry_then_fallback :
  forall (w : env) (h : trace),
    sleeps_return w ->
    (forall url N K,
        1 <= K <= N ->
        (forall t, nav_calls t < K - 1 ->
                   fails (respond w (h ++ t) (dom_goto url))) ->
        (forall t, nav_calls t = K - 1 ->
                   returns (respond w (h ++ t) (dom_goto url))) ->
        (forall t, nav_calls t = K ->
                   returns (respond w (h ++ t) idle_wait)) ->
        outcome (goto_with_retries url N) w h = Normal true /\
        nav_calls (emitted (goto_with_retries url N) w h) = K)
    /\
    (forall url N,
        (forall t, fails (respond w (h ++ t) (dom_goto url))) ->
        outcome (goto_with_retries url N) w h = Normal false /\
        nav_calls (emitted (goto_with_retries url N) w h) = N)
    /\
    (session_opens w ->
     (forall h', fails (respond w h' (dom_goto FINVIZ_URL))) ->
     count is_retry_goto (emitted capture_heatmap w h) = 3 /\
     count is_fallback_goto (emitted capture_heatmap w h) = 1 /\
     nav_calls (emitted capture_heatmap w h) = 4).
Proof.
  intros w h Hsleep. split; [|split].
  - intros url N K HK Hfail Hok Hwait.
    assert (Hrun : ends (goto_with_retries url N) w h
                        (fun r t => r = Normal true /\ nav_calls t = K)).
    { unfold goto_with_retries. run1.
      eapply ends_mono.
      - apply (goto_attempts_succeeds url N w Hsleep (K - 1) N 1 h);
          [lia | exact Hfail | exact Hok |].
        intros t Ht. apply Hwait. lia.
      - cbv beta. intros r t [-> Ht]. split; [reflexivity | lia]. }
    apply (ends_observed Hrun).
  - intros url N Hfail.
    assert (Hrun : ends (goto_with_retries url N) w h
                        (fun r t => r = Normal false /\ nav_calls t = N)).
    { unfold goto_with_retries. run1.
      eapply ends_mono.
      - apply (goto_attempts_exhausted url N w Hsleep N 1 h Hfail).
      - cbv beta. intros r t [-> Ht]. now split. }
    apply (ends_observed Hrun).
  - intros Hopen Hfail.
    apply (ends_observed (capture_heatmap_fallback w h Hsleep Hopen Hfail)).
Qed.

(** C3, counterexample. The first navigation fails and the second goes
    through, but the network is not quiet after it: the function does not
    return [True] after two navigation calls; it navigates a third time. *)
Lemma C3_loaded_page_navigated_again :
  filter (is_call is_goto)
         (emitted (goto_with_retries FINVIZ_URL 3) stalling_world [])
  = [Call (dom_goto FINVIZ_URL) (Raised TimeoutError);
     Call (dom_goto FINVIZ_URL) (Returned true);
     Call (dom_goto FINVIZ_URL) (Returned true)]
  /\ nth 5 (emitted (goto_with_retries FINVIZ_URL 3) stalling_world [])
         (Print LogDone)
     = Call idle_wait (Raised TimeoutError)
  /\ outcome (goto_with_retries FINVIZ_URL 3) stalling_world [] = Normal true
  /\ nav_calls (emitted (goto_with_retries FINVIZ_URL 3) stalling_world [])
     = 3.
Proof. repeat split; vm_compute; reflexivity. Qed.

(** C2 (as amended). In [goto_with_retries] a timeout of the network-quiet
    wait after the page has loaded is handled like a failed navigation:
    after the back-off sleep the next navigation attempt starts.  When the
    wait times out [K-1] times and then returns, with [K <= N], the
    function returns [True] after [K] navigation calls; when it times out
    at every attempt, the function returns [False] after [N] navigation
    calls and [N] waits. *)
Theorem C2_idle_timeout_retries :
  forall (w : env) (h : trace) (url : string) (N : nat),
    sleeps_return w ->
    (forall t, returns (respond w (h ++ t) (dom_goto url))) ->
    (forall K,
        1 <= K <= N ->
        (forall t, count is_idle_wait t < K - 1 ->
                   fails (respond w (h ++ t) idle_wait)) ->
        (forall t, count is_idle_wait t = K - 1 ->
                   returns (respond w (h ++ t) idle_wait)) ->
        outcome (goto_with_retries url N) w h = Normal true /\
        nav_calls (emitted (goto_with_retries url N) w h) = K)
    /\
    ((forall t, fails (respond w (h ++ t) idle_wait)) ->
     outcome (goto_with_retries url N) w h = Normal false /\
     nav_calls (emitted (goto_with_retries url N) w h) = N /\
     count is_idle_wait (emitted (goto_with_retries url N) w h) = N).
Proof.
  intros w h url N Hsleep Hgoto. split.
  - intros K HK Hfail Hok.
    assert (Hrun : ends (goto_with_retries url N) w h
                        (fun r t => r = Normal true /\ nav_calls t = K)).
    { unfold goto_with_retries. run1.
      eapply ends_mono.
      - apply (goto_attempts_idle_then_ok url N w Hsleep (K - 1) N 1 h);
          [lia | exact Hgoto | exact Hfail | exact Hok].
      - cbv beta. intros r t [-> Ht]. split; [reflexivity | lia]. }
    apply (ends_observed Hrun).
  - intros Hfail.
    assert (Hrun : ends (goto_with_retries url N) w h
                        (fun r t => r = Normal false /\ nav_calls t = N
                                    /\ count is_idle_wait t = N)).
    { unfold goto_with_retries. run1.
      eapply ends_mono.
      - apply (goto_attempts_never_idle url N w Hsleep N 1 h Hgoto Hfail).
      - cbv beta. intros r t (-> & Ht & Hi). now repeat split. }
    apply (ends_observed Hrun).
Qed.

(** C2, counterexample. The page loads at once and the network never goes
    quiet: the first wait times out, and instead of returning [True] the
    function navigates again, three times in all, and returns [False]. *)
Lemma C2_timeout_triggers_retry :
  nth 1 (emitted (goto_with_retries FINVIZ_URL 3) busy_world []) (Print LogDone)
    = Call (dom_goto FINVIZ_URL) (Returned true)
  /\ nth 2 (emitted (goto_with_retries FINVIZ_URL 3) busy_world [])
         (Print LogDone)
    = Call idle_wait (Raised TimeoutError)
  /\ nav_calls (emitted (goto_with_retries FINVIZ_URL 3) busy_world []) = 3
  /\ outcome (goto_with_retries FINVIZ_URL 3) busy_world [] = Normal false
  /\ nav_calls (emitted (goto_with_retries FINVIZ_URL 3) settling_world [])
     = 2.
Proof. repeat split; vm_compute; reflexivity. Qed.

(* --------------------------------------------------------------------- *)
(** ** The sheet reader and [main]                                        *)
(* --------------------------------------------------------------------- *)

(** C6. When the data row of the sheet has fewer than nine cells,
    [read_google_sheet] raises [ValueError] (once the sheet is fetched),
    [main] ends with that exception, and whatever the fetch does, [main]
    has then formatted nothing and captured nothing: no call of the
    capture pipeline is made, the message is neither printed nor
    written. *)
Theorem C6_short_row_aborts :
  forall (usd_mark usd_prefix : pystr) (w : env) (h : trace)
         (header row : list pystr) (rest : list (list pystr)),
    sheet_csv w = header :: row :: rest ->
    List.length row < 9 ->
    (fetch_succeeds w ->
     outcome read_google_sheet w h = Raise (ValueError (List.length row) row)
     /\ outcome (main usd_mark usd_prefix) w h
        = Raise (ValueError (List.length row) row))
    /\ (exists e, outcome (main usd_mark usd_prefix) w h = Raise e)
    /\ calls is_capture_op (emitted (main usd_mark usd_prefix) w h) = false
    /\ printed_message (emitted (main usd_mark usd_prefix) w h) = false
    /\ calls is_output_op (emitted (main usd_mark usd_prefix) w h) = false.
Proof.
  intros usd_mark usd_prefix w h header row rest Hsheet Hlen.
  apply Nat.ltb_lt in Hlen.
  assert (Hread : forall h0,
             ends read_google_sheet w h0
                  (fun r t =>
                     (fetch_succeeds w ->
                      r = Raise (ValueError (List.length row) row)) /\
                     (exists e, r = Raise e) /\
                     calls is_capture_op t = false /\
                     printed_message t = false /\
                     calls is_output_op t = false)).
  { intros h0. unfold read_google_sheet.
    run1. run1.
    - run1. run1.
      + run1. run1. rewrite Hsheet. cbn [next_row snd fst].
        run1. run1. cbn [snd next_row]. run1. run1. cbv zeta. cbn [fst].
        rewrite Hlen. run1.
        repeat split; eauto.
      + repeat split; eauto. intros Hf.
        destruct (proj2 (Hf (h0 ++ [Call (RequestsGet export_url 30) (Returned b)])))
          as [b' Hb']. congruence.
    - repeat split; eauto. intros Hf.
      destruct (proj1 (Hf h0)) as [b' Hb']. congruence. }
  assert (Hmain : ends (main usd_mark usd_prefix) w h
                    (fun r t =>
                       (fetch_succeeds w ->
                        r = Raise (ValueError (List.length row) row)) /\
                       (exists e, r = Raise e) /\
                       calls is_capture_op t = false /\
                       printed_message t = false /\
                       calls is_output_op t = false)).
  { unfold main. do 10 run1. stage Hread.
    intros r t (Hv & [e ->] & Hc & Hp & Ho).
    rewrite ?calls_app, ?printed_message_app, Hc, Hp, Ho.
    repeat split; eauto.
    intros Hf. specialize (Hv Hf). injection Hv as ->. reflexivity. }
  pose proof (ends_observed Hmain) as (Hv & He & Hc & Hp & Ho).
  pose proof (ends_observed (Hread h)) as (Hv' & _).
  repeat split; auto.
Qed.

(** Answers a call of the run in a world where only the copy raises. *)
Ltac answer_calm Hq :=
  apply ends_call;
  match goal with
  | |- context [respond ?w ?hh ?o] =>
      let b := fresh "b" in
      destruct (Hq hh o eq_refl) as [b ->]
  end;
  cbv beta iota.

Section ReadOnlyLatest.

Variable w : env.
Hypothesis Hq : only_copy_raises w.
Hypothesis Hcopy : forall h src dst, fails (respond w h (CopyFile src dst)).

Lemma calm_sleeps : sleeps_return w.
Proof. intros h ms. now apply Hq. Qed.

Lemma calm_goto_with_retries h :
  ends (goto_with_retries FINVIZ_URL 3) w h (fun r _ => r = Normal true).
Proof.
  unfold goto_with_retries. run1.
  eapply ends_mono.
  - apply (goto_attempts_succeeds FINVIZ_URL 3 w calm_sleeps 0 3 1 h).
    + lia.
    + intros t Ht. lia.
    + intros t _. now apply Hq.
    + intros t _. now apply Hq.
  - cbv beta. now intros r t [-> _].
Qed.

Lemma calm_take_screenshot h :
  ends take_screenshot w h (fun r _ => r = Normal tt).
Proof.
  unfold take_screenshot. run1. run1. run1.
  stage screenshot_element_stage. intros r t (_ & _ & saved & -> & _).
  destruct saved; cbn [negb].
  - run1. reflexivity.
  - run1. answer_calm Hq. run1. reflexivity.
Qed.

Lemma readonly_keep_latest h :
  ends keep_latest w h
       (fun r t => r = Normal tt
                   /\ exists e, In (Print (LogLatestCopyFailed e)) t).
Proof.
  unfold keep_latest. run1. run1. run1. run1. apply ends_call.
  match goal with
  | |- context [respond w ?hh (CopyFile ?a ?b)] =>
      destruct (Hcopy hh a b) as (e & -> & He)
  end.
  cbv beta iota delta [Exception_]. rewrite He. run1.
  split; [reflexivity|]. exists e. simpl. tauto.
Qed.

(** With a copy that fails, the capture still returns, having logged the
    failure. *)
Lemma readonly_capture_heatmap h :
  ends capture_heatmap w h
       (fun r t => r = Normal tt
                   /\ exists e, In (Print (LogLatestCopyFailed e)) t).
Proof.
  unfold capture_heatmap. run1. apply ends_with_.
  - intros e E. destruct (Hq h PlaywrightStart eq_refl) as [b Hb]. congruence.
  - intros b _. unfold capture_body.
    do 4 (run1; answer_calm Hq).
    run1. stage calm_goto_with_retries. intros r t ->. cbn [negb].
    run1. run1. run1. stage dismiss_banners_stage. intros r td [-> _].
    run1. stage calm_take_screenshot. intros r ts ->.
    run1. stage readonly_keep_latest. intros r tc (-> & e & He).
    run1. run1. run1. run1. run1. answer_calm Hq. run1.
    intros a Ha.
    match type of Ha with
    | a = respond w ?hh ?o => destruct (Hq hh o eq_refl) as [b' Hb']
    end.
    rewrite Hb' in Ha. subst a. split; [reflexivity|].
    exists e. right. rewrite !in_app_iff. tauto.
Qed.

(** And so does [main], on a well-formed sheet. *)
Lemma readonly_main (usd_mark usd_prefix : pystr) h :
  sheet_well_formed w ->
  ends (main usd_mark usd_prefix) w h (fun r _ => r = Normal tt).
Proof.
  intros (header & row & rest & Hsheet & Hlen).
  apply Nat.ltb_ge in Hlen.
  unfold main. do 10 run1.
  unfold read_google_sheet.
  run1. answer_calm Hq. run1. answer_calm Hq. run1. run1.
  rewrite Hsheet. cbn [snd next_row]. run1. run1. cbn [snd next_row].
  run1. run1. cbv zeta. cbn [fst]. rewrite Hlen. run1.
  run1. run1. run1. stage readonly_capture_heatmap. intros r t [-> _].
  run1. run1.
  destruct (truthy_path (GITHUB_OUTPUT w)) as [gh_output|]; repeat run1;
    try reflexivity.
  unfold write_output. apply ends_with_.
  - intros e E.
    match type of E with
    | respond w ?hh ?o = _ => destruct (Hq hh o eq_refl) as [b' Hb']
    end. congruence.
  - intros ? _. do 3 (run1; answer_calm Hq). run1.
    intros a Ha.
    match type of Ha with
    | a = respond w ?hh ?o => destruct (Hq hh o eq_refl) as [b' Hb']
    end.
    rewrite Hb' in Ha. subst a. repeat run1. reflexivity.
Qed.

End ReadOnlyLatest.

(** Where a copy that raised an [Exception] is found in a run. *)
Lemma only_In (p : op -> bool) (t : trace) (o : op) (a : answer) :
  only p t = true -> In (Call o a) t -> p o = true.
Proof.
  unfold only. rewrite forallb_forall. intros H Hin. exact (H _ Hin).
Qed.

Ltac not_here :=
  match goal with
  | Hin : In (Call (CopyFile _ _) _) ?t, H : only _ ?t = true |- _ =>
      let K := fresh "K" in
      pose proof (only_In _ _ _ _ H Hin) as K;
      unfold nav_stage, dismiss_stage, shot_stage, lookup_stage in K;
      discriminate K
  end.

Ltac find_copy Hin :=
  rewrite ?app_nil_r in Hin;
  repeat rewrite in_app_iff in Hin; cbn [In] in Hin;
  repeat match type of Hin with
         | _ \/ _ => destruct Hin as [Hin|Hin]
         end;
  try discriminate Hin; try contradiction; try not_here.

Lemma keep_latest_copy w h :
  ends keep_latest w h
       (fun r t =>
          only is_copy t = true /\
          forall e,
            is_Exception e = true ->
            In (Call (CopyFile (HEATMAP_PATH w) HEATMAP_LATEST) (Raised e)) t ->
            r = Normal tt /\ In (Print (LogLatestCopyFailed e)) t).
Proof.
  unfold keep_latest. repeat run1; (split; [reflexivity|]);
    intros e' He' Hin; find_copy Hin.
  - injection Hin as <-. split; [reflexivity|]. simpl. tauto.
  - injection Hin as <-. unfold Exception_ in *. congruence.
Qed.

Lemma after_navigation_copy w h :
  ends (dismiss_banners BANNER_SELECTORS;;
        take_screenshot;;
        keep_latest;;
        path <- ask HEATMAP_PATH;;
        print (LogSaved path);;
        call BrowserClose;;
        ret tt) w h
       (fun r t =>
          forall e,
            is_Exception e = true ->
            In (Call (CopyFile (HEATMAP_PATH w) HEATMAP_LATEST) (Raised e)) t ->
            wrote (HEATMAP_PATH w) t = true /\
            In (Print (LogLatestCopyFailed e)) t /\
            calls is_close t = true).
Proof.
  run1. stage dismiss_banners_stage. intros r td [-> Hd].
  run1. stage take_screenshot_stage. intros r ts [Hs Hr].
  destruct r as [[]|e0].
  - destruct Hr as [Hw _].
    run1. stage keep_latest_copy. intros r tc [Hc Hcopy].
    destruct r as [[]|e0]; repeat run1;
      intros exc Hexc Hin; find_copy Hin;
      destruct (Hcopy exc Hexc Hin) as [Hn Hp]; try discriminate Hn;
      (split; [trace_facts; reflexivity|]);
      (split; [rewrite ?in_app_iff; tauto | trace_facts; reflexivity]).
  - intros exc Hexc Hin. find_copy Hin.
Qed.

Lemma capture_body_copy w h :
  ends capture_body w h
       (fun r t =>
          forall e,
            is_Exception e = true ->
            In (Call (CopyFile (HEATMAP_PATH w) HEATMAP_LATEST) (Raised e)) t ->
            wrote (HEATMAP_PATH w) t = true /\
            In (Print (LogLatestCopyFailed e)) t /\
            calls is_close t = true).
Proof.
  unfold capture_body.
  repeat run1; try solve [intros exc Hexc Hin; find_copy Hin].
  stage goto_with_retries_stage. intros r tn Hn.
  destruct r as [ok|e0]; [destruct ok; cbn [negb]|].
  - run1. run1. stage after_navigation_copy. intros r t Ht exc Hexc Hin.
    find_copy Hin. destruct (Ht exc Hexc Hin) as (Hw & Hp & Hcl).
    split; [trace_facts; reflexivity|].
    split; [rewrite ?in_app_iff; tauto | trace_facts; reflexivity].
  - run1. run1. run1.
    + run1. stage after_navigation_copy. intros r t Ht exc Hexc Hin.
      find_copy Hin. destruct (Ht exc Hexc Hin) as (Hw & Hp & Hcl).
      split; [trace_facts; reflexivity|].
      split; [rewrite ?in_app_iff; tauto | trace_facts; reflexivity].
    + intros exc Hexc Hin. find_copy Hin.
  - intros exc Hexc Hin. find_copy Hin.
Qed.

Lemma capture_heatmap_copy w h :
  ends capture_heatmap w h
       (fun r t =>
          forall e,
            is_Exception e = true ->
            In (Call (CopyFile (HEATMAP_PATH w) HEATMAP_LATEST) (Raised e)) t ->
            wrote (HEATMAP_PATH w) t = true /\
            In (Print (LogLatestCopyFailed e)) t /\
            calls is_close t = true).
Proof.
  unfold capture_heatmap. run1. apply ends_with_.
  - intros e0 E exc Hexc Hin. find_copy Hin.
  - intros b E. stage capture_body_copy.
    intros r t Ht a _.
    change (Call PlaywrightStart (Returned b) :: t ++ [Call PlaywrightStop a])
      with ([Call PlaywrightStart (Returned b)] ++ t ++ [Call PlaywrightStop a]).
    destruct a; destruct r; intros exc Hexc Hin; find_copy Hin;
      destruct (Ht exc Hexc Hin) as (Hw & Hp & Hcl);
      (split; [trace_facts; reflexivity|]);
      (split; [rewrite ?in_app_iff; tauto | trace_facts; reflexivity]).
Qed.

(** C9 (as amended). The copy to the fixed "latest" name is best effort:
    no [Exception] of the copy leaves [keep_latest].  In every run in
    which the copy raised an [Exception], the dated file had been written,
    the failure is logged, [browser.close] is still called, and
    [capture_heatmap] returns unless [browser.close] or the exit of
    Playwright raises; when nothing but the copy fails, [capture_heatmap]
    returns and so does [main], on a well-formed sheet.
    Of the calls that write the dated file only the full-page screenshot
    is fatal: whenever it raises, [capture_heatmap] ends in an exception,
    and the screenshot stage raises with no other exception than the one
    of that call; and [capture_heatmap] never returns without a screenshot
    call that wrote the dated file having returned. *)
Theorem C9_latest_copy_failure_swallowed :
  forall (usd_mark usd_prefix : pystr) (w : env) (h : trace),
    (forall e, outcome keep_latest w h = Raise e -> is_Exception e = false)
    /\
    (only_copy_raises w ->
     (forall h' src dst, fails (respond w h' (CopyFile src dst))) ->
     sheet_well_formed w ->
     outcome capture_heatmap w h = Normal tt /\
     (exists e,
         In (Print (LogLatestCopyFailed e)) (emitted capture_heatmap w h)) /\
     outcome (main usd_mark usd_prefix) w h = Normal tt)
    /\
    (wrote (HEATMAP_PATH w) (emitted capture_heatmap w h) = false ->
     exists e, outcome capture_heatmap w h = Raise e)
    /\
    (raised_in is_page_shot (emitted capture_heatmap w h) = true ->
     exists e, outcome capture_heatmap w h = Raise e)
    /\
    (forall e,
        is_Exception e = true ->
        In (Call (CopyFile (HEATMAP_PATH w) HEATMAP_LATEST) (Raised e))
           (emitted capture_heatmap w h) ->
        wrote (HEATMAP_PATH w) (emitted capture_heatmap w h) = true /\
        In (Print (LogLatestCopyFailed e)) (emitted capture_heatmap w h) /\
        calls is_close (emitted capture_heatmap w h) = true /\
        (raised_in is_close (emitted capture_heatmap w h) = false ->
         raised_in is_stop (emitted capture_heatmap w h) = false ->
         outcome capture_heatmap w h = Normal tt))
    /\
    (forall e,
        outcome take_screenshot w h = Raise e ->
        last_event (emitted take_screenshot w h)
        = Some (Call (PageScreenshot (HEATMAP_PATH w) true) (Raised e))).
Proof.
  intros usd_mark usd_prefix w h. split; [|split; [|split; [|split; [|split]]]].
  - intros e E.
    pose proof (ends_observed (keep_latest_stage w h)) as [_ Hr].
    now rewrite E in Hr.
  - intros Hq Hcopy Hsheet.
    pose proof (ends_observed (readonly_capture_heatmap w Hq Hcopy h))
      as [Hr He].
    pose proof (ends_observed
                  (readonly_main w Hq Hcopy usd_mark usd_prefix h Hsheet))
      as Hm.
    now repeat split.
  - intros Hw.
    pose proof (ends_observed (capture_heatmap_ends w h)) as (_ & _ & Hr).
    destruct (outcome capture_heatmap w h) as [[]|e]; [|now exists e].
    destruct Hr as (_ & Hw' & _). congruence.
  - intros Hs.
    pose proof (ends_observed (capture_heatmap_ends w h)) as (_ & _ & Hr).
    destruct (outcome capture_heatmap w h) as [[]|e]; [|now exists e].
    destruct Hr as (_ & _ & Hf). rewrite raised_in_fatal, Hs in Hf.
    rewrite orb_true_r in Hf. discriminate.
  - intros e He Hin.
    destruct (ends_observed (capture_heatmap_copy w h) e He Hin)
      as (Hw & Hp & Hcl).
    repeat split; try assumption.
    intros Hrc Hrs.
    pose proof (ends_observed (capture_heatmap_ends w h)) as (_ & _ & Hr).
    destruct (outcome capture_heatmap w h) as [[]|e']; [reflexivity|].
    rewrite Hcl, Hrc, Hrs in Hr. discriminate.
  - intros e E.
    pose proof (ends_observed (take_screenshot_stage w h)) as [_ Hr].
    cbv beta in Hr. rewrite E in Hr. destruct Hr as (t0 & -> & _).
    apply last_event_snoc.
Qed.

(** C9, counterexample. The map container is found and the call that
    writes the dated file from it raises: this failure is not fatal.  The
    capture takes the full page instead, and [capture_heatmap] and [main]
    both return. *)
Lemma C9_dated_write_failure_swallowed :
  filter (is_raised_call is_element_shot)
         (emitted capture_heatmap broken_element_world [])
  = [Call (ElementScreenshot "#map" (HEATMAP_PATH broken_element_world))
          (Raised PlaywrightError)]
  /\ outcome capture_heatmap broken_element_world [] = Normal tt
  /\ outcome (main (lit "$") (lit "$")) broken_element_world [] = Normal tt.
Proof. repeat split; vm_compute; reflexivity. Qed.

(* ===================================================================== *)
(** * The theorems at concrete worlds                                     *)
(* ===================================================================== *)

Lemma world_returns (rows : list (list pystr)) (f : trace -> op -> answer)
      (h : trace) (o : op) (b : bool) :
  f h o = Returned b -> returns (respond (world rows f) h o).
Proof. intros H. exists b. exact H. Qed.

Lemma world_fails (rows : list (list pystr)) (f : trace -> op -> answer)
      (h : trace) (o : op) (e : exn) :
  f h o = Raised e -> is_Exception e = true ->
  fails (respond (world rows f) h o).
Proof. intros H He. exists e. now split. Qed.

(** C2, witness: the network goes quiet at the second attempt
    ([settling_world]), or never ([busy_world]). *)
Lemma C2_idle_timeout_retries_witness :
  (outcome (goto_with_retries FINVIZ_URL 3) settling_world [] = Normal true
   /\ nav_calls (emitted (goto_with_retries FINVIZ_URL 3) settling_world [])
      = 2)
  /\ (outcome (goto_with_retries FINVIZ_URL 3) busy_world [] = Normal false
      /\ nav_calls (emitted (goto_with_retries FINVIZ_URL 3) busy_world [])
         = 3
      /\ count is_idle_wait
           (emitted (goto_with_retries FINVIZ_URL 3) busy_world []) = 3).
Proof.
  split.
  - refine (proj1 (C2_idle_timeout_retries settling_world [] FINVIZ_URL 3 _ _)
                  2 _ _ _).
    + intros h ms. now apply world_returns with (b := true).
    + intros t. now apply world_returns with (b := true).
    + lia.
    + intros t Ht. apply world_fails with (e := TimeoutError);
        [|reflexivity].
      simpl in *. apply Nat.ltb_lt in Ht. now rewrite Ht.
    + intros t Ht. apply world_returns with (b := true).
      simpl in *. now rewrite Ht.
  - refine (proj2 (C2_idle_timeout_retries busy_world [] FINVIZ_URL 3 _ _) _).
    + intros h ms. now apply world_returns with (b := true).
    + intros t. now apply world_returns with (b := true).
    + intros t. now apply world_fails with (e := TimeoutError).
Defined.

(** C3, witness: the first navigation fails and the second goes through
    ([flaky_world]); every navigation fails ([unreachable_world]). *)
Lemma C3_retry_then_fallback_witness :
  (outcome (goto_with_retries FINVIZ_URL 3) flaky_world [] = Normal true
   /\ nav_calls (emitted (goto_with_retries FINVIZ_URL 3) flaky_world []) = 2)
  /\ (outcome (goto_with_retries FINVIZ_URL 3) unreachable_world []
      = Normal false
      /\ nav_calls (emitted (goto_with_retries FINVIZ_URL 3)
                            unreachable_world []) = 3)
  /\ (count is_retry_goto (emitted capture_heatmap unreachable_world []) = 3
      /\ count is_fallback_goto (emitted capture_heatmap unreachable_world [])
         = 1
      /\ nav_calls (emitted capture_heatmap unreachable_world []) = 4).
Proof.
  assert (Hflaky : sleeps_return flaky_world)
    by (intros h ms; now apply world_returns with (b := true)).
  assert (Hdown : sleeps_return unreachable_world)
    by (intros h ms; now apply world_returns with (b := true)).
  split; [|split].
  - refine (proj1 (C3_retry_then_fallback flaky_world [] Hflaky)
                  FINVIZ_URL 3 2 _ _ _ _).
    + lia.
    + intros t Ht. apply world_fails with (e := TimeoutError);
        [|reflexivity].
      simpl in *. apply Nat.ltb_lt in Ht. now rewrite Ht.
    + intros t Ht. apply world_returns with (b := true).
      simpl in *. now rewrite Ht.
    + intros t Ht. now apply world_returns with (b := true).
  - refine (proj1 (proj2 (C3_retry_then_fallback unreachable_world [] Hdown))
                  FINVIZ_URL 3 _).
    intros t. now apply world_fails with (e := TimeoutError).
  - refine (proj2 (proj2 (C3_retry_then_fallback unreachable_world [] Hdown))
                  _ _).
    + intros h o Ho. apply world_returns with (b := true).
      now destruct o.
    + intros h. now apply world_fails with (e := TimeoutError).
Defined.

(** C5, witness: only the map image matches ([image_world]); nothing
    matches ([bare_world]). *)
Lemma C5_element_fallback_chain_witness :
  (outcome take_screenshot image_world [] = Normal tt
   /\ calls is_page_shot (emitted take_screenshot image_world []) = false
   /\ count is_element_shot (emitted take_screenshot image_world []) = 1)
  /\ calls is_element_shot (emitted take_screenshot bare_world []) = false
  /\ calls is_page_shot (emitted take_screenshot bare_world []) = true
  /\ queried (emitted take_screenshot broken_element_world [])
     = MAP_SELECTORS.
Proof.
  split; [|split; [|split]].
  - pose proof (proj1 (C5_element_fallback_chain image_world [])
                      2 (nth 2 MAP_SELECTORS ""%string) eq_refl) as H.
    assert (H' := fun H1 H2 H3 =>
                    match H H1 H2 H3 with
                    | conj Ha (conj Hb (conj Hc _)) =>
                        conj Ha (conj Hb Hc)
                    end).
    apply H'.
    + intros h s Hin Hne. simpl. intros E. injection E as E.
      apply String.eqb_eq in E. contradiction.
    + intros h. reflexivity.
    + intros h. now apply world_returns with (b := true).
  - refine (proj1 (proj1 (proj2 (C5_element_fallback_chain bare_world [])) _)).
    intros h s Hin. simpl. now destruct (String.eqb s "#map").
  - vm_compute. reflexivity.
  - refine (proj1 (proj2 (proj2 (proj2 (C5_element_fallback_chain
                                          broken_element_world [])))
                    0 "#map"%string eq_refl _ _ _)).
    + intros h s Hin Hne. simpl. intros E. injection E as E.
      apply String.eqb_eq in E. contradiction.
    + intros h. reflexivity.
    + intros h. now exists PlaywrightError.
Defined.

(** C6, witness: a data row of four cells ([short_sheet_world]). *)
Lemma C6_short_row_aborts_witness :
  outcome (main (lit "$") (lit "$")) short_sheet_world []
  = Raise (ValueError 4 short_row)
  /\ calls is_capture_op
       (emitted (main (lit "$") (lit "$")) short_sheet_world []) = false
  /\ printed_message
       (emitted (main (lit "$") (lit "$")) short_sheet_world []) = false.
Proof.
  pose proof (C6_short_row_aborts (lit "$") (lit "$") short_sheet_world []
                header_cells short_row [] eq_refl) as H.
  assert (Hlen : List.length short_row < 9) by (simpl; lia).
  destruct (H Hlen) as (Hv & _ & Hc & Hp & _).
  split; [|now split].
  apply Hv. intros h.
  split; now apply world_returns with (b := true).
Defined.

(** C9, witness: the copy to the fixed name raises [OSError]
    ([readonly_latest_world]). *)
Lemma C9_latest_copy_failure_swallowed_witness :
  outcome capture_heatmap readonly_latest_world [] = Normal tt
  /\ outcome (main (lit "$") (lit "$")) readonly_latest_world [] = Normal tt.
Proof.
  pose proof (proj1 (proj2 (C9_latest_copy_failure_swallowed
                              (lit "$") (lit "$") readonly_latest_world [])))
    as H.
  assert (Hq : only_copy_raises readonly_latest_world).
  { intros h o Ho. apply world_returns with (b := true). now destruct o. }
  assert (Hcopy : forall h src dst,
             fails (respond readonly_latest_world h (CopyFile src dst))).
  { intros h src dst. now apply world_fails with (e := OSError). }
  assert (Hsheet : sheet_well_formed readonly_latest_world).
  { exists header_cells, scenario_cells, []. split; [reflexivity|].
    simpl. lia. }
  destruct (H Hq Hcopy Hsheet) as (Hc & _ & Hm). now split.
Defined.

(* --------------------------------------------------------------------- *)
(** ** Runs of the example worlds                                         *)
(* --------------------------------------------------------------------- *)

Example fmt_pct_plain : fmt_pct (lit " +0.5 ") = lit "+0.5%".
Proof. reflexivity. Qed.

Example fmt_pct_already : fmt_pct (lit "5% up") = lit "5% up".
Proof. reflexivity. Qed.

Example calm_run_closes_browser :
  outcome capture_heatmap calm_world [] = Normal tt
  /\ last_event (emitted capture_heatmap calm_world [])
     = Some (Call PlaywrightStop (Returned true))
  /\ calls is_close (emitted capture_heatmap calm_world []) = true
  /\ nav_calls (emitted capture_heatmap calm_world []) = 1.
Proof. repeat split; vm_compute; reflexivity. Qed.

Example slow_run_falls_back :
  outcome capture_heatmap slow_world [] = Normal tt
  /\ count is_fallback_goto (emitted capture_heatmap slow_world []) = 1
  /\ calls is_close (emitted capture_heatmap slow_world []) = true.
Proof. repeat split; vm_compute; reflexivity. Qed.

Example crashed_run_is_fatal :
  outcome capture_heatmap crashed_world [] = Raise PlaywrightError
  /\ calls is_close (emitted capture_heatmap crashed_world []) = false
  /\ last_event (emitted capture_heatmap crashed_world [])
     = Some (Call PlaywrightStop (Returned true)).
Proof. repeat split; vm_compute; reflexivity. Qed.

(** The selector after each selector of the chain; none after [canvas]. *)
Example next_selector_chain :
  map (fun s => next_selector s MAP_SELECTORS) MAP_SELECTORS
  = [nth_error MAP_SELECTORS 1; nth_error MAP_SELECTORS 2;
     nth_error MAP_SELECTORS 3; None].
Proof. reflexivity. Qed.

(** The element of [#map] is found and its screenshot raises: the four
    selectors are looked up and the page is captured. *)
Example broken_element_run :
  map op_of (emitted take_screenshot broken_element_world [])
  = [Some (QuerySelector "#map");
     Some (ElementScreenshot "#map" (HEATMAP_PATH broken_element_world));
     Some (QuerySelector (nth 1 MAP_SELECTORS EmptyString));
     Some (QuerySelector (nth 2 MAP_SELECTORS EmptyString));
     Some (QuerySelector "canvas");
     Some (PageScreenshot (HEATMAP_PATH broken_element_world) true)].
Proof. vm_compute. reflexivity. Qed.

Example calm_main_writes_output :
  outcome (main (lit "$") (lit "$")) calm_world [] = Normal tt
  /\ count is_output_op (emitted (main (lit "$") (lit "$")) calm_world []) = 5.
Proof. split; vm_compute; reflexivity. Qed.

(* ===================================================================== *)
(** * Further properties: the formatter                                   *)
(* ===================================================================== *)

Lemma lstrip_app (v b : pystr) :
  lstrip (v ++ b) = match lstrip v with
                    | [] => lstrip b
                    | _ :: _ => lstrip v ++ b
                    end.
Proof.
  induction v as [|c v IH]; simpl; [now destruct (lstrip b)|].
  destruct (is_space c); [exact IH | reflexivity].
Qed.

Lemma lstrip_blank (a : pystr) : forallb is_space a = true -> lstrip a = [].
Proof.
  induction a as [|c a IH]; simpl; [reflexivity|].
  intros H. apply andb_true_iff in H as [Hc Ha]. now rewrite Hc, IH.
Qed.

Lemma blank_rev (a : pystr) :
  forallb is_space a = true -> forallb is_space (rev a) = true.
Proof.
  intros H. apply forallb_forall. intros x Hx. apply In_rev in Hx.
  now apply (proj1 (forallb_forall _ _) H).
Qed.

Lemma rstrip_blank_end (v b : pystr) :
  forallb is_space b = true -> rstrip (v ++ b) = rstrip v.
Proof.
  intros Hb. unfold rstrip. rewrite rev_app_distr, lstrip_app.
  now rewrite (lstrip_blank _ (blank_rev _ Hb)).
Qed.

(** [strip] does not see the white space around a string. *)
Lemma strip_surrounded (a v b : pystr) :
  forallb is_space a = true -> forallb is_space b = true ->
  strip (a ++ v ++ b) = strip v.
Proof.
  intros Ha Hb. unfold strip.
  rewrite lstrip_app, (lstrip_blank _ Ha), lstrip_app.
  destruct (lstrip v) as [|c t] eqn:E.
  - now rewrite (lstrip_blank _ Hb).
  - rewrite <- E. now apply rstrip_blank_end.
Qed.

(** X1. White space around a cell does not show in the message: a
    percent-style cell with leading and trailing white space is formatted
    like the cell without it. *)
Theorem X1_fmt_pct_ignores_surrounding_space :
  forall a v b : pystr,
    forallb is_space a = true -> forallb is_space b = true ->
    fmt_pct (a ++ v ++ b) = fmt_pct v.
Proof.
  intros a v b Ha Hb. unfold fmt_pct; cbv zeta.
  now rewrite (strip_surrounded a v b Ha Hb).
Qed.

Lemma X1_fmt_pct_ignores_surrounding_space_witness :
  fmt_pct (lit "  " ++ lit "+0.5" ++ [9%N; LF]) = fmt_pct (lit "+0.5").
Proof.
  apply (X1_fmt_pct_ignores_surrounding_space (lit "  ") (lit "+0.5") [9%N; LF]);
    reflexivity.
Defined.

(** X2. An empty cell, or a cell of white space only, comes out as a bare
    percent sign. *)
Theorem X2_fmt_pct_blank_cell :
  forall v : pystr, forallb is_space v = true -> fmt_pct v = [PERCENT].
Proof.
  intros v Hv. unfold fmt_pct, strip; cbv zeta.
  now rewrite (lstrip_blank _ Hv).
Qed.

Lemma X2_fmt_pct_blank_cell_witness :
  fmt_pct (lit "   ") = lit "%" /\ fmt_pct [] = lit "%".
Proof.
  split.
  - apply (X2_fmt_pct_blank_cell (lit "   ")). reflexivity.
  - apply (X2_fmt_pct_blank_cell []). reflexivity.
Defined.

Lemma count_lstrip (x : N) (v : pystr) :
  is_space x = false ->
  count_occ N.eq_dec (lstrip v) x = count_occ N.eq_dec v x.
Proof.
  intros Hx. induction v as [|c v IH]; simpl; [reflexivity|].
  destruct (is_space c) eqn:Ec; [|reflexivity].
  rewrite IH. destruct (N.eq_dec c x) as [->|]; [congruence | reflexivity].
Qed.

Lemma count_strip (x : N) (v : pystr) :
  is_space x = false ->
  count_occ N.eq_dec (strip v) x = count_occ N.eq_dec v x.
Proof.
  intros Hx. unfold strip, rstrip.
  now rewrite count_occ_rev, count_lstrip, count_occ_rev, count_lstrip.
Qed.

Lemma pct_in_count (v : pystr) :
  pct_in v = false <-> count_occ N.eq_dec v PERCENT = 0.
Proof.
  unfold pct_in. induction v as [|c v IH]; [simpl; tauto|].
  cbn [existsb count_occ].
  destruct (N.eq_dec c PERCENT) as [->|Hne].
  - rewrite N.eqb_refl. cbn [orb]. split; discriminate.
  - replace (PERCENT =? c)%N with false
      by (symmetry; apply N.eqb_neq; congruence).
    cbn [orb]. exact IH.
Qed.

(** X3. [fmt_pct] keeps the percent signs of a cell and adds one only to a
    cell that has none: the result holds as many percent signs as the cell,
    and one when the cell holds none. *)
Theorem X3_fmt_pct_percent_count :
  forall v : pystr,
    count_occ N.eq_dec (fmt_pct v) PERCENT
    = Nat.max 1 (count_occ N.eq_dec v PERCENT).
Proof.
  intros v. unfold fmt_pct; cbv zeta.
  pose proof (count_strip PERCENT v percent_not_space) as Hc.
  destruct (pct_in (strip v)) eqn:E.
  - assert (Hpos : count_occ N.eq_dec (strip v) PERCENT <> 0)
      by (intros H0; apply pct_in_count in H0; congruence).
    rewrite Hc in *. lia.
  - apply pct_in_count in E. rewrite count_occ_app, E, <- Hc, E.
    reflexivity.
Qed.

Lemma strip_last (v : pystr) :
  rev (strip v) = [] \/ exists c t, rev (strip v) = c :: t /\ is_space c = false.
Proof.
  unfold strip, rstrip. rewrite rev_involutive. apply lstrip_head.
Qed.

(** X4. A formatted percent-style value is never empty and never starts or
    ends with white space. *)
Theorem X4_fmt_pct_trimmed :
  forall v : pystr,
    fmt_pct v <> [] /\
    (forall c t, fmt_pct v = c :: t -> is_space c = false) /\
    (forall c t, rev (fmt_pct v) = c :: t -> is_space c = false).
Proof.
  intros v. split; [apply pct_in_nonempty, fmt_pct_has_percent|].
  unfold fmt_pct; cbv zeta. destruct (pct_in (strip v)); split.
  - intros c t E. destruct (strip_head v) as [H | (c' & t' & H & Hc)];
      rewrite H in E; [discriminate | now injection E as <- _].
  - intros c t E. destruct (strip_last v) as [H | (c' & t' & H & Hc)];
      rewrite H in E; [discriminate | now injection E as <- _].
  - intros c t E. destruct (strip_head v) as [H | (c' & t' & H & Hc)];
      rewrite H in E; simpl in E; injection E as <- _;
      [reflexivity | exact Hc].
  - intros c t E. rewrite rev_app_distr in E. simpl in E.
    now injection E as <- _.
Qed.

(** The lines of the message, for cells without line feed. *)
Lemma message_lines (usd_mark usd_prefix : pystr) (d : sheet_row) :
  Forall no_lf (all_cells d) ->
  no_lf usd_prefix ->
  split_lf (format_slack_message usd_mark usd_prefix d) =
    [ lit "*Date: " ++ date d ++ lit " Market*";
      SEPARATOR;
      lit ":us: S&P 500: " ++ fmt_pct (sp500 d);
      lit ":us: Nasdaq: " ++ fmt_pct (nasdaq d);
      lit ":flag-ca: TSX Comp: " ++ fmt_pct (tsx d);
      lit ":seven: Magnificent7: " ++ fmt_pct (mags d);
      lit ":bitcoin: Bitcoin: " ++ fmt_pct (btc d);
      lit ":ethereum: Ethereum: " ++ fmt_pct (eth d);
      lit ":chart_with_upwards_trend: USD/CAD: "
        ++ usdcad_text usd_mark usd_prefix d;
      lit ":gold_ingot: Gold: " ++ fmt_pct (gold d) ].
Proof.
  intros Hcells Hprefix. unfold all_cells in Hcells.
  repeat match goal with
         | H : Forall _ (_ :: _) |- _ =>
             let Hc := fresh "Hc" in
             let Hr := fresh "Hr" in
             apply Forall_cons_iff in H; destruct H as [Hc Hr]
         end.
  unfold format_slack_message; cbv zeta.
  apply split_lf_join.
  repeat apply Forall_cons; try apply Forall_nil; try line_has_no_lf.
  apply no_lf_app; [line_has_no_lf|].
  unfold usdcad_text. destruct (startswith (usdcad d) usd_mark).
  - assumption.
  - now apply no_lf_app.
Qed.

(** X5. For cells without line feed, no line of the message is the
    sentinel [EOF] that closes the block written to the output file, and
    none is empty: the block [main] writes is delimited without
    ambiguity. *)
Theorem X5_message_has_no_sentinel_line :
  forall (usd_mark usd_prefix : pystr) (d : sheet_row),
    Forall no_lf (all_cells d) ->
    no_lf usd_prefix ->
    Forall (fun l => l <> lit "EOF" /\ l <> [])
           (split_lf (format_slack_message usd_mark usd_prefix d)).
Proof.
  intros usd_mark usd_prefix d Hcells Hprefix.
  rewrite (message_lines usd_mark usd_prefix d Hcells Hprefix).
  repeat apply Forall_cons; try apply Forall_nil; split; discriminate.
Qed.

Lemma X5_message_has_no_sentinel_line_witness :
  Forall (fun l => l <> lit "EOF" /\ l <> [])
         (split_lf (format_slack_message (lit "$") (lit "$") scenario_row)).
Proof.
  apply (X5_message_has_no_sentinel_line (lit "$") (lit "$") scenario_row).
  - unfold all_cells. repeat apply Forall_cons; try apply Forall_nil;
      apply no_lf_check; reflexivity.
  - apply no_lf_check; reflexivity.
Defined.

(* ===================================================================== *)
(** * Further properties: the sheet reader                                *)
(* ===================================================================== *)

(** Answers a call of the run from [fetch_succeeds]. *)
Ltac answer_fetch Hf :=
  apply ends_call;
  match goal with
  | |- context [respond ?w ?hh (RequestsGet ?u ?n)] =>
      let b := fresh "b" in destruct (proj1 (Hf hh)) as [b ->]
  | |- context [respond ?w ?hh RaiseForStatus] =>
      let b := fresh "b" in destruct (proj2 (Hf hh)) as [b ->]
  end;
  cbv beta iota.

(** When the reader raises without a call of the capture, [main] stops
    there. *)
Lemma main_stops_with_reader (usd_mark usd_prefix : pystr) (w : env)
      (h : trace) (P : exn -> Prop) :
  (forall h0,
      ends read_google_sheet w h0
           (fun r t =>
              (exists e, r = Raise e /\ P e) /\
              calls is_capture_op t = false /\
              printed_message t = false /\
              calls is_output_op t = false)) ->
  ends (main usd_mark usd_prefix) w h
       (fun r t =>
          (exists e, r = Raise (pep479 e) /\ P e) /\
          calls is_capture_op t = false /\
          printed_message t = false /\
          calls is_output_op t = false).
Proof.
  intros Hread. unfold main. do 10 run1. stage Hread.
  intros r t ((e & -> & He) & Hc & Hp & Ho).
  rewrite ?calls_app, ?printed_message_app, Hc, Hp, Ho.
  repeat split; eauto.
Qed.

(** X6. When the sheet comes back with fewer than two rows, the reader
    fails on [next] with [StopIteration], not with [ValueError]; in the
    coroutine [main] this ends the run with a [RuntimeError], before any
    formatting or capture. *)
Theorem X6_sheet_without_data_row :
  forall (usd_mark usd_prefix : pystr) (w : env) (h : trace),
    fetch_succeeds w ->
    List.length (sheet_csv w) < 2 ->
    outcome read_google_sheet w h = Raise StopIteration
    /\ outcome (main usd_mark usd_prefix) w h = Raise RuntimeError
    /\ calls is_capture_op (emitted (main usd_mark usd_prefix) w h) = false
    /\ printed_message (emitted (main usd_mark usd_prefix) w h) = false.
Proof.
  intros usd_mark usd_prefix w h Hf Hlen.
  assert (Hread : forall h0,
             ends read_google_sheet w h0
                  (fun r t =>
                     (exists e, r = Raise e /\ e = StopIteration) /\
                     calls is_capture_op t = false /\
                     printed_message t = false /\
                     calls is_output_op t = false)).
  { intros h0. unfold read_google_sheet.
    run1. answer_fetch Hf. run1. answer_fetch Hf. run1. run1.
    destruct (sheet_csv w) as [|header [|row rest]];
      [| |simpl in Hlen; lia]; cbn [next_row snd].
    - run1. run1. repeat split; eauto.
    - run1. run1. cbn [next_row snd]. run1. run1. repeat split; eauto. }
  pose proof (ends_observed (Hread h)) as ((e & He & ->) & _).
  pose proof (ends_observed
                (main_stops_with_reader usd_mark usd_prefix w h _ Hread))
    as ((e & He' & ->) & Hc & Hp & _).
  now repeat split.
Qed.

Lemma X6_sheet_without_data_row_witness :
  (outcome read_google_sheet empty_sheet_world [] = Raise StopIteration
   /\ outcome (main (lit "$") (lit "$")) empty_sheet_world []
      = Raise RuntimeError)
  /\ outcome (main (lit "$") (lit "$")) header_only_world []
     = Raise RuntimeError.
Proof.
  assert (He : fetch_succeeds empty_sheet_world)
    by (intros h; split; now apply world_returns with (b := true)).
  assert (Hh : fetch_succeeds header_only_world)
    by (intros h; split; now apply world_returns with (b := true)).
  assert (L0 : List.length (sheet_csv empty_sheet_world) < 2)
    by (simpl; lia).
  assert (L1 : List.length (sheet_csv header_only_world) < 2)
    by (simpl; lia).
  split.
  - destruct (X6_sheet_without_data_row (lit "$") (lit "$")
                empty_sheet_world [] He L0) as (H1 & H2 & _).
    now split.
  - exact (proj1 (proj2 (X6_sheet_without_data_row (lit "$") (lit "$")
                           header_only_world [] Hh L1))).
Defined.

Lemma first_nine_cells (row : list pystr) :
  9 <= List.length row ->
  [ nth 0 row []; nth 1 row []; nth 2 row []; nth 3 row []; nth 4 row [];
    nth 5 row []; nth 6 row []; nth 7 row []; nth 8 row [] ]
  = firstn 9 row.
Proof.
  intros H.
  do 9 (destruct row as [|? row]; [simpl in H; lia|]).
  reflexivity.
Qed.

(** X7. On a sheet whose second row has nine cells or more, the reader
    returns the first nine cells of that row, in order, as date, S&P 500,
    Nasdaq, TSX, Magnificent 7, Bitcoin, Ethereum, USD/CAD and gold; the
    cells after the ninth and the rows after the second are ignored. *)
Theorem X7_reader_takes_first_nine_cells :
  forall (w : env) (h : trace) (header row : list pystr)
         (rest : list (list pystr)),
    fetch_succeeds w ->
    sheet_csv w = header :: row :: rest ->
    9 <= List.length row ->
    exists d,
      outcome read_google_sheet w h = Normal d
      /\ all_cells d = firstn 9 row.
Proof.
  intros w h header row rest Hf Hsheet Hlen.
  assert (Hrun : ends read_google_sheet w h
                   (fun r _ =>
                      exists d, r = Normal d /\ all_cells d = firstn 9 row)).
  { unfold read_google_sheet.
    run1. answer_fetch Hf. run1. answer_fetch Hf. run1. run1.
    rewrite Hsheet. cbn [next_row snd]. run1. run1. cbn [next_row snd].
    run1. run1. cbv zeta. cbn [fst].
    rewrite (proj2 (Nat.ltb_ge _ _) Hlen). run1.
    eexists. split; [reflexivity|]. now apply first_nine_cells. }
  apply (ends_observed Hrun).
Qed.

Lemma X7_reader_takes_first_nine_cells_witness :
  exists d,
    outcome read_google_sheet wide_sheet_world [] = Normal d
    /\ all_cells d = scenario_cells.
Proof.
  refine (X7_reader_takes_first_nine_cells wide_sheet_world []
            header_cells wide_cells [short_row] _ eq_refl _).
  - intros h; split; now apply world_returns with (b := true).
  - simpl. lia.
Defined.

(** X8. When the request for the sheet raises, or the status check raises,
    the exception leaves [read_google_sheet] as it is, the rows are not
    looked at, and [main] ends with it before any formatting or capture. *)
Theorem X8_fetch_failure_propagates :
  forall (usd_mark usd_prefix : pystr) (w : env) (h : trace) (e : exn),
    (forall h', respond w h' (RequestsGet export_url 30) = Raised e)
    \/ ((forall h', returns (respond w h' (RequestsGet export_url 30)))
        /\ (forall h', respond w h' RaiseForStatus = Raised e)) ->
    outcome read_google_sheet w h = Raise e
    /\ outcome (main usd_mark usd_prefix) w h = Raise (pep479 e)
    /\ calls is_capture_op (emitted (main usd_mark usd_prefix) w h) = false
    /\ printed_message (emitted (main usd_mark usd_prefix) w h) = false.
Proof.
  intros usd_mark usd_prefix w h e Hfail.
  assert (Hread : forall h0,
             ends read_google_sheet w h0
                  (fun r t =>
                     (exists e', r = Raise e' /\ e' = e) /\
                     calls is_capture_op t = false /\
                     printed_message t = false /\
                     calls is_output_op t = false)).
  { intros h0. unfold read_google_sheet. run1. apply ends_call.
    destruct Hfail as [Hget | [Hget Hstatus]].
    - rewrite Hget. cbv beta iota. repeat split; eauto.
    - destruct (Hget h0) as [b ->]. cbv beta iota.
      run1. apply ends_call. rewrite Hstatus. cbv beta iota.
      repeat split; eauto. }
  pose proof (ends_observed (Hread h)) as ((e1 & He1 & ->) & _).
  pose proof (ends_observed
                (main_stops_with_reader usd_mark usd_prefix w h _ Hread))
    as ((e2 & He2 & ->) & Hc & Hp & _).
  now repeat split.
Qed.

Lemma X8_fetch_failure_propagates_witness :
  outcome (main (lit "$") (lit "$")) offline_world []
  = Raise RequestException
  /\ outcome (main (lit "$") (lit "$")) forbidden_world []
     = Raise RequestException.
Proof.
  split.
  - refine (proj1 (proj2 (X8_fetch_failure_propagates (lit "$") (lit "$")
                            offline_world [] RequestException _))).
    left. reflexivity.
  - refine (proj1 (proj2 (X8_fetch_failure_propagates (lit "$") (lit "$")
                            forbidden_world [] RequestException _))).
    right. split; [|reflexivity].
    intros h. now apply world_returns with (b := true).
Defined.

(* ===================================================================== *)
(** * Further properties: the navigation retries                          *)
(* ===================================================================== *)

Lemma sleeps_of_app (t t' : trace) :
  sleeps_of (t ++ t') = sleeps_of t ++ sleeps_of t'.
Proof. apply flat_map_app. Qed.

(** A failed attempt followed by the remaining attempts. *)
Lemma retry_summary_next (w : env) (url : string) (n i : nat)
      (r : result bool) (tpre t : trace) :
  count is_retry_goto tpre = 1 ->
  count is_idle_wait tpre <= 1 ->
  sleeps_of tpre = [backoff_ms i] ->
  retry_summary w url n (S i) r t ->
  retry_summary w url (S n) i r (tpre ++ t).
Proof.
  intros Hg Hi Hs (Hn & Hw & Hr). unfold retry_summary.
  rewrite !count_app, sleeps_of_app, Hg, Hs.
  split; [lia|]. split; [lia|].
  destruct r as [[|]|e].
  - destruct Hr as (H1 & H2 & t0 & b1 & b2 & ->).
    split; [lia|]. split.
    + rewrite H2.
      replace (1 + count is_retry_goto
                     (t0 ++ [Call (dom_goto url) (Returned b1);
                             Call idle_wait (Returned b2)]) - 1)
        with (S (count is_retry_goto
                   (t0 ++ [Call (dom_goto url) (Returned b1);
                           Call idle_wait (Returned b2)]) - 1)) by lia.
      reflexivity.
    + exists (tpre ++ t0), b1, b2. now rewrite app_assoc.
  - destruct Hr as [H1 H2]. split; [lia|]. now rewrite H2.
  - exact Hr.
Qed.

(** Every run of the attempts, in every world. *)
Lemma goto_attempts_summary (url : string) (attempts : nat) (w : env) :
  forall n i h,
    ends (goto_attempts url attempts i n) w h (retry_summary w url n i).
Proof.
  induction n as [|n IH]; intros i h; cbn [goto_attempts].
  - run1. unfold retry_summary. simpl. repeat split; (lia || reflexivity).
  - assert (Hnext : forall h' tpre,
               count is_retry_goto tpre = 1 ->
               count is_idle_wait tpre <= 1 ->
               sleeps_of tpre = [backoff_ms i] ->
               ends (goto_attempts url attempts (S i) n) w h'
                    (fun r t' => retry_summary w url (S n) i r (tpre ++ t'))).
    { intros h' tpre Hg Hi Hs. eapply ends_mono; [apply IH|].
      intros r t Hr. now apply retry_summary_next. }
    repeat run1;
      try (apply Hnext; [reflexivity | unfold count; simpl; lia | reflexivity]).
    all: unfold retry_summary;
      repeat split; try (unfold count; simpl; lia); try reflexivity;
      eauto.
    exists [Print (LogGotoAttempt i attempts)], b, b0. reflexivity.
Qed.

Lemma goto_with_retries_summary (url : string) (attempts : nat) w h :
  ends (goto_with_retries url attempts) w h
       (fun r t => retry_summary w url attempts 1 r t
                   /\ only nav_stage t = true).
Proof.
  unfold goto_with_retries. run1.
  eapply ends_mono.
  - apply ends_conj; [apply goto_attempts_summary | apply goto_attempts_stage].
  - cbv beta. intros r t [Hr Ho]. split; [|exact Ho].
    destruct r as [b|e]; [exact Hr|].
    destruct Hr as (H1 & H2 & H3). repeat split; auto.
    destruct H3 as [H3|H3]; [left | now right].
    now destruct e.
Qed.

(** X9. No navigation error leaves [goto_with_retries]: in a world whose
    back-off pauses return, the function returns a boolean, or lets
    through an exception that is not an [Exception] (a cancellation, an
    interrupt). *)
Theorem X9_goto_with_retries_contains_exceptions :
  forall (w : env) (h : trace) (url : string) (N : nat),
    sleeps_return w ->
    (exists b, outcome (goto_with_retries url N) w h = Normal b)
    \/ (exists e, outcome (goto_with_retries url N) w h = Raise e
                  /\ is_Exception e = false).
Proof.
  intros w h url N Hsleep.
  pose proof (ends_observed (goto_with_retries_summary url N w h))
    as [(_ & _ & Hr) _].
  destruct (outcome (goto_with_retries url N) w h) as [b|e].
  - left. now exists b.
  - right. exists e. split; [reflexivity|].
    destruct Hr as [Hr | (h' & ms & e' & Hr)]; [exact Hr|].
    destruct (Hsleep h' ms) as [b Hb]. congruence.
Qed.

Lemma X9_goto_with_retries_contains_exceptions_witness :
  ((exists b, outcome (goto_with_retries FINVIZ_URL 3) unreachable_world []
              = Normal b)
   \/ (exists e, outcome (goto_with_retries FINVIZ_URL 3) unreachable_world []
                 = Raise e /\ is_Exception e = false))
  /\ ((exists b, outcome (goto_with_retries FINVIZ_URL 3) cancelled_world []
                 = Normal b)
      \/ (exists e, outcome (goto_with_retries FINVIZ_URL 3) cancelled_world []
                    = Raise e /\ is_Exception e = false)).
Proof.
  split.
  - apply (X9_goto_with_retries_contains_exceptions unreachable_world []
             FINVIZ_URL 3).
    intros h ms. now apply world_returns with (b := true).
  - apply (X9_goto_with_retries_contains_exceptions cancelled_world []
             FINVIZ_URL 3).
    intros h ms. now apply world_returns with (b := true).
Defined.

(** X10. In every world [goto_with_retries] makes at most [N] navigation
    calls and at most one wait per navigation.  It returns [False] only
    after [N] navigations, and [True] only right after a navigation and
    its network-quiet wait have both returned: these are then the last two
    calls it made. *)
Theorem X10_goto_with_retries_bounded :
  forall (w : env) (h : trace) (url : string) (N : nat),
    nav_calls (emitted (goto_with_retries url N) w h) <= N
    /\ count is_idle_wait (emitted (goto_with_retries url N) w h)
       <= nav_calls (emitted (goto_with_retries url N) w h)
    /\ (outcome (goto_with_retries url N) w h = Normal false ->
        nav_calls (emitted (goto_with_retries url N) w h) = N)
    /\ (outcome (goto_with_retries url N) w h = Normal true ->
        exists t0 b1 b2,
          emitted (goto_with_retries url N) w h
          = t0 ++ [Call (dom_goto url) (Returned b1);
                   Call idle_wait (Returned b2)]).
Proof.
  intros w h url N.
  pose proof (ends_observed (goto_with_retries_summary url N w h))
    as [(Hn & Hw & Hr) Ho].
  destruct (nav_stage_gotos _ Ho) as [Hg _]. unfold nav_calls.
  rewrite <- Hg. repeat split; auto.
  - intros E. rewrite E in Hr. tauto.
  - intros E. rewrite E in Hr. tauto.
Qed.

(** X11. The back-off of [goto_with_retries]: a pause of [2 + i] seconds
    follows every failed attempt [i], the last one included, and nothing
    else pauses.  A run that returns [False] has paused 3, 4, ..., [2 + N]
    seconds; a run that returns [True] at its [K]-th navigation has paused
    3, ..., [1 + K] seconds. *)
Theorem X11_goto_with_retries_backoff :
  forall (w : env) (h : trace) (url : string) (N : nat),
    (outcome (goto_with_retries url N) w h = Normal false ->
     sleeps_of (emitted (goto_with_retries url N) w h)
     = map backoff_ms (seq 1 N))
    /\ (outcome (goto_with_retries url N) w h = Normal true ->
        sleeps_of (emitted (goto_with_retries url N) w h)
        = map backoff_ms
              (seq 1 (nav_calls (emitted (goto_with_retries url N) w h) - 1))).
Proof.
  intros w h url N.
  pose proof (ends_observed (goto_with_retries_summary url N w h))
    as [(Hn & Hw & Hr) Ho].
  destruct (nav_stage_gotos _ Ho) as [Hg _]. unfold nav_calls.
  rewrite <- Hg. split; intros E; rewrite E in Hr; tauto.
Qed.

(* ===================================================================== *)
(** * Further properties: the banner loop                                 *)
(* ===================================================================== *)

Lemma clicked_app (t t' : trace) : clicked (t ++ t') = clicked t ++ clicked t'.
Proof. apply flat_map_app. Qed.

Lemma dismiss_banners_clicks :
  forall sels w h,
    ends (dismiss_banners sels) w h
         (fun r t =>
            r = Normal tt /\
            (exists k, clicked t = firstn k sels) /\
            (List.length (clicked t) < List.length sels ->
             exists t0 sel b b',
               t = t0 ++ [Call (Click sel 1500) (Returned b);
                          Call (Sleep 400) (Returned b')])).
Proof.
  induction sels as [|sel sels IH]; intros w h; cbn [dismiss_banners].
  - run1. split; [reflexivity|]. split; [now exists 0|].
    simpl. lia.
  - assert (Hnext : forall h' tpre,
               clicked tpre = [sel] ->
               ends (dismiss_banners sels) w h'
                    (fun r t' =>
                       r = Normal tt /\
                       (exists k, clicked (tpre ++ t') = firstn k (sel :: sels)) /\
                       (List.length (clicked (tpre ++ t'))
                        < List.length (sel :: sels) ->
                        exists t0 sel' b b',
                          tpre ++ t'
                          = t0 ++ [Call (Click sel' 1500) (Returned b);
                                   Call (Sleep 400) (Returned b')]))).
    { intros h' tpre Hpre. eapply ends_mono; [apply IH|].
      intros r t (-> & [k Hk] & Hlast). split; [reflexivity|].
      rewrite clicked_app, Hpre. split.
      - exists (S k). simpl. now rewrite Hk.
      - simpl. intros Hlen.
        destruct Hlast as (t0 & sel' & b & b' & ->); [lia|].
        exists (tpre ++ t0), sel', b, b'. now rewrite app_assoc. }
    repeat run1; try (apply Hnext; reflexivity).
    split; [reflexivity|]. split; [now exists 1|].
    intros _. exists [], sel, b, b0. reflexivity.
Qed.

(** X12. The banner loop never raises, whatever the clicks do.  It clicks
    the selectors it is given in their order, each at most once, and stops
    after the first click that went through and was followed by its pause:
    when it has not tried every selector, such a click and pause are the
    last two calls it made. *)
Theorem X12_dismiss_banners_best_effort :
  forall (sels : list string) (w : env) (h : trace),
    outcome (dismiss_banners sels) w h = Normal tt
    /\ (exists k, clicked (emitted (dismiss_banners sels) w h) = firstn k sels)
    /\ (List.length (clicked (emitted (dismiss_banners sels) w h))
        < List.length sels ->
        exists t0 sel b b',
          emitted (dismiss_banners sels) w h
          = t0 ++ [Call (Click sel 1500) (Returned b);
                   Call (Sleep 400) (Returned b')]).
Proof.
  intros sels w h. apply (ends_observed (dismiss_banners_clicks sels w h)).
Qed.

(* ===================================================================== *)
(** * Further properties: what the capture touches, and how often         *)
(* ===================================================================== *)

Lemma shots_written_app (t t' : trace) :
  shots_written (t ++ t') = shots_written t + shots_written t'.
Proof. unfold shots_written. now rewrite filter_app, length_app. Qed.

Lemma no_shots (p : op -> bool) (t : trace) :
  (forall o, p o = true -> is_element_shot o = false /\ is_page_shot o = false) ->
  only p t = true -> shots_written t = 0.
Proof.
  intros Hp. unfold only, shots_written.
  induction t as [|ev t IH]; simpl; [reflexivity|].
  intros H. apply andb_true_iff in H as [H1 H2]. specialize (IH H2).
  destruct ev as [o a|m]; [|exact IH].
  destruct (Hp o H1) as [He Hs].
  destruct o, a; simpl in *; try discriminate; exact IH.
Qed.

(** Decides, by cases on the call, a fact on the calls of a class. *)
Ltac by_call :=
  let o := fresh "o" in
  let H := fresh "H" in
  intros o H;
  unfold nav_stage, dismiss_stage, lookup_stage, shot_stage in *;
  destruct o; simpl in *; try discriminate; try reflexivity;
  try (split; reflexivity); try congruence.

(** The counts a stage that stays in its class leaves at zero. *)
Ltac tally w H :=
  lazymatch type of H with
  | only ?cls ?t = true =>
      try (let H1 := fresh "Tshots" in
           assert (H1 : shots_written t = 0)
             by (revert H; apply no_shots; by_call));
      try (let H2 := fresh "Tcopy" in
           assert (H2 : count is_copy t = 0)
             by (apply calls_count; revert H; apply only_excludes; by_call));
      try (let H3 := fresh "Tclose" in
           assert (H3 : count is_close t = 0)
             by (apply calls_count; revert H; apply only_excludes; by_call));
      try (let H4 := fresh "Tfall" in
           assert (H4 : count is_fallback_goto t = 0)
             by (apply calls_count; revert H; apply only_excludes; classes));
      try (let H5 := fresh "Tretry" in
           assert (H5 : count is_retry_goto t = 0)
             by (apply calls_count; revert H; apply only_excludes; by_call));
      try (let H6 := fresh "Tfile" in
           assert (H6 : only (capture_call w) t = true)
             by (revert H; apply only_weaken; by_call))
  end.

(** Closes a goal on counts along a trace. *)
Ltac add_up :=
  cbv beta;
  rewrite ?app_nil_r;
  repeat first [ rewrite count_app | rewrite shots_written_app ];
  repeat match goal with
         | H : _ = 0 |- _ => rewrite H
         | H : _ = 1 |- _ => rewrite H
         end;
  unfold count, shots_written in *; simpl; repeat split; try lia.

Lemma screenshot_element_files (w : env) :
  forall sels h,
    ends (screenshot_element (HEATMAP_PATH w) sels) w h
         (fun r t =>
            only (capture_call w) t = true /\
            exists saved,
              r = Normal saved /\
              shots_written t = (if saved then 1 else 0)).
Proof.
  induction sels as [|sel sels IH]; intros h; cbn [screenshot_element].
  - run1. split; [reflexivity|]. now exists false.
  - assert (Hnext : forall h' tpre,
               only (capture_call w) tpre = true ->
               shots_written tpre = 0 ->
               ends (screenshot_element (HEATMAP_PATH w) sels) w h'
                    (fun r t' =>
                       only (capture_call w) (tpre ++ t') = true /\
                       exists saved,
                         r = Normal saved /\
                         shots_written (tpre ++ t')
                         = (if saved then 1 else 0))).
    { intros h' tpre Ho Hs. eapply ends_mono; [apply IH|].
      intros r t (Ho' & saved & -> & Hs').
      rewrite only_app, shots_written_app, Ho, Ho', Hs, Hs'.
      split; [reflexivity|]. now exists saved. }
    repeat run1;
      try (apply Hnext; [simpl; now rewrite ?String.eqb_refl | reflexivity]).
    split; [simpl; now rewrite String.eqb_refl|]. now exists true.
Qed.

Lemma take_screenshot_files (w : env) (h : trace) :
  ends take_screenshot w h
       (fun r t =>
          only (capture_call w) t = true /\
          count is_copy t = 0 /\ count is_close t = 0 /\
          count is_goto t = 0 /\
          shots_written t = match r with Normal _ => 1 | Raise _ => 0 end).
Proof.
  unfold take_screenshot. run1. run1. run1.
  eapply ends_mono.
  - apply ends_conj;
      [apply screenshot_element_files | apply screenshot_element_stage].
  - cbv beta. intros r t [(Ho & saved & -> & Hs) (Hl & _)].
    assert (Tcopy : count is_copy t = 0)
      by (apply calls_count; revert Hl; apply only_excludes; by_call).
    assert (Tclose : count is_close t = 0)
      by (apply calls_count; revert Hl; apply only_excludes; by_call).
    assert (Tgoto : count is_goto t = 0)
      by (apply calls_count; revert Hl; apply only_excludes; by_call).
    destruct saved; cbn [negb]; repeat run1;
      (split; [rewrite ?only_app, Ho; simpl;
               now rewrite ?String.eqb_refl
              | add_up ]).
Qed.

Lemma keep_latest_files (w : env) (h : trace) :
  ends keep_latest w h
       (fun r t =>
          only (capture_call w) t = true /\
          count is_copy t = 1 /\ count is_close t = 0 /\
          count is_goto t = 0 /\ shots_written t = 0).
Proof.
  unfold keep_latest. repeat run1;
    (split; [simpl; now rewrite ?String.eqb_refl | now repeat split]).
Qed.

(** From the dismissal of the banners to [browser.close], in numbers. *)
Lemma after_navigation_tally w h :
  ends (dismiss_banners BANNER_SELECTORS;;
        take_screenshot;;
        keep_latest;;
        path <- ask HEATMAP_PATH;;
        print (LogSaved path);;
        call BrowserClose;;
        ret tt) w h
       (fun r t =>
          only (capture_call w) t = true /\
          count is_goto t = 0 /\
          shots_written t <= 1 /\
          count is_copy t <= 1 /\
          (count is_copy t = 1 -> shots_written t = 1) /\
          count is_close t <= 1 /\
          (count is_close t = 1 -> count is_copy t = 1) /\
          (forall u, r = Normal u -> count is_close t = 1)).
Proof.
  run1. stage dismiss_banners_stage. intros r td [-> Hd].
  assert (Tgoto : count is_goto td = 0)
    by (apply calls_count; revert Hd; apply only_excludes; by_call).
  tally w Hd.
  run1. stage take_screenshot_files. intros r ts (Hs & Cs & Ks & Gs & Ss).
  destruct r as [[]|e].
  - run1. stage keep_latest_files. intros r tc (Hc & Cc & Kc & Gc & Sc).
    destruct r as [[]|e]; repeat run1;
      (split; [trace_facts; reflexivity | add_up; discriminate]).
  - split; [trace_facts; reflexivity | add_up; discriminate].
Qed.

Lemma count_none_calls (p : op -> bool) (t : trace) :
  count p t = 0 -> calls p t = false.
Proof.
  unfold count, calls. induction t as [|ev t IH]; simpl; [reflexivity|].
  destruct (is_call p ev); simpl; [discriminate | exact IH].
Qed.

Lemma calls_some_count (p : op -> bool) (t : trace) :
  calls p t = true -> 1 <= count p t.
Proof.
  intros H. destruct (count p t) eqn:E; [|lia].
  apply count_none_calls in E. congruence.
Qed.

(** Closes a goal on counts along a trace, with the facts at hand. *)
Ltac settle :=
  repeat match goal with H : _ /\ _ |- _ => destruct H end;
  repeat match goal with
         | H : forall u : unit, Normal _ = Normal u -> _ |- _ =>
             specialize (H tt eq_refl)
         end;
  add_up; try discriminate; intros; try lia; eauto.

(** The session body, in numbers. *)
Lemma capture_body_tally w h :
  ends capture_body w h
       (fun r t =>
          only (capture_call w) t = true /\
          count is_retry_goto t <= 3 /\
          count is_fallback_goto t <= 1 /\
          (count is_fallback_goto t = 1 -> count is_retry_goto t = 3) /\
          count is_goto t = count is_retry_goto t + count is_fallback_goto t /\
          shots_written t <= 1 /\
          count is_copy t <= 1 /\
          (count is_copy t = 1 -> shots_written t = 1) /\
          count is_close t <= 1 /\
          (count is_close t = 1 -> count is_copy t = 1) /\
          (forall u, r = Normal u -> count is_close t = 1)).
Proof.
  unfold capture_body.
  repeat run1;
    try solve [split; [reflexivity | settle]].
  stage goto_with_retries_summary. intros r tn [(Hn & _ & Hr) Ho].
  destruct (nav_stage_gotos _ Ho) as [Hg Hf].
  tally w Ho.
  destruct r as [ok|e]; [destruct ok; cbn [negb]|].
  - run1. run1. stage after_navigation_tally.
    intros r t (Hfile & Hgoto & Hrest).
    destruct (no_goto_counts _ (count_none_calls _ _ Hgoto)) as (_ & Tr & Tf).
    split; [trace_facts; reflexivity | settle].
  - destruct Hr as [Hr _].
    run1. run1. run1.
    + run1. stage after_navigation_tally.
      intros r t (Hfile & Hgoto & Hrest).
      destruct (no_goto_counts _ (count_none_calls _ _ Hgoto))
        as (_ & Tr & Tf).
      split; [trace_facts; reflexivity | settle].
    + split; [trace_facts; reflexivity | settle].
  - split; [trace_facts; reflexivity | settle].
Qed.

Lemma capture_heatmap_tally w h :
  ends capture_heatmap w h
       (fun r t =>
          only (capture_call w) t = true /\
          count is_retry_goto t <= 3 /\
          count is_fallback_goto t <= 1 /\
          (count is_fallback_goto t = 1 -> count is_retry_goto t = 3) /\
          count is_goto t = count is_retry_goto t + count is_fallback_goto t /\
          shots_written t <= 1 /\
          count is_copy t <= 1 /\
          (count is_copy t = 1 -> shots_written t = 1) /\
          count is_close t <= 1 /\
          (count is_close t = 1 -> count is_copy t = 1) /\
          (forall u, r = Normal u -> count is_close t = 1)).
Proof.
  unfold capture_heatmap. run1. apply ends_with_.
  - intros e E. split; [reflexivity | settle].
  - intros b E. stage capture_body_tally.
    intros r t (Hfile & Hrest) a Ha.
    change (Call PlaywrightStart (Returned b) :: t ++ [Call PlaywrightStop a])
      with ([Call PlaywrightStart (Returned b)] ++ t ++ [Call PlaywrightStop a]).
    clear Ha E.
    destruct a as [b'|e']; destruct r as [[]|e];
      (split; [trace_facts; reflexivity | settle]).
Qed.

(** X13. In every run [capture_heatmap] navigates at most four times:
    at most three retried attempts and at most one last-resort
    navigation, which is made only after three retried attempts. *)
Theorem X13_capture_navigation_bounds :
  forall (w : env) (h : trace),
    count is_retry_goto (emitted capture_heatmap w h) <= 3
    /\ count is_fallback_goto (emitted capture_heatmap w h) <= 1
    /\ nav_calls (emitted capture_heatmap w h) <= 4
    /\ (calls is_fallback_goto (emitted capture_heatmap w h) = true ->
        count is_retry_goto (emitted capture_heatmap w h) = 3).
Proof.
  intros w h.
  pose proof (ends_observed (capture_heatmap_tally w h))
    as (_ & H1 & H2 & H3 & H4 & _).
  unfold nav_calls. repeat split; try lia.
  intros Hf. apply calls_some_count in Hf. apply H3. lia.
Qed.

(** X14. [capture_heatmap] touches no file but its two images: in every
    run each screenshot call, of an element or of the page, writes the
    dated file [HEATMAP_PATH], the page screenshot is a full-page one, the
    copy goes from the dated file to [HEATMAP_LATEST], and no call reads
    the sheet or writes the output file. *)
Theorem X14_capture_files :
  forall (w : env) (h : trace),
    only (capture_call w) (emitted capture_heatmap w h) = true.
Proof.
  intros w h.
  exact (proj1 (ends_observed (capture_heatmap_tally w h))).
Qed.

(** X15. In every run of [capture_heatmap] at most one screenshot call
    returns, and exactly one in a run that returns: once the image is
    saved no further screenshot is taken. *)
Theorem X15_one_screenshot_saved :
  forall (w : env) (h : trace),
    shots_written (emitted capture_heatmap w h) <= 1
    /\ (outcome capture_heatmap w h = Normal tt ->
        shots_written (emitted capture_heatmap w h) = 1).
Proof.
  intros w h.
  pose proof (ends_observed (capture_heatmap_tally w h))
    as (_ & _ & _ & _ & _ & H5 & H6 & H7 & H8 & H9 & H10).
  split; [exact H5|]. intros E. specialize (H10 tt E). lia.
Qed.

(** X16. In every run of [capture_heatmap] the copy to the fixed name is
    attempted at most once and only after a screenshot call has returned,
    and [browser.close] is called at most once and only after the copy was
    attempted. *)
Theorem X16_copy_after_screenshot :
  forall (w : env) (h : trace),
    count is_copy (emitted capture_heatmap w h) <= 1
    /\ (calls is_copy (emitted capture_heatmap w h) = true ->
        shots_written (emitted capture_heatmap w h) = 1)
    /\ count is_close (emitted capture_heatmap w h) <= 1
    /\ (calls is_close (emitted capture_heatmap w h) = true ->
        calls is_copy (emitted capture_heatmap w h) = true).
Proof.
  intros w h.
  pose proof (ends_observed (capture_heatmap_tally w h))
    as (_ & _ & _ & _ & _ & H5 & H6 & H7 & H8 & H9 & H10).
  repeat split; auto.
  - intros Hc. apply calls_some_count in Hc. apply H7. lia.
  - intros Hc. apply calls_some_count in Hc.
    destruct (calls is_copy (emitted capture_heatmap w h)) eqn:E;
      [reflexivity|].
    apply calls_count in E. lia.
Qed.

(* ===================================================================== *)
(** * Further properties: the order of the calls                          *)
(* ===================================================================== *)

Lemma in_order_app (m : nat) (t t' : trace) :
  in_order m (t ++ t')
  = match in_order m t with
    | Some k => in_order k t'
    | None => None
    end.
Proof.
  revert m. induction t as [|ev t IH]; intros m; simpl; [reflexivity|].
  destruct ev as [o a|msg]; [|apply IH].
  destruct (step_of o) as [k|]; [|apply IH].
  destruct (m <=? k); [apply IH | reflexivity].
Qed.

Lemma in_order_grows (t : trace) :
  forall m k, in_order m t = Some k -> m <= k.
Proof.
  induction t as [|ev t IH]; intros m k; simpl.
  - intros E. injection E as ->. lia.
  - destruct ev as [o a|msg]; [|apply IH].
    destruct (step_of o) as [j|]; [|apply IH].
    destruct (Nat.leb_spec m j); [|discriminate].
    intros E. apply IH in E. lia.
Qed.

(** A stage whose calls all belong to the step [c]. *)
Lemma in_order_only (p : op -> bool) (c : nat) (t : trace) :
  (forall o, p o = true -> step_of o = None \/ step_of o = Some c) ->
  only p t = true ->
  forall m, m <= c -> in_order m t = Some m \/ in_order m t = Some c.
Proof.
  intros Hp. unfold only.
  induction t as [|ev t IH]; simpl; intros H m Hm; [now left|].
  apply andb_true_iff in H as [H1 H2].
  destruct ev as [o a|msg]; [|now apply IH].
  destruct (Hp o H1) as [-> | ->]; [now apply IH|].
  rewrite (proj2 (Nat.leb_le m c) Hm).
  right. destruct (IH H2 c (le_n c)) as [E|E]; exact E.
Qed.

Ltac step_class :=
  let o := fresh "o" in
  let H := fresh "H" in
  intros o H;
  unfold nav_stage, dismiss_stage, lookup_stage, shot_stage in *;
  destruct o; simpl in *; try discriminate; auto.

(** Reads a trace built by a run from the step it starts at. *)
Ltac in_turn :=
  cbv beta; rewrite ?app_nil_r;
  repeat first
    [ rewrite in_order_app
    | progress cbn [in_order step_of app Nat.leb]
    | match goal with
      | H : forall m, m <= _ -> in_order m ?t = Some m \/ _
        |- context [in_order ?k ?t] =>
          let E := fresh "E" in
          destruct (H k ltac:(lia)) as [E|E]; rewrite E; clear E
      | H : in_order ?k ?t = _ |- context [in_order ?k ?t] => rewrite H
      | |- context [(?a <=? ?b)%nat] =>
          rewrite (proj2 (Nat.leb_le a b)) by lia
      end ];
  try (eexists; split; [reflexivity | lia]).

(** Continues the reading through a stage that is known to stay in order. *)
Ltac follow Ht :=
  match goal with
  | |- context [in_order ?j ?t] =>
      let k := fresh "k" in
      let Ek := fresh "Ek" in
      let Hk := fresh "Hk" in
      destruct (Ht j ltac:(lia)) as (k & Ek & Hk); in_turn
  end.

Lemma after_navigation_order w h :
  ends (dismiss_banners BANNER_SELECTORS;;
        take_screenshot;;
        keep_latest;;
        path <- ask HEATMAP_PATH;;
        print (LogSaved path);;
        call BrowserClose;;
        ret tt) w h
       (fun r t =>
          forall m, m <= 8 -> exists k, in_order m t = Some k /\ k <= 11).
Proof.
  run1. stage dismiss_banners_stage. intros r td [-> Hd].
  pose proof (in_order_only dismiss_stage 8 td ltac:(step_class) Hd) as Od.
  run1. stage take_screenshot_stage. intros r ts [Hs Hr].
  pose proof (in_order_only shot_stage 9 ts ltac:(step_class) Hs) as Os.
  destruct r as [[]|e].
  - run1. stage keep_latest_stage. intros r tc [Hc Hr'].
    pose proof (in_order_only is_copy 10 tc ltac:(step_class) Hc) as Oc.
    destruct r as [[]|e]; repeat run1; intros m Hm; in_turn.
  - intros m Hm. in_turn.
Qed.

Lemma capture_body_order w h :
  ends capture_body w h
       (fun r t =>
          forall m, m <= 3 -> exists k, in_order m t = Some k /\ k <= 11).
Proof.
  unfold capture_body.
  repeat run1; try solve [intros m Hm; in_turn].
  stage goto_with_retries_stage. intros r tn Hn.
  pose proof (in_order_only nav_stage 7 tn ltac:(step_class) Hn) as On.
  destruct r as [ok|e]; [destruct ok; cbn [negb]|].
  - run1. run1. stage after_navigation_order. intros r t Ht m Hm.
    in_turn; follow Ht.
  - run1. run1. run1.
    + run1. stage after_navigation_order. intros r t Ht m Hm.
      in_turn; follow Ht.
    + intros m Hm. in_turn.
  - intros m Hm. in_turn.
Qed.

Lemma capture_heatmap_order w h :
  ends capture_heatmap w h
       (fun r t =>
          forall m, m <= 2 -> exists k, in_order m t = Some k /\ k <= 12).
Proof.
  unfold capture_heatmap. run1. apply ends_with_.
  - intros e E m Hm. in_turn.
  - intros b E. stage capture_body_order.
    intros r t Ht a Ha m Hm.
    change (Call PlaywrightStart (Returned b) :: t ++ [Call PlaywrightStop a])
      with ([Call PlaywrightStart (Returned b)] ++ t ++ [Call PlaywrightStop a]).
    in_turn; follow Ht; in_turn.
Qed.

Lemma written_to_app (f : string) (t t' : trace) :
  written_to f (t ++ t') = written_to f t ++ written_to f t'.
Proof. unfold written_to. now rewrite flat_map_app. Qed.

Lemma opened_app (t t' : trace) : opened (t ++ t') = opened t || opened t'.
Proof. apply existsb_app. Qed.

(** A stretch of the run without a call on the output file. *)
Lemma no_output (f : string) (t : trace) :
  calls is_output_op t = false ->
  written_to f t = [] /\ opened t = false /\ count is_output_op t = 0
  /\ count is_open t = 0 /\ calls is_file_write t = false
  /\ calls is_file_close t = false.
Proof.
  unfold calls, written_to, opened, count.
  induction t as [|ev t IH]; simpl; [now repeat split|].
  intros H. apply orb_false_iff in H as [H1 H2].
  destruct (IH H2) as (I1 & I2 & I3 & I4 & I5 & I6).
  rewrite I1, I2, I5, I6.
  destruct ev as [o a|m]; simpl in *; [|now repeat split].
  rewrite H1. destruct o; simpl in *; try discriminate; now repeat split.
Qed.

Ltac leaf :=
  repeat split;
  try reflexivity; try discriminate;
  try (eexists; split; [reflexivity | lia]).

Lemma read_google_sheet_course w h :
  ends read_google_sheet w h
       (fun r t =>
          only is_sheet_op t = true /\
          wrote (HEATMAP_PATH w) t = false /\
          printed_message t = false /\
          (exists k, in_order 0 t = Some k /\ k <= 1) /\
          (forall d, r = Normal d ->
                     all_cells d = firstn 9 (data_row w)
                     /\ 9 <= List.length (data_row w))).
Proof.
  unfold read_google_sheet, data_row.
  run1. run1; [|leaf].
  run1. run1; [|leaf].
  run1. run1.
  destruct (sheet_csv w) as [|hr [|row rest]]; cbn [next_row snd fst nth].
  - run1. run1. leaf.
  - run1. run1. cbn [next_row snd]. run1. run1. leaf.
  - run1. run1. cbn [next_row snd]. run1. run1. cbv zeta. cbn [fst].
    destruct (Nat.ltb_spec (List.length row) 9) as [Hlt|Hge].
    + run1. leaf.
    + run1. leaf.
      * injection H as <-. now apply first_nine_cells.
      * exact Hge.
Qed.

Lemma write_output_course (f : string) (msg : pystr) w h :
  ends (write_output f msg) w h
       (fun r t =>
          only is_output_op t = true /\
          wrote (HEATMAP_PATH w) t = false /\
          (forall m, m <= 13 -> exists k, in_order m t = Some k /\ k <= 15) /\
          count is_open t = 1 /\
          calls is_file_close t = opened t /\
          calls is_file_write t && negb (opened t) = false /\
          count is_output_op t <= 5 /\
          (r = Normal tt ->
           written_to f t = output_block msg /\ count is_output_op t = 5)).
Proof.
  unfold write_output. apply ends_with_.
  - intros e E. leaf; [intros m Hm; in_turn | unfold count; simpl; lia].
  - intros b E. repeat run1; intros a _; destruct a as [b'|e'].
    all: unfold written_to, output_block.
    all: cbn [app flat_map]; rewrite ?String.eqb_refl.
    all: leaf.
    all: try (intros m Hm; in_turn).
    all: try (unfold count; simpl; lia).
    all: try now rewrite <- ?app_assoc.
Qed.

(** A capture that returns has seen neither [browser.close] nor the exit
    of Playwright raise. *)
Ltac clean H :=
  lazymatch type of H with
  | only _ ?t = true =>
      let H1 := fresh "Kclose" in
      assert (H1 : raised_in is_close t = false)
        by (apply raised_in_calls; revert H; apply only_excludes; by_call);
      let H2 := fresh "Kstop" in
      assert (H2 : raised_in is_stop t = false)
        by (apply raised_in_calls; revert H; apply only_excludes; by_call)
  end.

Ltac cleared :=
  let u := fresh "u" in
  let Hu := fresh "Hu" in
  intros u Hu; try discriminate Hu;
  repeat match goal with
         | H : forall u : unit, ?r = Normal u -> _, E : ?r = Normal _ |- _ =>
             destruct (H _ E); clear H
         | H : forall u : unit, Normal _ = Normal u -> _ |- _ =>
             destruct (H tt eq_refl); clear H
         end;
  trace_facts; split; reflexivity.

Lemma after_navigation_clean w h :
  ends (dismiss_banners BANNER_SELECTORS;;
        take_screenshot;;
        keep_latest;;
        path <- ask HEATMAP_PATH;;
        print (LogSaved path);;
        call BrowserClose;;
        ret tt) w h
       (fun r t =>
          forall u, r = Normal u ->
                    raised_in is_close t = false /\
                    raised_in is_stop t = false).
Proof.
  run1. stage dismiss_banners_stage. intros r td [-> Hd]. clean Hd.
  run1. stage take_screenshot_stage. intros r ts [Hs _]. clean Hs.
  destruct r as [[]|e]; [|cleared].
  run1. stage keep_latest_stage. intros r tc [Hc _]. clean Hc.
  destruct r as [[]|e]; repeat run1; cleared.
Qed.

Lemma capture_body_clean w h :
  ends capture_body w h
       (fun r t =>
          forall u, r = Normal u ->
                    raised_in is_close t = false /\
                    raised_in is_stop t = false).
Proof.
  unfold capture_body.
  repeat run1; try solve [cleared].
  stage goto_with_retries_stage. intros r tn Hn. clean Hn.
  destruct r as [ok|e]; [destruct ok; cbn [negb]|].
  - run1. run1. stage after_navigation_clean. intros r t Ht. cleared.
  - run1. run1. run1.
    + run1. stage after_navigation_clean. intros r t Ht. cleared.
    + cleared.
  - cleared.
Qed.

Lemma capture_heatmap_clean w h :
  ends capture_heatmap w h
       (fun r t =>
          forall u, r = Normal u ->
                    raised_in is_close t = false /\
                    raised_in is_stop t = false).
Proof.
  unfold capture_heatmap. run1. apply ends_with_.
  - intros e E. cleared.
  - intros b E. stage capture_body_clean.
    intros r t Ht a Ha.
    change (Call PlaywrightStart (Returned b) :: t ++ [Call PlaywrightStop a])
      with ([Call PlaywrightStart (Returned b)] ++ t ++ [Call PlaywrightStop a]).
    clear Ha E. destruct a as [b'|e']; destruct r as [[]|e]; cleared.
Qed.

Lemma capture_heatmap_course w h :
  ends capture_heatmap w h
       (fun r t =>
          only (capture_call w) t = true /\
          (forall m, m <= 2 -> exists k, in_order m t = Some k /\ k <= 12) /\
          match r with
          | Normal _ =>
              calls is_close t = true /\
              wrote (HEATMAP_PATH w) t = true /\
              raised_in is_close t = false /\
              raised_in is_stop t = false
          | Raise e =>
              negb (calls is_close t) || raised_in is_close t
              || raised_in is_stop t = true
          end).
Proof.
  eapply ends_mono;
    [apply ends_conj;
       [apply ends_conj;
          [apply ends_conj;
             [apply capture_heatmap_tally | apply capture_heatmap_order]
          | apply capture_heatmap_ends]
       | apply capture_heatmap_clean]|].
  cbv beta. intros r t ((((Hfile & _) & Hord) & _ & _ & Hr) & Hk).
  split; [exact Hfile|]. split; [exact Hord|].
  destruct r as [u|e]; [|exact Hr].
  destruct Hr as (Hc & Hw & _). destruct (Hk u eq_refl). auto.
Qed.

(** Every run of [main] takes one of five paths: the reader raises; the
    capture raises; both return and no output file is configured; the
    output file is configured and writing it raises, or returns. *)
Section MainPaths.

Variables usd_mark usd_prefix : pystr.
Variable w : env.
Variable R : result sheet_row -> trace -> Prop.
Variable C : result unit -> trace -> Prop.
Variable O : string -> pystr -> result unit -> trace -> Prop.
Variable Q : result unit -> trace -> Prop.

Hypothesis reader : forall h, ends read_google_sheet w h R.
Hypothesis capture : forall h, ends capture_heatmap w h C.
Hypothesis sink : forall f msg h, ends (write_output f msg) w h (O f msg).

Hypothesis no_data :
  forall e tr,
    R (Raise e) tr ->
    Q (Raise (pep479 e)) (banner_lines w ++ tr).

Hypothesis no_image :
  forall d tr e tc,
    R (Normal d) tr -> C (Raise e) tc ->
    Q (Raise (pep479 e))
      (banner_lines w ++ tr
       ++ [Print (LogSheetData (format_slack_message usd_mark usd_prefix d))]
       ++ tc).

Hypothesis no_sink :
  forall d tr tc,
    R (Normal d) tr -> C (Normal tt) tc ->
    truthy_path (GITHUB_OUTPUT w) = None ->
    Q (Normal tt)
      (banner_lines w ++ tr
       ++ [Print (LogSheetData (format_slack_message usd_mark usd_prefix d))]
       ++ tc ++ [Print LogNoOutput; Print LogDone]).

Hypothesis sink_raises :
  forall d tr tc f e to,
    R (Normal d) tr -> C (Normal tt) tc ->
    truthy_path (GITHUB_OUTPUT w) = Some f ->
    O f (format_slack_message usd_mark usd_prefix d) (Raise e) to ->
    Q (Raise (pep479 e))
      (banner_lines w ++ tr
       ++ [Print (LogSheetData (format_slack_message usd_mark usd_prefix d))]
       ++ tc ++ to).

Hypothesis all_done :
  forall d tr tc f to,
    R (Normal d) tr -> C (Normal tt) tc ->
    truthy_path (GITHUB_OUTPUT w) = Some f ->
    O f (format_slack_message usd_mark usd_prefix d) (Normal tt) to ->
    Q (Normal tt)
      (banner_lines w ++ tr
       ++ [Print (LogSheetData (format_slack_message usd_mark usd_prefix d))]
       ++ tc ++ to ++ [Print LogOutputWritten; Print LogDone]).

Lemma main_paths (h : trace) : ends (main usd_mark usd_prefix) w h Q.
Proof.
  unfold main. do 10 run1. stage reader. intros r tr Hr.
  destruct r as [d|e].
  - cbv zeta. run1. run1. run1. stage capture. intros r tc Hc.
    destruct r as [[]|e].
    + run1. run1. run1.
      destruct (truthy_path (GITHUB_OUTPUT w)) as [f|] eqn:Egh.
      * run1. stage sink. intros r to Ho. destruct r as [[]|e].
        -- run1. run1. cbn [app]. rewrite <- ?app_assoc. cbn [app].
           exact (all_done d tr tc f to Hr Hc eq_refl Ho).
        -- cbn [app]. exact (sink_raises d tr tc f e to Hr Hc eq_refl Ho).
      * run1. run1. cbn [app]. exact (no_sink d tr tc Hr Hc eq_refl).
    + cbn [app]. rewrite ?app_nil_r. exact (no_image d tr e tc Hr Hc).
  - cbn [app]. exact (no_data e tr Hr).
Qed.

End MainPaths.

(** Splits a run of [main] into its five paths, with what the three stages
    are known to do. *)
Ltac main_cases :=
  eapply main_paths;
  [ intros; apply read_google_sheet_course
  | intros; apply capture_heatmap_course
  | intros; apply write_output_course
  | .. ];
  cbv beta;
  [ intros e tr (Rs & Rw & Rp & (kr & Er & Hkr) & Rd)
  | intros d tr e tc (Rs & Rw & Rp & (kr & Er & Hkr) & Rd) (Cs & Co & Cr)
  | intros d tr tc (Rs & Rw & Rp & (kr & Er & Hkr) & Rd) (Cs & Co & Cr) Egh
  | intros d tr tc f e to (Rs & Rw & Rp & (kr & Er & Hkr) & Rd) (Cs & Co & Cr)
           Egh (Os & Ow & Oo & Oopen & Oclose & Owrite & Omost & Odone)
  | intros d tr tc f to (Rs & Rw & Rp & (kr & Er & Hkr) & Rd) (Cs & Co & Cr)
           Egh (Os & Ow & Oo & Oopen & Oclose & Owrite & Omost & Odone) ];
  unfold banner_lines.

(** X17. The calls of a run come in the order of the program, whatever the
    world answers and wherever the run stops: the fetch of the sheet, its
    status check, the start of Playwright, the launch, the context, the
    page, the init script, the navigations and their waits, the clicks on
    the banners, the lookups and the screenshot, the copy, the close of
    the browser, the stop of Playwright, then the open, the writes and the
    close of the output file. No call of an earlier step follows a call of
    a later one, in [capture_heatmap] and in [main]. *)
Theorem X17_calls_in_order :
  forall (usd_mark usd_prefix : pystr) (w : env) (h : trace),
    ordered (emitted capture_heatmap w h) = true
    /\ ordered (emitted (main usd_mark usd_prefix) w h) = true.
Proof.
  intros usd_mark usd_prefix w h. split.
  - destruct (ends_observed (capture_heatmap_order w h) 0 ltac:(lia))
      as (k & E & _).
    unfold ordered. now rewrite E.
  - apply (@ends_observed _ w h (main usd_mark usd_prefix)
                          (fun _ t => ordered t = true)).
    main_cases; unfold ordered; in_turn;
      try follow Co; try follow Oo; reflexivity.
Qed.

(** What a stage leaves untouched, from the class of its calls. *)
Ltac untouched H :=
  lazymatch type of H with
  | only _ ?t = true =>
      try (let K := fresh "Ucap" in
           assert (K : calls is_capture_op t = false)
             by (revert H; apply only_excludes; by_call));
      try (let K := fresh "Uout" in
           assert (K : calls is_output_op t = false)
             by (revert H; apply only_excludes; by_call));
      try (let K := fresh "Uclose" in
           assert (K : calls is_close t = false)
             by (revert H; apply only_excludes; by_call));
      try (let K := fresh "Urclose" in
           assert (K : raised_in is_close t = false)
             by (apply raised_in_calls; revert H; apply only_excludes;
                 by_call));
      try (let K := fresh "Urstop" in
           assert (K : raised_in is_stop t = false)
             by (apply raised_in_calls; revert H; apply only_excludes;
                 by_call))
  end.

Ltac digest :=
  repeat match goal with
         | H : only _ _ = true |- _ => untouched H; clear H
         end.

(** X18. The stages of [main] follow each other, in every world: a call of
    the capture is made only after the message was printed; a call on the
    output file is made only after the browser was closed and Playwright
    stopped without an exception, with the screenshot written; and a run
    that returns has printed the message, written the screenshot and
    closed the browser. *)
Theorem X18_main_stages :
  forall (usd_mark usd_prefix : pystr) (w : env) (h : trace),
    (calls is_capture_op (emitted (main usd_mark usd_prefix) w h) = true ->
     printed_message (emitted (main usd_mark usd_prefix) w h) = true)
    /\ (calls is_output_op (emitted (main usd_mark usd_prefix) w h) = true ->
        calls is_close (emitted (main usd_mark usd_prefix) w h) = true
        /\ raised_in is_close (emitted (main usd_mark usd_prefix) w h) = false
        /\ raised_in is_stop (emitted (main usd_mark usd_prefix) w h) = false
        /\ wrote (HEATMAP_PATH w) (emitted (main usd_mark usd_prefix) w h)
           = true)
    /\ (outcome (main usd_mark usd_prefix) w h = Normal tt ->
        printed_message (emitted (main usd_mark usd_prefix) w h) = true
        /\ calls is_close (emitted (main usd_mark usd_prefix) w h) = true
        /\ wrote (HEATMAP_PATH w) (emitted (main usd_mark usd_prefix) w h)
           = true).
Proof.
  intros usd_mark usd_prefix w h.
  apply (@ends_observed _ w h (main usd_mark usd_prefix)
           (fun r t =>
              (calls is_capture_op t = true -> printed_message t = true)
              /\ (calls is_output_op t = true ->
                  calls is_close t = true /\ raised_in is_close t = false
                  /\ raised_in is_stop t = false
                  /\ wrote (HEATMAP_PATH w) t = true)
              /\ (r = Normal tt ->
                  printed_message t = true /\ calls is_close t = true
                  /\ wrote (HEATMAP_PATH w) t = true))).
  main_cases; digest;
    repeat match goal with H : _ /\ _ |- _ => destruct H end;
    trace_facts.
  all: repeat split; intros; try reflexivity; discriminate.
Qed.

(** What a stage without a call on the output file leaves of it. *)
Ltac silent f :=
  repeat match goal with
         | H : calls is_output_op ?t = false |- _ =>
             let S1 := fresh "Swritten" in
             let S2 := fresh "Sopened" in
             let S3 := fresh "Scount" in
             let S4 := fresh "Sopen" in
             let S5 := fresh "Swrite" in
             let S6 := fresh "Sclose" in
             destruct (no_output f t H) as (S1 & S2 & S3 & S4 & S5 & S6);
             clear H
         end.

Ltac file_facts :=
  cbv beta;
  repeat first [ rewrite written_to_app | rewrite opened_app
               | rewrite count_app | rewrite calls_app ];
  repeat match goal with
         | H : _ = [] |- _ => rewrite H
         | H : _ = true |- _ => rewrite H
         | H : _ = false |- _ => rewrite H
         | H : _ = 0 |- _ => rewrite H
         | H : _ = 1 |- _ => rewrite H
         | H : _ = 5 |- _ => rewrite H
         end;
  unfold written_to, opened, count, calls;
  cbn [flat_map existsb filter app is_call is_open is_file_write
       is_file_close is_output_op length orb negb andb Nat.add].

(** X19. The output file is optional: when [GITHUB_OUTPUT] is unset or
    empty, [main] makes no call on any file of that kind, and the run
    returns exactly when the capture went through, that is when
    [browser.close] was called and neither it nor the exit of Playwright
    raised. *)
Theorem X19_output_file_optional :
  forall (usd_mark usd_prefix : pystr) (w : env) (h : trace),
    truthy_path (GITHUB_OUTPUT w) = None ->
    calls is_output_op (emitted (main usd_mark usd_prefix) w h) = false
    /\ (outcome (main usd_mark usd_prefix) w h = Normal tt <->
        calls is_close (emitted (main usd_mark usd_prefix) w h) = true
        /\ raised_in is_close (emitted (main usd_mark usd_prefix) w h)
           = false
        /\ raised_in is_stop (emitted (main usd_mark usd_prefix) w h)
           = false).
Proof.
  intros usd_mark usd_prefix w h Hnone.
  apply (@ends_observed _ w h (main usd_mark usd_prefix)
           (fun r t =>
              calls is_output_op t = false
              /\ (r = Normal tt <->
                  calls is_close t = true /\ raised_in is_close t = false
                  /\ raised_in is_stop t = false))).
  main_cases; try congruence; digest;
    repeat match goal with H : _ /\ _ |- _ => destruct H end;
    trace_facts.
  all: split; [reflexivity|]; split.
  all: try (intros; repeat split; (reflexivity || discriminate)).
  all: try (intros (? & ? & ?); discriminate).
  intros (Hc & Hx & Hs). rewrite Hc, Hx, Hs in *. discriminate.
Qed.

Lemma X19_output_file_optional_witness :
  truthy_path (GITHUB_OUTPUT local_world) = None
  /\ calls is_output_op (emitted (main (lit "$") (lit "$")) local_world [])
     = false
  /\ truthy_path (GITHUB_OUTPUT blank_output_world) = None
  /\ outcome (main (lit "$") (lit "$")) blank_output_world [] = Normal tt.
Proof.
  split; [reflexivity|]. split.
  - exact (proj1 (X19_output_file_optional (lit "$") (lit "$") local_world []
                    eq_refl)).
  - split; [reflexivity|].
    apply (proj2 (X19_output_file_optional (lit "$") (lit "$")
                    blank_output_world [] eq_refl)).
    repeat split; reflexivity.
Defined.

(** X20. When the output file is configured and [main] returns, what the
    run has written to that file is the block of three lines: the header
    [market_text<<EOF], the message, and [EOF], each followed by a line
    feed; the message is the one printed before the capture, formatted
    from the first nine cells of the second row of the sheet; and the run
    has made exactly five calls on the file. *)
Theorem X20_output_block :
  forall (usd_mark usd_prefix : pystr) (w : env) (h : trace) (f : string),
    truthy_path (GITHUB_OUTPUT w) = Some f ->
    outcome (main usd_mark usd_prefix) w h = Normal tt ->
    exists d,
      all_cells d = firstn 9 (data_row w)
      /\ In (Print (LogSheetData (format_slack_message usd_mark usd_prefix d)))
            (emitted (main usd_mark usd_prefix) w h)
      /\ written_to f (emitted (main usd_mark usd_prefix) w h)
         = output_block (format_slack_message usd_mark usd_prefix d)
      /\ count is_output_op (emitted (main usd_mark usd_prefix) w h) = 5.
Proof.
  intros usd_mark usd_prefix w h path Hf.
  apply (@ends_observed _ w h (main usd_mark usd_prefix)
           (fun r t =>
              r = Normal tt ->
              exists d,
                all_cells d = firstn 9 (data_row w)
                /\ In (Print (LogSheetData
                                (format_slack_message usd_mark usd_prefix d))) t
                /\ written_to path t
                   = output_block (format_slack_message usd_mark usd_prefix d)
                /\ count is_output_op t = 5)).
  main_cases; try discriminate; [congruence|].
  intros _. rewrite Hf in Egh. injection Egh as <-.
  destruct (Rd d eq_refl) as [Hcells _].
  destruct (Odone eq_refl) as [Hblock Hfive].
  digest. silent path.
  exists d. split; [exact Hcells|]. split.
  - apply in_or_app. right. apply in_or_app. right. now left.
  - rewrite !written_to_app, !count_app.
    rewrite Swritten, Swritten0, Hblock, Scount, Scount0, Hfive.
    split; [|reflexivity].
    unfold written_to. cbn [flat_map app]. now rewrite app_nil_r.
Qed.

Lemma X20_output_block_witness :
  exists d,
    all_cells d = firstn 9 (data_row calm_world)
    /\ In (Print (LogSheetData (format_slack_message (lit "$") (lit "$") d)))
          (emitted (main (lit "$") (lit "$")) calm_world [])
    /\ written_to "github_output.txt"
                  (emitted (main (lit "$") (lit "$")) calm_world [])
       = output_block (format_slack_message (lit "$") (lit "$") d)
    /\ count is_output_op (emitted (main (lit "$") (lit "$")) calm_world [])
       = 5.
Proof.
  apply (X20_output_block (lit "$") (lit "$") calm_world []
                          "github_output.txt"); reflexivity.
Defined.

(** X21. The output file in [main], in every world: it is opened at most
    once; it is closed exactly when it was opened, also when a write
    raised in between; nothing is written to a file that was not opened;
    and a run makes five calls on it at most. *)
Theorem X21_output_file_closed :
  forall (usd_mark usd_prefix : pystr) (w : env) (h : trace),
    count is_open (emitted (main usd_mark usd_prefix) w h) <= 1
    /\ calls is_file_close (emitted (main usd_mark usd_prefix) w h)
       = opened (emitted (main usd_mark usd_prefix) w h)
    /\ calls is_file_write (emitted (main usd_mark usd_prefix) w h)
       && negb (opened (emitted (main usd_mark usd_prefix) w h)) = false
    /\ count is_output_op (emitted (main usd_mark usd_prefix) w h) <= 5.
Proof.
  intros usd_mark usd_prefix w h.
  apply (@ends_observed _ w h (main usd_mark usd_prefix)
           (fun r t =>
              count is_open t <= 1
              /\ calls is_file_close t = opened t
              /\ calls is_file_write t && negb (opened t) = false
              /\ count is_output_op t <= 5)).
  main_cases; digest; silent EmptyString.
  all: rewrite ?count_app, ?calls_app, ?opened_app.
  all: repeat match goal with
              | |- context [count ?p (?x :: ?l)] =>
                  let v := eval cbv in (count p (x :: l)) in
                  change (count p (x :: l)) with v
              | |- context [calls ?p (?x :: ?l)] =>
                  let v := eval cbv in (calls p (x :: l)) in
                  change (calls p (x :: l)) with v
              | |- context [opened (?x :: ?l)] =>
                  let v := eval cbv in (opened (x :: l)) in
                  change (opened (x :: l)) with v
              end.
  all: repeat match goal with
              | H : _ = false |- _ => rewrite H
              | H : _ = 0 |- _ => rewrite H
              | H : _ = 1 |- _ => rewrite H
              end.
  all: cbn [orb Nat.add]; rewrite ?orb_false_r, ?Nat.add_0_r.
  all: repeat split; try reflexivity; try lia; assumption.
Qed.
